(** * apps/gemini.py: retry loop, content extraction and response normalisation

    A shallow embedding of [src/apps/gemini.py] and the proofs of the
    properties its specification states.

    Modelling conventions.
    - A Python [str] is the list of the bytes of its UTF-8 encoding.  The
      string operations of the script ([lower], [in], [startswith],
      [replace], the two regular expressions) act on ASCII characters only,
      so the model is exact for every string whose characters outside ASCII
      are neither cased letters nor white space (CJK text, for instance).
    - [bytes] are lists of [Byte.byte].
    - Everything outside the process (disk, network, the SDK client, the
      clock) is an oracle of the environment [env]; an oracle sees the whole
      current [world], so its answers may depend on the history.
    - Effects are threaded through a state-and-exception monad [M]: a raised
      exception keeps the side effects made before it, as in Python.
    - [print] calls that report an outcome (a failure, a file saved) are
      recorded in the trace; progress messages are left out, as are the
      API key and the time-out, which are only handed to the libraries. *)

From Stdlib Require Import List Ascii String ZArith NArith Bool Lia Arith.
From Stdlib Require Import DecimalString DecimalNat.
Import ListNotations.

Set Implicit Arguments.
Set Warnings "-register-all".

(* ===================================================================== *)
(** * Part I: the model                                                   *)
(* ===================================================================== *)

(** ** Python strings *)

Module Py.

Definition str : Set := list ascii.

(** A string literal of the source. *)
Definition lit (s : string) : str := list_ascii_of_string s.

Definition code (c : ascii) : N := N_of_ascii c.

(** [str.lower()] on one character: A-Z become a-z. *)
Definition lower_char (c : ascii) : ascii :=
  let n := code c in
  if ((65 <=? n) && (n <=? 90))%N then ascii_of_N (n + 32) else c.

Definition lower (s : str) : str := map lower_char s.

(** [s.startswith(p)] *)
Fixpoint startswith (p s : str) : bool :=
  match p, s with
  | [], _ => true
  | _ :: _, [] => false
  | a :: p', b :: s' => Ascii.eqb a b && startswith p' s'
  end.

(** [p in s] for two strings: [p] occurs as a substring of [s]. *)
Fixpoint contains (p s : str) : bool :=
  startswith p s ||
  match s with
  | [] => false
  | _ :: s' => contains p s'
  end.

(** [str(n)] for a non-negative counter: its decimal digits. *)
Definition str_of_nat (n : nat) : str :=
  lit (NilEmpty.string_of_uint (Nat.to_uint n)).

(** [s.replace(old, new)]: every non-overlapping occurrence of [old], found
    left to right, is replaced.  [skip] counts the characters of an
    occurrence that is being stepped over.  With an empty [old] Python puts
    [new] before every character and at the end. *)
Fixpoint replace_from (old new : str) (skip : nat) (s : str) : str :=
  match s with
  | [] => []
  | c :: s' =>
      match skip with
      | S k => replace_from old new k s'
      | O =>
          if startswith old s
          then new ++ replace_from old new (List.length old - 1) s'
          else c :: replace_from old new 0 s'
      end
  end.

Definition replace (s old new : str) : str :=
  match old with
  | [] => new ++ flat_map (fun c => c :: new) s
  | _ :: _ => replace_from old new 0 s
  end.

(** [os.path.join(a, b)] on a POSIX host, for a relative [b]. *)
Definition path_join (a b : str) : str :=
  match rev a with
  | [] => b
  | c :: _ => if Ascii.eqb c "/" then a ++ b else a ++ lit "/" ++ b
  end.

End Py.

Import Py.

(** ** Python values, exceptions and the world *)

(** The JSON documents the server sends and the objects the SDK returns.
    [VObj] is an object with attributes (an SDK model); the others are the
    images of JSON values under [json.loads]. *)
Inductive value :=
| VNone
| VBool (b : bool)
| VNum (n : Z)
| VStr (s : str)
| VList (items : list value)
| VDict (entries : list (str * value))
| VObj (attrs : list (str * value)).

Inductive exn :=
| OSError (msg : str)              (* open / read / write / makedirs *)
| RequestException (msg : str)     (* requests.exceptions.RequestException *)
| BinasciiError                    (* base64.b64decode on bad input (or ValueError) *)
| SdkError (msg : str)             (* raised by client.chat.completions.create *)
| TypeError
| AttributeError
| KeyError
| IndexError
| RetriesExhausted (max_retries : Z).   (* the final [raise Exception(...)] *)

(** What a file written by the script holds. *)
Inductive file :=
| Binary (data : list Byte.byte)   (* open(path, "wb") *)
| Text (s : str)                   (* open(path, "w", encoding="utf-8") *)
| JsonDump (v : value).            (* json.dump(v, f, ...) *)

(** The outcomes the script reports with [print]. *)
Inductive message :=
| MsgPrepareFailed (path : str) (e : exn)   (* prepare_image_data, line 64 *)
| MsgImageSkipped (path : str) (e : exn)    (* driver loop, line 349 *)
| MsgNoImages                               (* line 353 *)
| MsgSavedBase64 (path : str)               (* line 91 *)
| MsgSaveBase64Failed (e : exn)             (* line 94 *)
| MsgDownloaded (path : str)                (* line 122 *)
| MsgDownloadFailed (e : exn)               (* line 125 *)
| MsgSavedText (path : str)                 (* line 171 *)
| MsgSavedOriginal (path : str)             (* line 178 *)
| MsgMixedContentFailed (e : exn)           (* line 181 *)
| MsgHttpFailed (e : exn)                   (* line 273 *)
| MsgFallingBack (e : exn)                  (* lines 393-394 *)
| MsgApiCallFailed (error_message : str)    (* line 295 *)
| MsgQuotaGiveUp                            (* line 307 *)
| MsgTimeoutGiveUp                          (* line 314 *)
| MsgNotRetryable.                          (* line 318 *)

Inductive event :=
| EvRead (path : str)                       (* open(path, "rb").read() *)
| EvMkdir (path : str)                      (* os.makedirs(path, exist_ok=True) *)
| EvWrote (path : str) (f : file)           (* a file written completely *)
| EvWriteFailed (path : str)                (* open or write raised *)
| EvGet (url : str)                         (* requests.get(url, stream=True) *)
| EvPost (url : str) (data : value)         (* requests.post(url, json=data, ...) *)
| EvCreate (model : str) (messages : value) (* client.chat.completions.create *)
| EvSleep (seconds : Z)                     (* time.sleep *)
| EvPrint (m : message).

(** The world is the history of what the process did, oldest event first. *)
Definition world : Set := list event.

Definition is_network (ev : event) : bool :=
  match ev with
  | EvGet _ | EvPost _ _ | EvCreate _ _ => true
  | _ => false
  end.

Definition is_create (ev : event) : bool :=
  match ev with EvCreate _ _ => true | _ => false end.

Definition is_sleep (ev : event) : bool :=
  match ev with EvSleep _ => true | _ => false end.

(** The files the process has written, as (path, contents), oldest first. *)
Fixpoint files_written (w : world) : list (str * file) :=
  match w with
  | [] => []
  | EvWrote p f :: w' => (p, f) :: files_written w'
  | _ :: w' => files_written w'
  end.

Definition str_eqb (a b : str) : bool :=
  if list_eq_dec ascii_dec a b then true else false.

(** The latest contents written at [path], if any. *)
Fixpoint read_back (fs : list (str * file)) (path : str) : option file :=
  match fs with
  | [] => None
  | (p, f) :: fs' =>
      match read_back fs' path with
      | Some f' => Some f'
      | None => if str_eqb p path then Some f else None
      end
  end.

(** An HTTP response as [requests] presents it. *)
Record http_response := {
  resp_status : N;
  resp_content_type : str;                 (* headers.get('content-type', '') *)
  resp_body : list Byte.byte;              (* the chunks of iter_content, joined *)
  resp_lines : list str;                   (* iter_lines(), each decoded *)
  resp_broken : option exn;                (* raised by the stream after them *)
  resp_json : exn + value                  (* response.json() *)
}.

(** The environment: every answer may depend on the history so far. *)
Record env := {
  env_read : world -> str -> exn + list Byte.byte;
  env_mkdir : world -> str -> option exn;
  env_write : world -> str -> file -> option exn;
  env_get : world -> str -> exn + http_response;
  env_post : world -> str -> value -> exn + http_response;
  env_create : world -> str -> value -> exn + value;
  env_timestamp : world -> str;            (* now().strftime("%Y%m%d_%H%M%S") *)
  env_json_loads : str -> option value;    (* None: json.JSONDecodeError *)
  env_repr : value -> str                  (* str(v) of a value that is no string *)
}.

(** ** The effect monad *)

Inductive result (A : Type) :=
| Ok (a : A)
| Raise (e : exn).
Arguments Ok {A} a.
Arguments Raise {A} e.

Definition M (A : Type) : Type := world -> result A * world.

Definition ret {A} (a : A) : M A := fun w => (Ok a, w).

Definition raise {A} (e : exn) : M A := fun w => (Raise e, w).

Definition bind {A B} (m : M A) (k : A -> M B) : M B :=
  fun w =>
    match m w with
    | (Ok a, w') => k a w'
    | (Raise e, w') => (Raise e, w')
    end.

(** [try: m except Exception as e: h e] *)
Definition try_except {A} (m : M A) (h : exn -> M A) : M A :=
  fun w =>
    match m w with
    | (Ok a, w') => (Ok a, w')
    | (Raise e, w') => h e w'
    end.

Definition emit (ev : event) : M unit := fun w => (Ok tt, w ++ [ev]).

Definition print (m : message) : M unit := emit (EvPrint m).

(** Lift a pure computation that may raise. *)
Definition lift {A} (r : result A) : M A := fun w => (r, w).

Definition of_sum {A} (r : exn + A) : result A :=
  match r with
  | inl e => Raise e
  | inr a => Ok a
  end.

Declare Scope monad_scope.
Delimit Scope monad_scope with monad.
Notation "x <- m ;; k" := (bind m (fun x => k))
  (at level 61, m at next level, right associativity) : monad_scope.
Notation "m ;; k" := (bind m (fun _ => k))
  (at level 61, right associativity) : monad_scope.
Local Open Scope monad_scope.

(** ** Primitive effects *)

Section Effects.
Variable E : env.

(** [with open(path, mode) as f: f.write(data)] *)
Definition write_file (path : str) (f : file) : M unit :=
  fun w =>
    match env_write E w path f with
    | None => (Ok tt, w ++ [EvWrote path f])
    | Some e => (Raise e, w ++ [EvWriteFailed path])
    end.

(** [open(path, "rb").read()] *)
Definition read_file (path : str) : M (list Byte.byte) :=
  fun w => (of_sum (env_read E w path), w ++ [EvRead path]).

Definition makedirs (path : str) : M unit :=
  fun w =>
    match env_mkdir E w path with
    | None => (Ok tt, w ++ [EvMkdir path])
    | Some e => (Raise e, w ++ [EvMkdir path])
    end.

Definition http_get (url : str) : M http_response :=
  fun w => (of_sum (env_get E w url), w ++ [EvGet url]).

Definition http_post (url : str) (data : value) : M http_response :=
  fun w => (of_sum (env_post E w url data), w ++ [EvPost url data]).

(** [response.raise_for_status()]: HTTPError on a 4xx or 5xx status. *)
Definition raise_for_status (r : http_response) : M unit :=
  if ((400 <=? resp_status r) && (resp_status r <? 600))%N
  then raise (RequestException (lit "HTTPError"))
  else ret tt.

Definition sdk_create (model : str) (messages : value) : M value :=
  fun w => (of_sum (env_create E w model messages), w ++ [EvCreate model messages]).

Definition sleep (seconds : Z) : M unit := emit (EvSleep seconds).

End Effects.

(** ** Retry classifier (lines 183-192) *)

Definition quota_keywords : list str :=
  [ lit "exceeded your current quota";
    lit "quota exceeded";
    lit "billing details";
    lit "plan and billing" ].

Definition is_quota_exceeded_error (error_message : str) : bool :=
  let error_str := lower error_message in
  existsb (fun keyword => contains keyword error_str) quota_keywords.

(** The condition of the [elif] at line 309. *)
Definition is_timeout_error (error_message : str) : bool :=
  contains (lit "timeout") (lower error_message)
  || contains (lit "timed out") (lower error_message).

(** [str(e)] *)
Definition str_of_exn (e : exn) : str :=
  match e with
  | OSError msg | RequestException msg | SdkError msg => msg
  | BinasciiError => lit "Incorrect padding"
  | TypeError => lit "TypeError"
  | AttributeError => lit "AttributeError"
  | KeyError => lit "KeyError"
  | IndexError => lit "IndexError"
  | RetriesExhausted _ => lit "retries exhausted"
  end.

(** ** The fallback call with retries (lines 276-322) *)

Section Retry.
Variable E : env.
Variables (model : str) (messages : value).
Variables (max_retries retry_delay : Z).

(** The body of [for attempt in range(max_retries)]; [remaining] is the
    number of values of [attempt] still to come, this one included. *)
Fixpoint retry_loop (remaining : nat) (attempt : Z) : M value :=
  match remaining with
  | O => raise (RetriesExhausted max_retries)
  | S remaining' =>
      try_except (sdk_create E model messages)
        (fun e =>
           let error_message := str_of_exn e in
           print (MsgApiCallFailed error_message) ;;
           if is_quota_exceeded_error error_message then
             if (attempt <? max_retries - 1)%Z then
               (if (retry_delay >? 0)%Z then sleep retry_delay else ret tt) ;;
               retry_loop remaining' (attempt + 1)%Z
             else
               print MsgQuotaGiveUp ;; raise e
           else if is_timeout_error error_message then
             if (attempt <? max_retries - 1)%Z then
               retry_loop remaining' (attempt + 1)%Z
             else
               print MsgTimeoutGiveUp ;; raise e
           else
             print MsgNotRetryable ;; raise e)
  end.

Definition call_openai_with_retry : M value :=
  retry_loop (Z.to_nat max_retries) 0%Z.

End Retry.

(** The branch of lines 298-319 that an error message selects. *)
Inductive retry_class := QuotaExceeded | Timeout | NonRetryable.

Definition classify (error_message : str) : retry_class :=
  if is_quota_exceeded_error error_message then QuotaExceeded
  else if is_timeout_error error_message then Timeout
  else NonRetryable.

(** ** Specification vocabulary for the retry loop *)

(** [s] contains [keyword] up to the case of its characters. *)
Definition ci_contains (keyword s : str) : Prop :=
  exists pre mid post, s = pre ++ mid ++ post /\ lower mid = lower keyword.

(** The calls and sleeps of [n] attempts that all end in a quota error:
    one call per attempt, and a sleep between two attempts when the
    configured delay is positive. *)
Fixpoint quota_schedule (call : event) (retry_delay : Z) (n : nat) : list event :=
  match n with
  | O => []
  | S O => [call]
  | S n' =>
      call :: (if (retry_delay >? 0)%Z then [EvSleep retry_delay] else [])
      ++ quota_schedule call retry_delay n'
  end.

Definition is_call_or_sleep (ev : event) : bool := is_create ev || is_sleep ev.

Section RetrySteps.
Variable E : env.
Variables (model : str) (messages : value).
Variables (max_retries retry_delay : Z).

(** The events of one failed call. *)
Definition failed_call (e : exn) : list event :=
  [EvCreate model messages; EvPrint (MsgApiCallFailed (str_of_exn e))].

(** What one failed attempt of the loop does, by the class of its error. *)
Definition after_failed_attempt (remaining : nat) (attempt : Z) (w : world) (e : exn)
  : result value * world :=
  let w1 := w ++ failed_call e in
  match classify (str_of_exn e) with
  | QuotaExceeded =>
      if (attempt <? max_retries - 1)%Z
      then retry_loop E model messages max_retries retry_delay remaining (attempt + 1)
             (if (retry_delay >? 0)%Z then w1 ++ [EvSleep retry_delay] else w1)
      else (Raise e, w1 ++ [EvPrint MsgQuotaGiveUp])
  | Timeout =>
      if (attempt <? max_retries - 1)%Z
      then retry_loop E model messages max_retries retry_delay remaining (attempt + 1) w1
      else (Raise e, w1 ++ [EvPrint MsgTimeoutGiveUp])
  | NonRetryable => (Raise e, w1 ++ [EvPrint MsgNotRetryable])
  end.

End RetrySteps.

(** ** Regular expressions ([re.finditer]) *)

Module Re.

(** The fragment of Python's regular expressions that the two patterns of
    [save_mixed_content] use.  Repetition only occurs over a character
    class. *)
Inductive regex :=
| Chr (c : ascii)                 (* one literal character *)
| Str (s : str)                   (* a literal string *)
| Seq (r1 r2 : regex)             (* r1 r2 *)
| Alt (r1 r2 : regex)             (* r1|r2 *)
| Opt (r : regex)                 (* r? *)
| Plus (class : ascii -> bool)    (* [class]+ *)
| Group (r : regex).              (* (r) *)

Section Matcher.
Variable ignorecase : bool.       (* re.IGNORECASE *)
Variable A : Type.

Definition chr_match (c x : ascii) : bool :=
  if ignorecase then Ascii.eqb (lower_char c) (lower_char x) else Ascii.eqb c x.

Fixpoint str_match (p s : str) (k : str -> option A) : option A :=
  match p with
  | [] => k s
  | c :: p' =>
      match s with
      | x :: s' => if chr_match c x then str_match p' s' k else None
      | [] => None
      end
  end.

(** Greedy [class]+: take as many characters as possible, and give them
    back one at a time while the rest of the pattern fails. *)
Fixpoint plus_match (class : ascii -> bool) (s : str) (k : str -> option A) : option A :=
  match s with
  | x :: s' =>
      if class x then
        match plus_match class s' k with
        | Some r => Some r
        | None => k s'
        end
      else None
  | [] => None
  end.

(** Backtracking matcher in continuation-passing style: [run r caps s k]
    matches [r] at the head of [s] and hands the groups captured so far and
    the unread input to [k]; alternatives are tried in Python's order. *)
Fixpoint run (r : regex) (caps : list str) (s : str)
    (k : list str -> str -> option A) : option A :=
  match r with
  | Chr c =>
      match s with
      | x :: s' => if chr_match c x then k caps s' else None
      | [] => None
      end
  | Str p => str_match p s (k caps)
  | Seq r1 r2 => run r1 caps s (fun caps' s' => run r2 caps' s' k)
  | Alt r1 r2 =>
      match run r1 caps s k with
      | Some v => Some v
      | None => run r2 caps s k
      end
  | Opt r1 =>
      match run r1 caps s k with
      | Some v => Some v
      | None => k caps s
      end
  | Plus class => plus_match class s (k caps)
  | Group r1 =>
      run r1 caps s
        (fun caps' s' => k (caps' ++ [firstn (List.length s - List.length s') s]) s')
  end.

End Matcher.

(** A match object: [group(0)] and the numbered groups [group(1)], ... *)
Record rmatch := { group0 : str; groups : list str }.

Definition group (m : rmatch) (i : nat) : str :=
  match i with
  | O => group0 m
  | S j => nth j (groups m) []
  end.

(** The match of [r] that starts at the head of [s], if any, and the input
    after it. *)
Definition match_at (ignorecase : bool) (r : regex) (s : str) : option (rmatch * str) :=
  run ignorecase r [] s
    (fun caps rest =>
       Some ({| group0 := firstn (List.length s - List.length rest) s;
                groups := caps |}, rest)).

(** [re.finditer]: the non-overlapping matches, leftmost first.  [skip]
    counts the characters of the previous match still to step over.  (Both
    patterns only have non-empty matches.) *)
Fixpoint finditer_from (ignorecase : bool) (r : regex) (skip : nat) (s : str)
  : list rmatch :=
  match s with
  | [] => []
  | _ :: s' =>
      match skip with
      | S n => finditer_from ignorecase r n s'
      | O =>
          match match_at ignorecase r s with
          | Some (m, _) =>
              m :: finditer_from ignorecase r (List.length (group0 m) - 1) s'
          | None => finditer_from ignorecase r 0 s'
          end
      end
  end.

Definition finditer (r : regex) (ignorecase : bool) (s : str) : list rmatch :=
  finditer_from ignorecase r 0 s.

End Re.

Import Re.

(** ** The two patterns of [save_mixed_content] (lines 132 and 136) *)

Definition in_range (lo hi : N) (c : ascii) : bool :=
  ((lo <=? code c) && (code c <=? hi))%N.

(** [[A-Za-z0-9+/=]] *)
Definition is_base64_char (c : ascii) : bool :=
  in_range 65 90 c || in_range 97 122 c || in_range 48 57 c
  || Ascii.eqb c "+" || Ascii.eqb c "/" || Ascii.eqb c "=".

(** [[^;]] *)
Definition not_semicolon (c : ascii) : bool := negb (Ascii.eqb c ";").

(** [\s] on a [str] pattern: the ASCII characters with [str.isspace()],
    that is tab to carriage return, the four separators 28-31 and space. *)
Definition is_space (c : ascii) : bool :=
  in_range 9 13 c || in_range 28 32 c.

(** The class of the URL pattern: anything but [\s], [<], [>] and the
    double quote (character 34). *)
Definition is_url_char (c : ascii) : bool :=
  negb (is_space c || Ascii.eqb c "<" || Ascii.eqb c ">" || Ascii.eqb c "034").

(** [r'data:image/[^;]+;base64,([A-Za-z0-9+/=]+)'] *)
Definition base64_pattern : regex :=
  Seq (Str (lit "data:image/"))
    (Seq (Plus not_semicolon)
       (Seq (Str (lit ";base64,"))
          (Group (Plus is_base64_char)))).

(** The pattern of line 136, [https?://C+\.(png|jpg|jpeg|gif)] with [C] the
    class [is_url_char], used with re.IGNORECASE. *)
Definition url_pattern : regex :=
  Seq (Str (lit "http"))
    (Seq (Opt (Chr "s"))
       (Seq (Str (lit "://"))
          (Seq (Plus is_url_char)
             (Seq (Chr ".")
                (Group (Alt (Str (lit "png"))
                          (Alt (Str (lit "jpg"))
                             (Alt (Str (lit "jpeg")) (Str (lit "gif")))))))))).

(** ** Base64 ([base64.b64encode], [base64.b64decode]) *)

Module Base64.

Definition alphabet : str :=
  lit "ABCDEFGHIJKLMNOPQRSTUVWXYZabcdefghijklmnopqrstuvwxyz0123456789+/".

Definition byte_of_N (n : N) : Byte.byte := byte_of_ascii (ascii_of_N n).

(** The character of a 6-bit digit. *)
Definition digit (n : N) : ascii := nth (N.to_nat n) alphabet "="%char.

(** The 6-bit digit of a character of the alphabet. *)
Definition value_of (c : ascii) : option N :=
  let n := code c in
  if in_range 65 90 c then Some (n - 65)%N
  else if in_range 97 122 c then Some (n - 97 + 26)%N
  else if in_range 48 57 c then Some (n - 48 + 52)%N
  else if Ascii.eqb c "+" then Some 62%N
  else if Ascii.eqb c "/" then Some 63%N
  else None.

(** [binascii.b2a_base64(data, newline=False)]: three bytes make four
    digits; a last group of one or two bytes is padded with [=]. *)
Fixpoint b64encode (data : list Byte.byte) : str :=
  match data with
  | [] => []
  | [a] =>
      let a := Byte.to_N a in
      [digit (N.shiftr a 2); digit (N.shiftl (N.land a 3) 4); "="; "="]%char
  | [a; b] =>
      let a := Byte.to_N a in
      let b := Byte.to_N b in
      [digit (N.shiftr a 2);
       digit (N.lor (N.shiftl (N.land a 3) 4) (N.shiftr b 4));
       digit (N.shiftl (N.land b 15) 2); "="]%char
  | a :: b :: c :: rest =>
      let a := Byte.to_N a in
      let b := Byte.to_N b in
      let c := Byte.to_N c in
      digit (N.shiftr a 2)
      :: digit (N.lor (N.shiftl (N.land a 3) 4) (N.shiftr b 4))
      :: digit (N.lor (N.shiftl (N.land b 15) 2) (N.shiftr c 6))
      :: digit (N.land c 63)
      :: b64encode rest
  end.

(** [binascii.a2b_base64] in its default, lenient mode.  [quad_pos] is the
    position inside the current group of four digits, [leftchar] the bits
    of the group not yet written, [pads] the [=] seen since the last digit.
    Characters outside the alphabet are skipped; a [=] that completes the
    padding of a group ends the decoding; input that stops inside a group
    is an error. *)
Fixpoint a2b_base64 (s : str) (quad_pos : nat) (leftchar : N) (pads : nat)
  : option (list Byte.byte) :=
  match s with
  | [] => if Nat.eqb quad_pos 0 then Some [] else None
  | ch :: s' =>
      if Ascii.eqb ch "=" then
        if Nat.leb 2 quad_pos then
          if Nat.leb 4 (quad_pos + S pads) then Some []
          else a2b_base64 s' quad_pos leftchar (S pads)
        else a2b_base64 s' quad_pos leftchar pads
      else
        match value_of ch with
        | None => a2b_base64 s' quad_pos leftchar pads
        | Some this_ch =>
            match quad_pos with
            | 0 => a2b_base64 s' 1 this_ch 0
            | 1 =>
                option_map
                  (cons (byte_of_N (N.lor (N.shiftl leftchar 2) (N.shiftr this_ch 4))))
                  (a2b_base64 s' 2 (N.land this_ch 15) 0)
            | 2 =>
                option_map
                  (cons (byte_of_N (N.lor (N.shiftl leftchar 4) (N.shiftr this_ch 2))))
                  (a2b_base64 s' 3 (N.land this_ch 3) 0)
            | _ =>
                option_map
                  (cons (byte_of_N (N.lor (N.shiftl leftchar 6) this_ch)))
                  (a2b_base64 s' 0 0%N 0)
            end
        end
  end.

(** [base64.b64decode(s)] for a [str]: a character outside ASCII is
    refused (ValueError), the rest is decoded leniently; [None] stands for
    either error. *)
Definition b64decode (s : str) : option (list Byte.byte) :=
  if existsb (fun c => (128 <=? code c)%N) s then None else a2b_base64 s 0 0%N 0.

End Base64.

Import Base64.

(** ** Saving images (lines 74-126) *)

(** [s.split(',', 1)[1]]: what follows the first comma. *)
Fixpoint after_first_comma (s : str) : result str :=
  match s with
  | [] => Raise IndexError
  | c :: s' => if Ascii.eqb c "," then Ok s' else after_first_comma s'
  end.

(** The truth value of what a save function returns: a path or [None]. *)
Definition saved (saved_path : option str) : bool :=
  match saved_path with
  | Some (_ :: _) => true
  | _ => false
  end.

Section Extractor.
Variable E : env.

Definition save_base64_image (base64_data output_dir : str) (image_index : nat)
  : M (option str) :=
  try_except
    (base64_data <-
       (if startswith (lit "data:image/") base64_data
        then lift (after_first_comma base64_data)
        else ret base64_data) ;;
     image_data <-
       lift (match b64decode base64_data with
             | Some data => Ok data
             | None => Raise BinasciiError
             end) ;;
     let image_filename := lit "image_" ++ str_of_nat image_index ++ lit ".png" in
     let image_path := path_join output_dir image_filename in
     write_file E image_path (Binary image_data) ;;
     print (MsgSavedBase64 image_path) ;;
     ret (Some image_path))
    (fun e => print (MsgSaveBase64Failed e) ;; ret None).

(** The extension chosen from the content-type header (lines 104-112). *)
Definition extension_of (content_type : str) : str :=
  if contains (lit "png") (lower content_type) then lit "png"
  else if contains (lit "jpg") (lower content_type)
          || contains (lit "jpeg") (lower content_type) then lit "jpg"
  else if contains (lit "gif") (lower content_type) then lit "gif"
  else lit "png".

Definition download_image_from_url (url output_dir : str) (image_index : nat)
  : M (option str) :=
  try_except
    (response <- http_get E url ;;
     raise_for_status response ;;
     let ext := extension_of (resp_content_type response) in
     let image_filename :=
       lit "image_url_" ++ str_of_nat image_index ++ lit "." ++ ext in
     let image_path := path_join output_dir image_filename in
     match resp_broken response with
     | Some e => emit (EvWriteFailed image_path) ;; raise e
     | None =>
         write_file E image_path (Binary (resp_body response)) ;;
         print (MsgDownloaded image_path) ;;
         ret (Some image_path)
     end)
    (fun e => print (MsgDownloadFailed e) ;; ret None).

(** ** The content extractor (lines 128-181) *)

(** The two placeholders; the labels are the source's Chinese texts for
    "saved image" and "downloaded image", as UTF-8 bytes. *)
Definition label_saved : str :=
  map ascii_of_nat
    [228; 191; 157; 229; 173; 152; 231; 154; 132; 229; 155; 190; 231; 137; 135].

Definition label_downloaded : str :=
  map ascii_of_nat
    [228; 184; 139; 232; 189; 189; 231; 154; 132; 229; 155; 190; 231; 137; 135].

Definition placeholder_saved (saved_path : str) : str :=
  lit "[" ++ label_saved ++ lit ": " ++ saved_path ++ lit "]".

Definition placeholder_downloaded (saved_path : str) : str :=
  lit "[" ++ label_downloaded ++ lit ": " ++ saved_path ++ lit "]".

(** The loop of lines 144-153; the state is [(text_content, image_index)]. *)
Fixpoint process_base64 (output_dir : str) (matches : list rmatch)
    (st : str * nat) : M (str * nat) :=
  match matches with
  | [] => ret st
  | m :: rest =>
      let (text_content, image_index) := st in
      let full_match := group m 0 in
      let base64_data := group m 1 in
      saved_path <- save_base64_image base64_data output_dir image_index ;;
      match saved_path with
      | Some path =>
          if saved saved_path
          then process_base64 output_dir rest
                 (replace text_content full_match (placeholder_saved path),
                  image_index + 1)
          else process_base64 output_dir rest st
      | None => process_base64 output_dir rest st
      end
  end.

(** The loop of lines 156-164. *)
Fixpoint process_urls (output_dir : str) (matches : list rmatch)
    (st : str * nat) : M (str * nat) :=
  match matches with
  | [] => ret st
  | m :: rest =>
      let (text_content, image_index) := st in
      let url := group m 0 in
      saved_path <- download_image_from_url url output_dir image_index ;;
      match saved_path with
      | Some path =>
          if saved saved_path
          then process_urls output_dir rest
                 (replace text_content url (placeholder_downloaded path),
                  image_index + 1)
          else process_urls output_dir rest st
      | None => process_urls output_dir rest st
      end
  end.

Definition save_mixed_content (content output_dir : str) : M unit :=
  try_except
    (let base64_matches := finditer base64_pattern false content in
     let url_matches := finditer url_pattern true content in
     let text_content := content in
     let image_index := 1 in
     st <- process_base64 output_dir base64_matches (text_content, image_index) ;;
     st <- process_urls output_dir url_matches st ;;
     let text_content := fst st in
     let text_filename := path_join output_dir (lit "content.txt") in
     write_file E text_filename (Text text_content) ;;
     print (MsgSavedText text_filename) ;;
     let original_filename := path_join output_dir (lit "original_content.txt") in
     write_file E original_filename (Text content) ;;
     print (MsgSavedOriginal original_filename))
    (fun e => print (MsgMixedContentFailed e) ;; ret tt).

End Extractor.


(** ** Operations on Python values *)

Fixpoint lookup (key : str) (entries : list (str * value)) : option value :=
  match entries with
  | [] => None
  | (k, v) :: rest => if str_eqb k key then Some v else lookup key rest
  end.

(** The truth value of [v] in an [if]. *)
Definition truthy (v : value) : bool :=
  match v with
  | VNone => false
  | VBool b => b
  | VNum n => negb (n =? 0)%Z
  | VStr s => match s with [] => false | _ => true end
  | VList items => match items with [] => false | _ => true end
  | VDict entries => match entries with [] => false | _ => true end
  | VObj _ => true
  end.

Definition is_str (v : value) (key : str) : bool :=
  match v with
  | VStr s => str_eqb s key
  | _ => false
  end.

(** ['key' in v] *)
Definition py_in (key : str) (v : value) : result bool :=
  match v with
  | VDict entries => Ok (match lookup key entries with Some _ => true | None => false end)
  | VList items => Ok (existsb (fun x => is_str x key) items)
  | VStr s => Ok (contains key s)
  | _ => Raise TypeError
  end.

(** [v['key']] *)
Definition py_getitem (v : value) (key : str) : result value :=
  match v with
  | VDict entries =>
      match lookup key entries with
      | Some x => Ok x
      | None => Raise KeyError
      end
  | _ => Raise TypeError
  end.

(** [v[0]]; the keys of a parsed JSON object are strings, so [0] is never
    one of them.  (The first character of a string is only ever passed to
    [.get], which fails on any string.) *)
Definition py_first (v : value) : result value :=
  match v with
  | VList (x :: _) => Ok x
  | VList [] => Raise IndexError
  | VStr (c :: _) => Ok (VStr [c])
  | VStr [] => Raise IndexError
  | VDict _ => Raise KeyError
  | _ => Raise TypeError
  end.

(** [v.get('key', default)] *)
Definition py_get (v : value) (key : str) (default : value) : result value :=
  match v with
  | VDict entries =>
      match lookup key entries with
      | Some x => Ok x
      | None => Ok default
      end
  | _ => Raise AttributeError
  end.

(** [len(v) > 0] *)
Definition py_nonempty (v : value) : result bool :=
  match v with
  | VList _ | VStr _ | VDict _ => Ok (truthy v)
  | _ => Raise TypeError
  end.

(** [v.name] and [hasattr(v, 'name')] *)
Definition py_getattr (v : value) (name : str) : result value :=
  match v with
  | VObj attrs =>
      match lookup name attrs with
      | Some x => Ok x
      | None => Raise AttributeError
      end
  | _ => Raise AttributeError
  end.

Definition py_hasattr (v : value) (name : str) : bool :=
  match py_getattr v name with
  | Ok _ => true
  | Raise _ => false
  end.

(** [v += s] for a string [s] *)
Definition py_iadd (v : value) (s : str) : result value :=
  match v with
  | VStr a => Ok (VStr (a ++ s))
  | _ => Raise TypeError
  end.

(** The values [for x in v] runs over.  A string yields its characters, a
    dict its keys. *)
Definition py_iter (v : value) : result (list value) :=
  match v with
  | VList items => Ok items
  | VStr s => Ok (map (fun c => VStr [c]) s)
  | VDict entries => Ok (map (fun kv => VStr (fst kv)) entries)
  | _ => Raise TypeError
  end.

Definition rbind {A B} (r : result A) (k : A -> result B) : result B :=
  match r with
  | Ok a => k a
  | Raise e => Raise e
  end.

(** ** The primary transport (lines 194-274) *)

Section Transport.
Variable E : env.

(** [f"{v}"] *)
Definition format_value (v : value) : str :=
  match v with
  | VStr s => s
  | _ => env_repr E v
  end.

(** A path argument that is neither [None] nor empty. *)
Definition is_set (output_dir : option str) : bool :=
  match output_dir with
  | Some (_ :: _) => true
  | _ => false
  end.

(** The body of the [try] of lines 228-234 once [json.loads] has returned
    [chunk]: the content fragment to add to [full_content], if any. *)
Definition chunk_content (chunk : value) (full_content : str) : result str :=
  rbind (py_in (lit "choices") chunk) (fun has_choices =>
  if has_choices then
    rbind (py_getitem chunk (lit "choices")) (fun choices =>
    rbind (py_nonempty choices) (fun nonempty =>
    if nonempty then
      rbind (py_first choices) (fun choice =>
      rbind (py_get choice (lit "delta") (VDict [])) (fun delta =>
      rbind (py_in (lit "content") delta) (fun has_content =>
      if has_content then
        rbind (py_getitem delta (lit "content")) (fun fragment =>
        match fragment with
        | VStr s => Ok (full_content ++ s)
        | _ => Raise TypeError
        end)
      else Ok full_content)))
    else Ok full_content))
  else Ok full_content).

(** The loop of lines 222-236 over the lines of the stream; the state is
    [(full_content, all_chunks)]. *)
Fixpoint read_stream (lines : list str) (full_content : str) (all_chunks : list value)
  : result (str * list value) :=
  match lines with
  | [] => Ok (full_content, all_chunks)
  | line :: rest =>
      match line with
      | [] => read_stream rest full_content all_chunks
      | _ :: _ =>
          if startswith (lit "data: ") line then
            let data_str := skipn 6 line in
            if negb (str_eqb data_str (lit "[DONE]")) then
              match env_json_loads E data_str with
              | Some chunk =>
                  rbind (chunk_content chunk full_content) (fun full_content' =>
                  read_stream rest full_content' (all_chunks ++ [chunk]))
              | None => read_stream rest full_content all_chunks
              end
            else read_stream rest full_content all_chunks
          else read_stream rest full_content all_chunks
      end
  end.

(** The response synthesised at lines 251-259. *)
Definition stream_response (full_content : str) (all_chunks : list value) : value :=
  VDict
    [ (lit "choices",
       VList [ VDict [ (lit "message",
                        VDict [ (lit "role", VStr (lit "assistant"));
                                (lit "content", VStr full_content) ]) ] ]);
      (lit "stream_chunks", VList all_chunks) ].

Definition is_request_exception (e : exn) : bool :=
  match e with
  | RequestException _ => true
  | _ => false
  end.

Definition call_api_raw (base_url model : str) (messages : value)
    (use_stream : bool) (output_dir : option str) : M value :=
  let data :=
    VDict [ (lit "model", VStr model);
            (lit "messages", messages);
            (lit "stream", VBool use_stream) ] in
  let url := base_url ++ lit "/chat/completions" in
  try_except
    (response <- http_post E url data ;;
     raise_for_status response ;;
     json_response <-
       (if use_stream then
          st <- lift (read_stream (resp_lines response) [] []) ;;
          (match resp_broken response with
           | Some e => raise e
           | None => ret tt
           end) ;;
          let full_content := fst st in
          let all_chunks := snd st in
          (match output_dir with
           | Some dir =>
               if is_set output_dir
               then write_file E (path_join dir (lit "stream_chunks.json"))
                      (JsonDump (VList all_chunks))
               else ret tt
           | None => ret tt
           end) ;;
          ret (stream_response full_content all_chunks)
        else lift (of_sum (resp_json response))) ;;
     (match output_dir with
      | Some dir =>
          if is_set output_dir
          then write_file E (path_join dir (lit "raw_api_response.json"))
                 (JsonDump json_response)
          else ret tt
      | None => ret tt
      end) ;;
     ret json_response)
    (fun e =>
       if is_request_exception e
       then print (MsgHttpFailed e) ;; raise e
       else raise e).

End Transport.

(** ** From the response to the content string (lines 435-489) *)

Section Normalise.
Variable E : env.

Definition newline : str := ["010"%char].

Definition data_uri_prefix : str := lit "data:image/png;base64,".

(** Line 444. *)
Definition possible_image_fields : list str :=
  [lit "images"; lit "image"; lit "attachments"; lit "media"; lit "files"; lit "data"].

(** Lines 453-458 and 469-472: a string taken as base64 data or as a data
    URI. *)
Definition append_image_string (response_content : value) (img : str) : result value :=
  if negb (startswith (lit "data:") img)
  then py_iadd response_content (newline ++ data_uri_prefix ++ img)
  else py_iadd response_content (newline ++ img).

(** Lines 459-466: an object with a [data], [url] or [base64] entry. *)
Definition append_image_dict (response_content : value) (img : list (str * value))
  : result value :=
  match lookup (lit "data") img with
  | Some d => py_iadd response_content (newline ++ data_uri_prefix ++ format_value E d)
  | None =>
      match lookup (lit "url") img with
      | Some u => py_iadd response_content (newline ++ format_value E u)
      | None =>
          match lookup (lit "base64") img with
          | Some b =>
              py_iadd response_content (newline ++ data_uri_prefix ++ format_value E b)
          | None => Ok response_content
          end
      end
  end.

(** Lines 452-466: one element of a list-valued field. *)
Definition append_image_item (response_content : value) (img : value) : result value :=
  match img with
  | VStr s => append_image_string response_content s
  | VDict entries => append_image_dict response_content entries
  | _ => Ok response_content
  end.

Fixpoint append_image_items (response_content : value) (imgs : list value)
  : result value :=
  match imgs with
  | [] => Ok response_content
  | img :: rest =>
      rbind (append_image_item response_content img) (fun response_content' =>
      append_image_items response_content' rest)
  end.

(** Lines 447-472: one field of the allow-list. *)
Definition append_field (message_dict : value) (response_content : value)
    (field_name : str) : result value :=
  rbind (py_in field_name message_dict) (fun present =>
  if present then
    rbind (py_getitem message_dict field_name) (fun images_data =>
    if truthy images_data then
      match images_data with
      | VList imgs => append_image_items response_content imgs
      | VStr s => append_image_string response_content s
      | _ => Ok response_content
      end
    else Ok response_content)
  else Ok response_content).

Fixpoint append_fields (message_dict : value) (response_content : value)
    (fields : list str) : result value :=
  match fields with
  | [] => Ok response_content
  | field_name :: rest =>
      rbind (append_field message_dict response_content field_name)
        (fun response_content' => append_fields message_dict response_content' rest)
  end.

(** Lines 436-472: the content of a raw JSON response. *)
Definition raw_response_content (completion : value) : result value :=
  rbind (py_getitem completion (lit "choices")) (fun choices =>
  rbind (py_first choices) (fun choice =>
  rbind (py_getitem choice (lit "message")) (fun message_dict =>
  rbind (py_get message_dict (lit "content") (VStr [])) (fun response_content =>
  append_fields message_dict response_content possible_image_fields)))).

(** Lines 485-489: one element of [message.images] on the client path. *)
Definition append_client_image (response_content : value) (img : value) : result value :=
  match img with
  | VStr s => py_iadd response_content (newline ++ data_uri_prefix ++ s)
  | _ =>
      match py_getattr img (lit "data") with
      | Ok d => py_iadd response_content (newline ++ data_uri_prefix ++ format_value E d)
      | Raise _ => Ok response_content
      end
  end.

Fixpoint append_client_images (response_content : value) (imgs : list value)
  : result value :=
  match imgs with
  | [] => Ok response_content
  | img :: rest =>
      rbind (append_client_image response_content img) (fun response_content' =>
      append_client_images response_content' rest)
  end.

(** Lines 474-489: the content of a response of the SDK client. *)
Definition client_response_content (completion : value) : result value :=
  rbind (py_getattr completion (lit "choices")) (fun choices =>
  rbind (py_first choices) (fun choice =>
  rbind (py_getattr choice (lit "message")) (fun message =>
  rbind (py_getattr message (lit "content")) (fun response_content =>
  match py_getattr message (lit "images") with
  | Ok images =>
      if truthy images then
        rbind (py_nonempty images) (fun _ =>
        rbind (py_iter images) (fun imgs =>
        append_client_images response_content imgs))
      else Ok response_content
  | Raise _ => Ok response_content
  end)))).

End Normalise.

(** ** The pipeline driver (lines 324-496) *)

Record config := {
  BASE_URL : str;
  MODEL_NAME : str;
  IMAGE_PATHS : str + list str;     (* one path or a list of paths *)
  PROMPT_TEXT : str;
  MAX_RETRIES : Z;
  RETRY_DELAY : Z;
  USE_STREAM : bool
}.

(** How the script ends when no exception escapes. *)
Inductive status :=
| Completed
| Exited (code : Z).                (* exit(code) *)

Section Driver.
Variable E : env.
Variable cfg : config.

(** Lines 57-65. *)
Definition prepare_image_data (image_path : str) : M str :=
  try_except
    (data <- read_file E image_path ;;
     ret (data_uri_prefix ++ b64encode data))
    (fun e => print (MsgPrepareFailed image_path e) ;; raise e).

(** Lines 67-72. *)
Definition create_output_directory : M str :=
  fun w =>
    let timestamp := env_timestamp E w in
    let output_dir := lit "output_" ++ timestamp in
    (makedirs E output_dir ;; ret output_dir) w.

(** Lines 342-347: the request part of one encoded image. *)
Definition image_part (image_data : str) : value :=
  VDict [ (lit "type", VStr (lit "image_url"));
          (lit "image_url", VDict [ (lit "url", VStr image_data) ]) ].

(** Lines 337-350. *)
Fixpoint prepare_images (image_paths : list str) (image_contents : list value)
  : M (list value) :=
  match image_paths with
  | [] => ret image_contents
  | image_path :: rest =>
      image_contents' <-
        try_except
          (image_data <- prepare_image_data image_path ;;
           ret (image_contents ++ [image_part image_data]))
          (fun e => print (MsgImageSkipped image_path e) ;; ret image_contents) ;;
      prepare_images rest image_contents'
  end.

(** Lines 357-365. *)
Definition build_messages (image_contents : list value) : value :=
  let content_list :=
    VDict [ (lit "type", VStr (lit "text")); (lit "text", VStr (PROMPT_TEXT cfg)) ]
    :: image_contents in
  VList [ VDict [ (lit "role", VStr (lit "user")); (lit "content", VList content_list) ] ].

(** Lines 375-401: the response and whether it is the raw one. *)
Definition acquire (messages : value) (output_directory : str) : M (value * bool) :=
  try_except
    (raw_response <-
       call_api_raw E (BASE_URL cfg) (MODEL_NAME cfg) messages (USE_STREAM cfg)
         (Some output_directory) ;;
     ret (raw_response, true))
    (fun e =>
       print (MsgFallingBack e) ;;
       completion <-
         call_openai_with_retry E (MODEL_NAME cfg) messages
           (MAX_RETRIES cfg) (RETRY_DELAY cfg) ;;
       ret (completion, false)).

(** Lines 491-495.  Printing the content takes its length, and its first
    500 items plus a string when it is longer; a content that is no string
    then makes [re.finditer] fail inside [save_mixed_content]. *)
Definition report_and_save (response_content : value) (output_directory : str)
  : M unit :=
  match response_content with
  | VStr s => save_mixed_content E s output_directory
  | VList items =>
      if Nat.ltb 500 (List.length items) then raise TypeError
      else print (MsgMixedContentFailed TypeError)
  | VDict entries =>
      if Nat.ltb 500 (List.length entries) then raise TypeError
      else print (MsgMixedContentFailed TypeError)
  | _ => raise TypeError
  end.

Definition main : M status :=
  let image_paths :=
    match IMAGE_PATHS cfg with
    | inl path => [path]
    | inr paths => paths
    end in
  image_contents <- prepare_images image_paths [] ;;
  match image_contents with
  | [] => print MsgNoImages ;; ret (Exited 1)
  | _ :: _ =>
      let messages := build_messages image_contents in
      output_directory <- create_output_directory ;;
      acquired <- acquire messages output_directory ;;
      let (completion, use_raw_response) := acquired in
      response_content <-
        lift (if use_raw_response
              then raw_response_content E completion
              else client_response_content E completion) ;;
      report_and_save response_content output_directory ;;
      ret Completed
  end.

End Driver.

(** ** Specification vocabulary for the extractor *)

(** [image_<n>.png] and [image_url_<n>.<ext>] in the output directory. *)
Definition base64_image_path (output_dir : str) (n : nat) : str :=
  path_join output_dir (lit "image_" ++ str_of_nat n ++ lit ".png").

Definition url_image_path (output_dir : str) (n : nat) (ext : str) : str :=
  path_join output_dir (lit "image_url_" ++ str_of_nat n ++ lit "." ++ ext).

(** The pattern matches somewhere in [s]. *)
Definition has_match (ignorecase : bool) (r : regex) (s : str) : Prop :=
  exists pre rest m, s = pre ++ rest /\ match_at ignorecase r rest = Some m.

Definition is_binary (pf : str * file) : bool :=
  match snd pf with
  | Binary _ => true
  | _ => false
  end.

(** The image files of a run: the binary files among those written. *)
Definition image_files (w : world) : list (str * file) :=
  filter is_binary (files_written w).

(** The URLs fetched, in order. *)
Fixpoint fetched (w : world) : list str :=
  match w with
  | [] => []
  | EvGet url :: w' => url :: fetched w'
  | _ :: w' => fetched w'
  end.

(** The reports of the per-image helpers, in order, as (kind, success):
    kind [true] for a base64 image (saved, line 91, or failed, line 94),
    kind [false] for a URL image (downloaded, line 122, or failed, line
    125). *)
Fixpoint image_reports (w : world) : list (bool * bool) :=
  match w with
  | [] => []
  | EvPrint (MsgSavedBase64 _) :: w' => (true, true) :: image_reports w'
  | EvPrint (MsgSaveBase64Failed _) :: w' => (true, false) :: image_reports w'
  | EvPrint (MsgDownloaded _) :: w' => (false, true) :: image_reports w'
  | EvPrint (MsgDownloadFailed _) :: w' => (false, false) :: image_reports w'
  | _ :: w' => image_reports w'
  end.

(** The paths of [k] consecutive base64 images numbered from [n]. *)
Definition base64_paths (output_dir : str) (n k : nat) : list str :=
  map (base64_image_path output_dir) (seq n k).

(** The paths of the URL images numbered from [n], one per extension. *)
Fixpoint url_paths (output_dir : str) (n : nat) (exts : list str) : list str :=
  match exts with
  | [] => []
  | ext :: rest => url_image_path output_dir n ext :: url_paths output_dir (S n) rest
  end.

(** The extensions [download_image_from_url] chooses from. *)
Definition extensions : list str := [lit "png"; lit "jpg"; lit "gif"].

(** The possible runs of [save_base64_image]. *)
Inductive base64_run (dir : str) (n : nat) : option str -> list event -> Prop :=
| B64Saved (data : list Byte.byte) :
    base64_run dir n (Some (base64_image_path dir n))
      [EvWrote (base64_image_path dir n) (Binary data);
       EvPrint (MsgSavedBase64 (base64_image_path dir n))]
| B64Rejected (e : exn) :
    base64_run dir n None [EvPrint (MsgSaveBase64Failed e)]
| B64WriteFailed (e : exn) :
    base64_run dir n None
      [EvWriteFailed (base64_image_path dir n); EvPrint (MsgSaveBase64Failed e)].

(** The possible runs of [download_image_from_url]. *)
Inductive url_run (dir url : str) (n : nat) : option str -> list event -> Prop :=
| UrlDownloaded (ext : str) (body : list Byte.byte) :
    In ext extensions ->
    url_run dir url n (Some (url_image_path dir n ext))
      [EvGet url;
       EvWrote (url_image_path dir n ext) (Binary body);
       EvPrint (MsgDownloaded (url_image_path dir n ext))]
| UrlRefused (e : exn) :
    url_run dir url n None [EvGet url; EvPrint (MsgDownloadFailed e)]
| UrlWriteFailed (ext : str) (e : exn) :
    url_run dir url n None
      [EvGet url; EvWriteFailed (url_image_path dir n ext);
       EvPrint (MsgDownloadFailed e)].

(** The possible ends of [save_mixed_content]: the writes of lines 166-178. *)
Inductive text_run (dir text content : str) : list event -> Prop :=
| TextSaved :
    text_run dir text content
      [EvWrote (path_join dir (lit "content.txt")) (Text text);
       EvPrint (MsgSavedText (path_join dir (lit "content.txt")));
       EvWrote (path_join dir (lit "original_content.txt")) (Text content);
       EvPrint (MsgSavedOriginal (path_join dir (lit "original_content.txt")))]
| TextFailed (e : exn) :
    text_run dir text content
      [EvWriteFailed (path_join dir (lit "content.txt"));
       EvPrint (MsgMixedContentFailed e)]
| OriginalFailed (e : exn) :
    text_run dir text content
      [EvWrote (path_join dir (lit "content.txt")) (Text text);
       EvPrint (MsgSavedText (path_join dir (lit "content.txt")));
       EvWriteFailed (path_join dir (lit "original_content.txt"));
       EvPrint (MsgMixedContentFailed e)].

(** ** Sample environments *)

Module Sample.

Definition response (status : N) (content_type : str) (body : list Byte.byte)
    (lines : list str) : http_response :=
  {| resp_status := status;
     resp_content_type := content_type;
     resp_body := body;
     resp_lines := lines;
     resp_broken := None;
     resp_json := inl (RequestException (lit "Expecting value")) |}.

(** A host where one image file exists, every write succeeds, every URL
    serves a JPEG, the chat endpoint streams nothing parseable and the SDK
    client always reports an exhausted quota. *)
Definition host : env :=
  {| env_read := fun _ path =>
       if str_eqb path (lit "cat.png")
       then inr [Byte.x89; Byte.x50; Byte.x4e; Byte.x47]
       else inl (OSError (lit "No such file or directory"));
     env_mkdir := fun _ _ => None;
     env_write := fun _ _ _ => None;
     env_get := fun _ _ => inr (response 200 (lit "image/jpeg") [Byte.xff; Byte.xd8] []);
     env_post := fun _ _ _ => inr (response 200 (lit "text/event-stream") []
                                     [lit "data: {oops"; lit "data: [DONE]"]);
     env_create := fun _ _ _ => inl (SdkError (lit "Error: quota exceeded for this month"));
     env_timestamp := fun _ => lit "20250828_093000";
     env_json_loads := fun _ => None;
     env_repr := fun _ => lit "?" |}.

(** The same host with other answers from the disk or the SDK client. *)
Definition with_write (E : env) (write : world -> str -> file -> option exn) : env :=
  {| env_read := env_read E; env_mkdir := env_mkdir E; env_write := write;
     env_get := env_get E; env_post := env_post E; env_create := env_create E;
     env_timestamp := env_timestamp E; env_json_loads := env_json_loads E;
     env_repr := env_repr E |}.

Definition with_create (E : env) (create : world -> str -> value -> exn + value) : env :=
  {| env_read := env_read E; env_mkdir := env_mkdir E; env_write := env_write E;
     env_get := env_get E; env_post := env_post E; env_create := create;
     env_timestamp := env_timestamp E; env_json_loads := env_json_loads E;
     env_repr := env_repr E |}.

Definition with_post (E : env) (post : world -> str -> value -> exn + http_response) : env :=
  {| env_read := env_read E; env_mkdir := env_mkdir E; env_write := env_write E;
     env_get := env_get E; env_post := post; env_create := env_create E;
     env_timestamp := env_timestamp E; env_json_loads := env_json_loads E;
     env_repr := env_repr E |}.

(** A full disk: every write raises. *)
Definition disk_full : env :=
  with_write host (fun _ _ _ => Some (OSError (lit "No space left on device"))).

(** A client whose calls time out. *)
Definition slow_client : env :=
  with_create host (fun _ _ _ => inl (SdkError (lit "Request timed out after 120s"))).

End Sample.

(** The suffixes of a string, longest first, and a decision procedure for
    [has_match]. *)
Fixpoint suffixes (s : str) : list str :=
  s :: match s with
       | [] => []
       | _ :: s' => suffixes s'
       end.

Definition matches_somewhere (ignorecase : bool) (r : regex) (s : str) : bool :=
  existsb (fun t => match match_at ignorecase r t with Some _ => true | None => false end)
    (suffixes s).

(** The synthetic response of the numbering scenario: a URL between two
    base64 spans. *)
Definition scenario_content : str :=
  lit "A data:image/png;base64,QUJD B http://h/x.png C data:image/gif;base64,REVG D".

(** ** Specification vocabulary for the driver *)

(** The image files opened for reading, in order. *)
Fixpoint reads (w : world) : list str :=
  match w with
  | [] => []
  | EvRead path :: w' => path :: reads w'
  | _ :: w' => reads w'
  end.

(** The request parts of the images of [image_paths] that a disk with the
    contents [disk] lets the script read. *)
Definition encoded_images (disk : str -> exn + list Byte.byte) (image_paths : list str)
  : list value :=
  flat_map
    (fun path =>
       match disk path with
       | inr data => [image_part (data_uri_prefix ++ b64encode data)]
       | inl _ => []
       end)
    image_paths.

Definition configured_paths (cfg : config) : list str :=
  match IMAGE_PATHS cfg with
  | inl path => [path]
  | inr paths => paths
  end.

(** ** Specification vocabulary for the transports *)

Definition is_post (ev : event) : bool :=
  match ev with
  | EvPost _ _ => true
  | _ => false
  end.

(** The request body of [call_api_raw] (lines 201-205). *)
Definition request_data (model : str) (messages : value) (use_stream : bool) : value :=
  VDict [ (lit "model", VStr model);
          (lit "messages", messages);
          (lit "stream", VBool use_stream) ].

Definition endpoint (base_url : str) : str := base_url ++ lit "/chat/completions".

(** What [call_api_raw] leaves in the trace when it fails with [e] after
    the POST: the handler of line 272 prints only for the exceptions of
    [requests]. *)
Definition failed_post (url : str) (data : value) (e : exn) : list event :=
  EvPost url data :: (if is_request_exception e then [EvPrint (MsgHttpFailed e)] else []).

(** An HTTP status for which [raise_for_status] raises. *)
Definition is_error_status (status : N) : bool :=
  ((400 <=? status) && (status <? 600))%N.

(** A computation that posts no request, whatever the world. *)
Definition no_post {A} (m : M A) : Prop :=
  forall w, exists res new, m w = (res, w ++ new) /\ filter is_post new = [].

(** A raw JSON response and an SDK response with one choice whose message
    has the given entries, respectively attributes. *)
Definition raw_completion (message : list (str * value)) : value :=
  VDict [ (lit "choices", VList [ VDict [ (lit "message", VDict message) ] ]) ].

Definition client_completion (message : list (str * value)) : value :=
  VObj [ (lit "choices", VList [ VObj [ (lit "message", VObj message) ] ]) ].

(** ** Specification vocabulary for base64 *)

(** The numbers below [k], for checks by exhaustion. *)
Definition numbers_below (k : nat) : list N := map N.of_nat (seq 0 k).

(** The four digits of a group of three bytes, as numbers. *)
Definition sextet0 (a : N) : N := N.shiftr a 2.
Definition sextet1 (a b : N) : N := N.lor (N.shiftl (N.land a 3) 4) (N.shiftr b 4).
Definition sextet2 (b c : N) : N := N.lor (N.shiftl (N.land b 15) 2) (N.shiftr c 6).
Definition sextet3 (c : N) : N := N.land c 63.

(** What is checked of each digit of the alphabet. *)
Definition digit_ok (n : N) : bool :=
  match value_of (digit n) with
  | Some m => N.eqb m n
  | None => false
  end
  && negb (Ascii.eqb (digit n) "=")
  && is_base64_char (digit n).

(** ** Specification vocabulary for repeated spans *)

(** No square bracket, respectively no colon, in a string. *)
Definition bracket_free (s : str) : bool :=
  forallb (fun c => negb (Ascii.eqb c "[" || Ascii.eqb c "]")) s.

Definition colon_free (s : str) : bool :=
  forallb (fun c => negb (Ascii.eqb c ":")) s.

(** Some colon of [s] is followed by a character other than a space, as
    in a URL ([://]) and in a data URI ([data:image]). *)
Fixpoint has_bound_colon (s : str) : bool :=
  match s with
  | c :: s' =>
      match s' with
      | d :: _ => Ascii.eqb c ":" && negb (Ascii.eqb d " ")
      | [] => false
      end
      || has_bound_colon s'
  | [] => false
  end.

(** What is inside the brackets of a placeholder. *)
Definition inside_saved (saved_path : str) : str :=
  label_saved ++ lit ": " ++ saved_path.

Definition inside_downloaded (saved_path : str) : str :=
  label_downloaded ++ lit ": " ++ saved_path.



(** A response in which a span occurs twice and a third time behind the
    text [data:image/], the span itself carrying the placeholder of the
    first image. *)
Definition nested_span : str :=
  lit "data:image/" ++ placeholder_saved (lit "out/image_1.png") ++ lit ";base64,QQ==".

Definition nested_content : str :=
  nested_span ++ lit " " ++ nested_span ++ lit " data:image/" ++ nested_span
  ++ lit ";base64,QQ==".

(** The sample inputs of the worked examples. *)
Definition sample_bytes : list Byte.byte := [Byte.x41; Byte.x42; Byte.x43].

Definition sample_span_match : rmatch :=
  {| group0 := lit "data:image/png;base64,QUJD"; groups := [lit "QUJD"] |}.

Definition sample_config : config :=
  {| BASE_URL := lit "https://api.example/v1";
     MODEL_NAME := lit "gemini";
     IMAGE_PATHS := inr [lit "missing-1.png"; lit "missing-2.png"];
     PROMPT_TEXT := lit "describe this image";
     MAX_RETRIES := 3;
     RETRY_DELAY := 0;
     USE_STREAM := true |}.

(** ** Specification vocabulary for the bounds of the retry loop *)

(** The number of calls of the SDK client in a trace. *)
Definition calls (w : world) : nat := List.length (filter is_create w).

(** The events the retry loop may leave: calls of the client with the
    given request, sleeps of the configured delay (which is then positive)
    and reports. *)
Definition retry_event (model : str) (messages : value) (retry_delay : Z)
    (ev : event) : Prop :=
  match ev with
  | EvCreate m ms => m = model /\ ms = messages
  | EvSleep d => d = retry_delay /\ (0 < d)%Z
  | EvPrint _ => True
  | _ => False
  end.

(** Where the outcome of the retry loop comes from. *)
Definition retry_outcome (E : env) (model : str) (messages : value)
    (max_retries : Z) (res : result value) (new : list event) : Prop :=
  match res with
  | Ok v =>
      (exists w', env_create E w' model messages = inr v)
      /\ (exists earlier, new = earlier ++ [EvCreate model messages])
  | Raise e =>
      ((max_retries <= 0)%Z /\ e = RetriesExhausted max_retries /\ new = [])
      \/ ((exists w', env_create E w' model messages = inl e)
          /\ (classify (str_of_exn e) = NonRetryable
              \/ Z.of_nat (calls new) = max_retries))
  end.

(** ** Specification vocabulary for the phases of the pipeline *)

Definition is_print (ev : event) : bool :=
  match ev with EvPrint _ => true | _ => false end.

Definition is_read (ev : event) : bool :=
  match ev with EvRead _ => true | _ => false end.

Definition is_write (ev : event) : bool :=
  match ev with EvWrote _ _ | EvWriteFailed _ => true | _ => false end.

Definition is_get (ev : event) : bool :=
  match ev with EvGet _ => true | _ => false end.

(** What each phase of the script may do besides printing: read the
    images; post the request and write the debug files; call the SDK client
    and sleep; download images and write the results. *)
Definition preparing (ev : event) : bool := is_read ev || is_print ev.
Definition posting (ev : event) : bool := is_post ev || is_write ev || is_print ev.
Definition falling_back (ev : event) : bool := is_create ev || is_sleep ev || is_print ev.
Definition saving (ev : event) : bool := is_get ev || is_write ev || is_print ev.

(** A computation all of whose events are of the given class, whatever the
    world. *)
Definition only {A} (ok : event -> bool) (m : M A) : Prop :=
  forall w, exists res new, m w = (res, w ++ new) /\ forallb ok new = true.

(** The shape of a whole run that left [prep] while preparing the images
    and [rest] afterwards, and ended with [res]. *)
Definition pipeline_order (E : env) (cfg : config) (w : world)
    (res : result status) (prep rest : list event) : Prop :=
  forallb preparing prep = true
  /\ let dir := lit "output_" ++ env_timestamp E (w ++ prep) in
     (res = Ok (Exited 1) /\ rest = [EvPrint MsgNoImages])
     \/ (exists e, res = Raise e /\ rest = [EvMkdir dir]
                   /\ env_mkdir E (w ++ prep) dir = Some e)
     \/ ((forall code, res <> Ok (Exited code))
         /\ exists messages primary fallback save,
              rest = EvMkdir dir :: primary ++ fallback ++ save
              /\ forallb posting primary = true
              /\ filter is_post primary
                 = [EvPost (endpoint (BASE_URL cfg))
                      (request_data (MODEL_NAME cfg) messages (USE_STREAM cfg))]
              /\ forallb falling_back fallback = true
              /\ (Z.of_nat (calls fallback) <= Z.max 0 (MAX_RETRIES cfg))%Z
              /\ filter is_create fallback
                 = repeat (EvCreate (MODEL_NAME cfg) messages) (calls fallback)
              /\ forallb saving save = true).

(** ** Specification vocabulary for the stream *)

(** A line that the loop of lines 222-236 passes over: an empty line, a
    line that does not start with [data: ], the [DONE] marker, and a
    payload that is no JSON. *)
Definition ignored_line (E : env) (line : str) : bool :=
  match line with
  | [] => true
  | _ :: _ =>
      if startswith (lit "data: ") line then
        str_eqb (skipn 6 line) (lit "[DONE]")
        || match env_json_loads E (skipn 6 line) with
           | Some _ => false
           | None => true
           end
      else true
  end.

(** The text that a parsed chunk adds to the content: the string under
    [content] in the [delta] of its first choice, and nothing when the
    chunk has no choice, or its first choice no [delta], or that no
    [content]. *)
Inductive carries : value -> str -> Prop :=
| CarriesText (entries choice : list (str * value)) (others : list value)
    (delta : list (str * value)) (s : str) :
    lookup (lit "choices") entries = Some (VList (VDict choice :: others)) ->
    lookup (lit "delta") choice = Some (VDict delta) ->
    lookup (lit "content") delta = Some (VStr s) ->
    carries (VDict entries) s
| CarriesNoChoices (entries : list (str * value)) :
    lookup (lit "choices") entries = None ->
    carries (VDict entries) []
| CarriesEmptyChoices (entries : list (str * value)) :
    lookup (lit "choices") entries = Some (VList []) ->
    carries (VDict entries) []
| CarriesNoDelta (entries choice : list (str * value)) (others : list value) :
    lookup (lit "choices") entries = Some (VList (VDict choice :: others)) ->
    lookup (lit "delta") choice = None ->
    carries (VDict entries) []
| CarriesNoContent (entries choice : list (str * value)) (others : list value)
    (delta : list (str * value)) :
    lookup (lit "choices") entries = Some (VList (VDict choice :: others)) ->
    lookup (lit "delta") choice = Some (VDict delta) ->
    lookup (lit "content") delta = None ->
    carries (VDict entries) [].

(** A chunk whose first choice has a [delta] with a [content] that is no
    string (a JSON null, say). *)
Definition bad_delta (chunk : value) : Prop :=
  exists entries choice others delta v,
    chunk = VDict entries
    /\ lookup (lit "choices") entries = Some (VList (VDict choice :: others))
    /\ lookup (lit "delta") choice = Some (VDict delta)
    /\ lookup (lit "content") delta = Some v
    /\ (forall s, v <> VStr s).

(** One part of a well-formed stream: the payload of a [data: ] line, the
    chunk it parses to and the text the chunk carries. *)
Record part := {
  part_payload : str;
  part_chunk : value;
  part_text : str
}.

Definition part_line (p : part) : str := lit "data: " ++ part_payload p.

Definition well_formed (E : env) (p : part) : Prop :=
  part_payload p <> lit "[DONE]"
  /\ env_json_loads E (part_payload p) = Some (part_chunk p)
  /\ carries (part_chunk p) (part_text p).

(** A server that streams the given lines, with a [json.loads] that knows
    three payloads: two chunks with a text and one whose content is null. *)
Module Stream.

Definition quote : str := ["034"%char].

(** The JSON text of a chunk whose delta has the given content. *)
Definition chunk_text (fragment : str) : str :=
  lit "{" ++ quote ++ lit "choices" ++ quote ++ lit ":[{"
  ++ quote ++ lit "delta" ++ quote ++ lit ":{"
  ++ quote ++ lit "content" ++ quote ++ lit ":" ++ fragment ++ lit "}}]}".

Definition chunk_of (content : value) : value :=
  VDict [ (lit "choices",
           VList [ VDict [ (lit "delta", VDict [ (lit "content", content) ]) ] ]) ].

Definition hel : str := chunk_text (quote ++ lit "Hel" ++ quote).
Definition lo : str := chunk_text (quote ++ lit "lo" ++ quote).
Definition null : str := chunk_text (lit "null").

Definition loads (payload : str) : option value :=
  if str_eqb payload hel then Some (chunk_of (VStr (lit "Hel")))
  else if str_eqb payload lo then Some (chunk_of (VStr (lit "lo")))
  else if str_eqb payload null then Some (chunk_of VNone)
  else None.

Definition server (lines : list str) : env :=
  {| env_read := env_read Sample.host;
     env_mkdir := env_mkdir Sample.host;
     env_write := env_write Sample.host;
     env_get := env_get Sample.host;
     env_post := fun _ _ _ =>
       inr (Sample.response 200 (lit "text/event-stream") [] lines);
     env_create := env_create Sample.host;
     env_timestamp := env_timestamp Sample.host;
     env_json_loads := loads;
     env_repr := env_repr Sample.host |}.

Definition parts : list part :=
  [ {| part_payload := hel; part_chunk := chunk_of (VStr (lit "Hel"));
       part_text := lit "Hel" |};
    {| part_payload := lo; part_chunk := chunk_of (VStr (lit "lo"));
       part_text := lit "lo" |} ].

End Stream.

(** ** Specification vocabulary for the fallback *)

(** What [acquire] does once the primary transport has failed with [e],
    leaving the world [w1] (lines 392-401). *)
Definition fallback_after (E : env) (cfg : config) (messages : value) (e : exn)
    (w1 : world) : result (value * bool) * world :=
  let (res, w2) :=
    call_openai_with_retry E (MODEL_NAME cfg) messages (MAX_RETRIES cfg) (RETRY_DELAY cfg)
      (w1 ++ [EvPrint (MsgFallingBack e)]) in
  (match res with
   | Ok completion => Ok (completion, false)
   | Raise e' => Raise e'
   end, w2).

(** A stream of three chunks, the second with a null content. *)
Definition sample_null_stream : list str :=
  [lit "data: " ++ Stream.hel; lit "data: " ++ Stream.null; lit "data: " ++ Stream.lo].

(** A stream of two chunks with a comment, an empty line and the end
    marker. *)
Definition sample_stream : list str :=
  [lit ": ping"; lit "data: " ++ Stream.hel; []; lit "data: " ++ Stream.lo;
   lit "data: [DONE]"].

(** A server that answers without streaming: a message whose content is
    null and whose image is in the [images] field. *)
Definition sample_null_message : list (str * value) :=
  [ (lit "role", VStr (lit "assistant"));
    (lit "content", VNone);
    (lit "images", VList [VStr (lit "QUJD")]) ].

Definition sample_json_server : env :=
  Sample.with_post Sample.host
    (fun _ _ _ =>
       inr {| resp_status := 200;
              resp_content_type := lit "application/json";
              resp_body := [];
              resp_lines := [];
              resp_broken := None;
              resp_json := inr (raw_completion sample_null_message) |}).

Definition sample_plain_config : config :=
  {| BASE_URL := lit "https://api.example/v1";
     MODEL_NAME := lit "gemini";
     IMAGE_PATHS := inl (lit "cat.png");
     PROMPT_TEXT := lit "describe this image";
     MAX_RETRIES := 3;
     RETRY_DELAY := 0;
     USE_STREAM := false |}.

(** ** Specification vocabulary for the matches *)

(** The strings a pattern denotes, with the groups it captures: [denotes
    ignorecase r m gs] says that [r] matches the whole of [m] and captures
    [gs], in the order in which the groups close. *)
Inductive denotes (ignorecase : bool) : regex -> str -> list str -> Prop :=
| DChr (c x : ascii) :
    chr_match ignorecase c x = true ->
    denotes ignorecase (Chr c) [x] []
| DStr (p m : str) :
    Forall2 (fun c x => chr_match ignorecase c x = true) p m ->
    denotes ignorecase (Str p) m []
| DSeq (r1 r2 : regex) (m1 m2 : str) (g1 g2 : list str) :
    denotes ignorecase r1 m1 g1 ->
    denotes ignorecase r2 m2 g2 ->
    denotes ignorecase (Seq r1 r2) (m1 ++ m2) (g1 ++ g2)
| DAltL (r1 r2 : regex) (m : str) (g : list str) :
    denotes ignorecase r1 m g ->
    denotes ignorecase (Alt r1 r2) m g
| DAltR (r1 r2 : regex) (m : str) (g : list str) :
    denotes ignorecase r2 m g ->
    denotes ignorecase (Alt r1 r2) m g
| DOptSome (r : regex) (m : str) (g : list str) :
    denotes ignorecase r m g ->
    denotes ignorecase (Opt r) m g
| DOptNone (r : regex) :
    denotes ignorecase (Opt r) [] []
| DPlus (class : ascii -> bool) (m : str) :
    m <> [] ->
    forallb class m = true ->
    denotes ignorecase (Plus class) m []
| DGroup (r : regex) (m : str) (g : list str) :
    denotes ignorecase r m g ->
    denotes ignorecase (Group r) m (g ++ [m]).

(** The same character up to the case of the letters A-Z. *)
Definition same_letter (c x : ascii) : bool := Ascii.eqb (lower_char c) (lower_char x).


(** A content with one data URI, and its match. *)
Definition sample_uri_content : str := lit "see data:image/png;base64,QUJD.".

Definition sample_uri_match : rmatch :=
  {| group0 := lit "data:image/png;base64,QUJD"; groups := [lit "QUJD"] |}.

(** ** Specification vocabulary for payloads without padding *)

(** A character of the base64 alphabet proper: a digit, not the padding. *)
Definition is_digit (c : ascii) : bool :=
  match value_of c with
  | Some _ => true
  | None => false
  end.

(* ===================================================================== *)
(** * Part II: properties                                                 *)
(* ===================================================================== *)

Local Open Scope monad_scope.
Unset Implicit Arguments.

(** ** Substrings *)

Lemma startswith_iff (p s : str) :
  startswith p s = true <-> exists post, s = p ++ post.
Proof.
  revert s. induction p as [|a p IH]; intros s; simpl.
  - split; [intros _; exists s; reflexivity | reflexivity].
  - destruct s as [|b s]; simpl.
    + split; [discriminate | intros [post H]; discriminate].
    + rewrite andb_true_iff, Ascii.eqb_eq, IH. split.
      * intros [-> [post ->]]. exists post. reflexivity.
      * intros [post H]. injection H as -> ->. split; [reflexivity | exists post; reflexivity].
Qed.

Lemma contains_iff (p s : str) :
  contains p s = true <-> exists pre post, s = pre ++ p ++ post.
Proof.
  induction s as [|c s IH].
  - simpl. rewrite orb_false_r, startswith_iff. split.
    + intros [post H]. exists [], post. exact H.
    + intros [pre [post H]]. destruct pre; [exists post; exact H | discriminate].
  - cbn [contains]. rewrite orb_true_iff, startswith_iff, IH. split.
    + intros [[post H] | [pre [post H]]].
      * exists [], post. exact H.
      * exists (c :: pre), post. rewrite H. reflexivity.
    + intros [pre [post H]]. destruct pre as [|c' pre].
      * left. exists post. exact H.
      * right. injection H as _ H. exists pre, post. exact H.
Qed.

Lemma lower_app (a b : str) : lower (a ++ b) = lower a ++ lower b.
Proof. apply map_app. Qed.

(** The substring test on the lowered message is containment up to case. *)
Lemma contains_lower_iff (keyword s : str) :
  lower keyword = keyword ->
  contains keyword (lower s) = true <-> ci_contains keyword s.
Proof.
  intros Hk. rewrite contains_iff. unfold ci_contains. split.
  - intros [pre [post H]]. unfold lower in H.
    apply map_eq_app in H. destruct H as [pre' [rest [-> [Hpre H]]]].
    apply map_eq_app in H. destruct H as [mid [post' [-> [Hmid Hpost]]]].
    exists pre', mid, post'. split; [reflexivity |].
    rewrite Hk. exact Hmid.
  - intros [pre [mid [post [-> H]]]].
    exists (lower pre), (lower post).
    rewrite !lower_app, H, Hk. reflexivity.
Qed.

(** ** The retry classifier and the retry loop *)

Lemma is_quota_exceeded_error_iff (msg : str) :
  is_quota_exceeded_error msg = true <->
  exists keyword, In keyword quota_keywords /\ ci_contains keyword msg.
Proof.
  unfold is_quota_exceeded_error. rewrite existsb_exists. split.
  - intros [kw [Hin H]]. exists kw. split; [exact Hin |].
    apply contains_lower_iff; [| exact H].
    simpl in Hin. decompose [or] Hin; subst; try reflexivity; contradiction.
  - intros [kw [Hin H]]. exists kw. split; [exact Hin |].
    apply contains_lower_iff; [| exact H].
    simpl in Hin. decompose [or] Hin; subst; try reflexivity; contradiction.
Qed.

Lemma is_timeout_error_iff (msg : str) :
  is_timeout_error msg = true <->
  ci_contains (lit "timeout") msg \/ ci_contains (lit "timed out") msg.
Proof.
  unfold is_timeout_error. rewrite orb_true_iff.
  rewrite !contains_lower_iff by reflexivity. reflexivity.
Qed.

Section RetryStep.
Variable E : env.
Variables (model : str) (messages : value).
Variables (max_retries retry_delay : Z).

Lemma retry_loop_failed_attempt (remaining : nat) (attempt : Z) (w : world) (e : exn) :
  env_create E w model messages = inl e ->
  retry_loop E model messages max_retries retry_delay (S remaining) attempt w =
  after_failed_attempt E model messages max_retries retry_delay remaining attempt w e.
Proof.
  intros He. cbn [retry_loop]. unfold try_except, sdk_create. rewrite He. cbn [of_sum].
  unfold after_failed_attempt, failed_call, classify, bind, print, emit, sleep, emit, raise, ret.
  rewrite <- !app_assoc. cbn [app].
  destruct (is_quota_exceeded_error (str_of_exn e)).
  - destruct (attempt <? max_retries - 1)%Z.
    + destruct (retry_delay >? 0)%Z; rewrite <- ?app_assoc; reflexivity.
    + rewrite <- app_assoc. reflexivity.
  - destruct (is_timeout_error (str_of_exn e)).
    + destruct (attempt <? max_retries - 1)%Z; rewrite <- ?app_assoc; reflexivity.
    + rewrite <- app_assoc. reflexivity.
Qed.

Lemma retry_loop_success (remaining : nat) (attempt : Z) (w : world) (v : value) :
  env_create E w model messages = inr v ->
  retry_loop E model messages max_retries retry_delay (S remaining) attempt w =
  (Ok v, w ++ [EvCreate model messages]).
Proof.
  intros Hv. cbn [retry_loop]. unfold try_except, sdk_create. rewrite Hv. reflexivity.
Qed.

End RetryStep.

Lemma classify_spec (msg : str) :
  let quota := exists keyword, In keyword quota_keywords /\ ci_contains keyword msg in
  let timeout := ci_contains (lit "timeout") msg \/ ci_contains (lit "timed out") msg in
  (classify msg = QuotaExceeded <-> quota)
  /\ (classify msg = Timeout <-> timeout /\ ~ quota)
  /\ (classify msg = NonRetryable <-> ~ quota /\ ~ timeout).
Proof.
  intros quota timeout. subst quota timeout.
  rewrite <- is_quota_exceeded_error_iff, <- is_timeout_error_iff.
  unfold classify.
  destruct (is_quota_exceeded_error msg), (is_timeout_error msg);
    repeat split; intros; try discriminate; try reflexivity;
    try match goal with H : _ /\ _ |- _ => destruct H end;
    try congruence.
Qed.

(** The three messages of the classifier's examples. *)
Lemma classify_examples :
  classify (lit "Error: quota exceeded for this month") = QuotaExceeded
  /\ classify (lit "Request timed out after 120s") = Timeout
  /\ classify (lit "Invalid API key") = NonRetryable
  /\ classify (lit "Timeout: check your plan and BILLING details") = QuotaExceeded.
Proof. repeat split; reflexivity. Qed.

(** C5. An error message selects the quota branch exactly when it contains,
    up to case, one of the four quota keywords; the timeout branch exactly
    when it is not a quota message and contains "timeout" or "timed out";
    the non-retryable branch otherwise.  A failed attempt then behaves by
    its class: a quota error retries (after the configured delay when it is
    positive) or gives up on the last attempt; a timeout retries at once,
    with no sleep, or gives up on the last attempt; any other error is
    re-raised at once, with no further call. *)
Theorem C5_retry_classification (E : env) (model : str) (messages : value)
    (max_retries retry_delay : Z) (remaining : nat) (attempt : Z) (w : world) (e : exn) :
  env_create E w model messages = inl e ->
  (forall msg : str,
      let quota := exists keyword, In keyword quota_keywords /\ ci_contains keyword msg in
      let timeout := ci_contains (lit "timeout") msg \/ ci_contains (lit "timed out") msg in
      (classify msg = QuotaExceeded <-> quota)
      /\ (classify msg = Timeout <-> timeout /\ ~ quota)
      /\ (classify msg = NonRetryable <-> ~ quota /\ ~ timeout))
  /\ retry_loop E model messages max_retries retry_delay (S remaining) attempt w =
     let w1 := w ++ [EvCreate model messages; EvPrint (MsgApiCallFailed (str_of_exn e))] in
     match classify (str_of_exn e) with
     | QuotaExceeded =>
         if (attempt <? max_retries - 1)%Z
         then retry_loop E model messages max_retries retry_delay remaining (attempt + 1)
                (if (retry_delay >? 0)%Z then w1 ++ [EvSleep retry_delay] else w1)
         else (Raise e, w1 ++ [EvPrint MsgQuotaGiveUp])
     | Timeout =>
         if (attempt <? max_retries - 1)%Z
         then retry_loop E model messages max_retries retry_delay remaining (attempt + 1) w1
         else (Raise e, w1 ++ [EvPrint MsgTimeoutGiveUp])
     | NonRetryable => (Raise e, w1 ++ [EvPrint MsgNotRetryable])
     end.
Proof.
  intros He. split; [exact classify_spec |].
  rewrite (retry_loop_failed_attempt _ _ _ _ _ _ _ _ _ He). reflexivity.
Qed.

Lemma classify_quota (msg : str) :
  is_quota_exceeded_error msg = true -> classify msg = QuotaExceeded.
Proof. intros H. unfold classify. rewrite H. reflexivity. Qed.

Lemma filter_create_call_or_sleep (l : list event) :
  filter is_create (filter is_call_or_sleep l) = filter is_create l.
Proof.
  induction l as [|ev l IH]; [reflexivity |].
  destruct ev; simpl; rewrite ?IH; reflexivity.
Qed.

Lemma filter_sleep_call_or_sleep (l : list event) :
  filter is_sleep (filter is_call_or_sleep l) = filter is_sleep l.
Proof.
  induction l as [|ev l IH]; [reflexivity |].
  destruct ev; simpl; rewrite ?IH; reflexivity.
Qed.

Lemma quota_schedule_step (call : event) (d : Z) (n : nat) :
  quota_schedule call d (S (S n)) =
  call :: (if (d >? 0)%Z then [EvSleep d] else []) ++ quota_schedule call d (S n).
Proof. reflexivity. Qed.

Lemma quota_schedule_calls (m : str) (msgs : value) (d : Z) (n : nat) :
  List.length (filter is_create (quota_schedule (EvCreate m msgs) d n)) = n.
Proof.
  induction n as [|n IH]; [reflexivity |].
  destruct n as [|n]; [reflexivity |].
  rewrite quota_schedule_step.
  cbn [filter is_create List.length]. rewrite filter_app, length_app, IH.
  destruct (d >? 0)%Z; reflexivity.
Qed.

Lemma quota_schedule_sleeps (m : str) (msgs : value) (d : Z) (n : nat) :
  filter is_sleep (quota_schedule (EvCreate m msgs) d n) =
  if (d >? 0)%Z then repeat (EvSleep d) (n - 1) else [].
Proof.
  induction n as [|n IH]; [destruct (d >? 0)%Z; reflexivity |].
  destruct n as [|n]; [destruct (d >? 0)%Z; reflexivity |].
  rewrite quota_schedule_step.
  cbn [filter is_sleep]. rewrite filter_app, IH.
  destruct (d >? 0)%Z; simpl; rewrite ?Nat.sub_0_r; reflexivity.
Qed.

Section AllQuota.
Variable E : env.
Variables (model : str) (messages : value).
Variables (max_retries retry_delay : Z).
Hypothesis always_quota :
  forall w, exists e,
    env_create E w model messages = inl e
    /\ is_quota_exceeded_error (str_of_exn e) = true.

Lemma retry_loop_all_quota (n : nat) :
  forall (attempt : Z) (w : world),
    (attempt + Z.of_nat (S n) = max_retries)%Z ->
    exists e new,
      retry_loop E model messages max_retries retry_delay (S n) attempt w
      = (Raise e, w ++ new)
      /\ is_quota_exceeded_error (str_of_exn e) = true
      /\ (exists w_last, env_create E w_last model messages = inl e)
      /\ filter is_call_or_sleep new
         = quota_schedule (EvCreate model messages) retry_delay (S n)
      /\ In (EvPrint MsgQuotaGiveUp) new.
Proof.
  induction n as [|n IH]; intros attempt w Hn.
  - destruct (always_quota w) as [e [He Hq]].
    exists e, (failed_call model messages e ++ [EvPrint MsgQuotaGiveUp]).
    rewrite (retry_loop_failed_attempt _ _ _ _ _ _ _ _ _ He).
    unfold after_failed_attempt. rewrite (classify_quota _ Hq). cbv zeta.
    replace (attempt <? max_retries - 1)%Z with false by (symmetry; apply Z.ltb_ge; lia).
    rewrite <- app_assoc. repeat split; try assumption.
    + exists w. exact He.
    + simpl. auto.
  - destruct (always_quota w) as [e [He Hq]].
    rewrite (retry_loop_failed_attempt _ _ _ _ _ _ _ _ _ He).
    unfold after_failed_attempt. rewrite (classify_quota _ Hq). cbv zeta.
    replace (attempt <? max_retries - 1)%Z with true by (symmetry; apply Z.ltb_lt; lia).
    match goal with
    | |- context [retry_loop _ _ _ _ _ _ _ ?w2] =>
        destruct (IH (attempt + 1)%Z w2) as [e' [new [Hrun [Hq' [Hlast [Hsched Hmsg]]]]]];
        [lia |]
    end.
    exists e', (failed_call model messages e
                ++ (if (retry_delay >? 0)%Z then [EvSleep retry_delay] else []) ++ new).
    rewrite Hrun. repeat split; try assumption.
    + f_equal. destruct (retry_delay >? 0)%Z; rewrite <- ?app_assoc; reflexivity.
    + rewrite quota_schedule_step, <- Hsched.
      unfold failed_call. cbn [app filter is_call_or_sleep is_create is_sleep orb].
      rewrite filter_app. destruct (retry_delay >? 0)%Z; reflexivity.
    + apply in_or_app. right. apply in_or_app. right. exact Hmsg.
Qed.

End AllQuota.

(** C1. With [max_retries = N >= 1] and a client whose every call raises an
    error classified as quota-exceeded, [call_openai_with_retry] calls the
    client exactly [N] times, sleeps [retry_delay] seconds between two
    consecutive calls when [retry_delay > 0] and never otherwise, and then
    fails by re-raising the quota error of the last call, after printing
    the quota give-up message. *)
Theorem C1_quota_exhaustion (E : env) (model : str) (messages : value)
    (N retry_delay : Z) (w : world) :
  (1 <= N)%Z ->
  (forall w', exists e,
      env_create E w' model messages = inl e
      /\ is_quota_exceeded_error (str_of_exn e) = true) ->
  exists e new,
    call_openai_with_retry E model messages N retry_delay w = (Raise e, w ++ new)
    /\ is_quota_exceeded_error (str_of_exn e) = true
    /\ (exists w_last, env_create E w_last model messages = inl e)
    /\ Z.of_nat (List.length (filter is_create new)) = N
    /\ filter is_sleep new =
         (if (retry_delay >? 0)%Z
          then repeat (EvSleep retry_delay) (Z.to_nat N - 1) else [])
    /\ filter is_call_or_sleep new
       = quota_schedule (EvCreate model messages) retry_delay (Z.to_nat N)
    /\ In (EvPrint MsgQuotaGiveUp) new.
Proof.
  intros HN Hall. unfold call_openai_with_retry.
  destruct (Z.to_nat N) as [|n] eqn:Hn; [lia |].
  destruct (@retry_loop_all_quota E model messages N retry_delay Hall n 0%Z w) as
    [e [new [Hrun [Hq [Hlast [Hsched Hmsg]]]]]]; [lia |].
  exists e, new. repeat split; try assumption.
  - rewrite <- filter_create_call_or_sleep, Hsched, quota_schedule_calls. lia.
  - rewrite <- quota_schedule_sleeps with (m := model) (msgs := messages).
    rewrite <- Hsched. symmetry. apply filter_sleep_call_or_sleep.
Qed.

(** ** Traces *)

Lemma files_written_app (a b : world) :
  files_written (a ++ b) = files_written a ++ files_written b.
Proof.
  induction a as [|ev a IH]; [reflexivity |].
  destruct ev; simpl; rewrite ?IH; reflexivity.
Qed.

Lemma image_files_app (a b : world) :
  image_files (a ++ b) = image_files a ++ image_files b.
Proof. unfold image_files. rewrite files_written_app. apply filter_app. Qed.

Lemma fetched_app (a b : world) : fetched (a ++ b) = fetched a ++ fetched b.
Proof.
  induction a as [|ev a IH]; [reflexivity |].
  destruct ev; simpl; rewrite ?IH; reflexivity.
Qed.

Lemma reads_app (a b : world) : reads (a ++ b) = reads a ++ reads b.
Proof.
  induction a as [|ev a IH]; [reflexivity |].
  destruct ev; simpl; rewrite ?IH; reflexivity.
Qed.

Lemma image_reports_app (a b : world) :
  image_reports (a ++ b) = image_reports a ++ image_reports b.
Proof.
  induction a as [|ev a IH]; [reflexivity |].
  destruct ev as [| | | | | | | |m]; simpl; rewrite ?IH; try reflexivity.
  destruct m; simpl; rewrite ?IH; reflexivity.
Qed.

Lemma path_join_nonempty (a b : str) : b <> [] -> path_join a b <> [].
Proof.
  intros Hb. unfold path_join. destruct (rev a) as [|c r] eqn:Hr; [exact Hb |].
  assert (Ha : a <> []) by (intros ->; discriminate).
  destruct (Ascii.eqb c "/"); destruct a; try congruence; discriminate.
Qed.

Lemma saved_path_join (a b : str) : b <> [] -> saved (Some (path_join a b)) = true.
Proof.
  intros Hb. pose proof (path_join_nonempty a b Hb) as H.
  destruct (path_join a b); [congruence | reflexivity].
Qed.

Lemma saved_base64_image_path (dir : str) (n : nat) :
  saved (Some (base64_image_path dir n)) = true.
Proof. apply saved_path_join. discriminate. Qed.

Lemma saved_url_image_path (dir : str) (n : nat) (ext : str) :
  saved (Some (url_image_path dir n ext)) = true.
Proof. apply saved_path_join. discriminate. Qed.

(** ** The per-image helpers never raise *)

Lemma save_base64_image_run (E : env) (data dir : str) (n : nat) (w : world) :
  exists r new,
    save_base64_image E data dir n w = (Ok r, w ++ new) /\ base64_run dir n r new.
Proof.
  unfold save_base64_image, try_except, bind, lift, ret, raise, print, emit, write_file.
  fold (base64_image_path dir n).
  destruct (startswith (lit "data:image/") data).
  - destruct (after_first_comma data) as [data'|e].
    + destruct (b64decode data') as [bytes|].
      * destruct (env_write E w (base64_image_path dir n) (Binary bytes)) as [e|].
        -- eexists _, _. rewrite <- app_assoc. split; [reflexivity | apply B64WriteFailed].
        -- eexists _, _. rewrite <- app_assoc. split; [reflexivity | apply B64Saved].
      * eexists _, _. split; [reflexivity | apply B64Rejected].
    + eexists _, _. split; [reflexivity | apply B64Rejected].
  - destruct (b64decode data) as [bytes|].
    + destruct (env_write E w (base64_image_path dir n) (Binary bytes)) as [e|].
      * eexists _, _. rewrite <- app_assoc. split; [reflexivity | apply B64WriteFailed].
      * eexists _, _. rewrite <- app_assoc. split; [reflexivity | apply B64Saved].
    + eexists _, _. split; [reflexivity | apply B64Rejected].
Qed.

Lemma extension_of_extensions (content_type : str) :
  In (extension_of content_type) extensions.
Proof.
  unfold extension_of, extensions.
  destruct (contains (lit "png") (lower content_type)); [simpl; auto |].
  destruct (contains (lit "jpg") (lower content_type)
            || contains (lit "jpeg") (lower content_type)); [simpl; auto |].
  destruct (contains (lit "gif") (lower content_type)); simpl; auto.
Qed.

Lemma download_image_from_url_run (E : env) (url dir : str) (n : nat) (w : world) :
  exists r new,
    download_image_from_url E url dir n w = (Ok r, w ++ new) /\ url_run dir url n r new.
Proof.
  unfold download_image_from_url, try_except, bind, http_get.
  destruct (env_get E w url) as [e|response]; cbn [of_sum].
  - eexists _, _. unfold print, emit, ret. rewrite <- app_assoc.
    split; [reflexivity | apply UrlRefused].
  - unfold raise_for_status.
    destruct ((400 <=? resp_status response) && (resp_status response <? 600))%N.
    + eexists _, _. unfold raise, print, emit, ret. rewrite <- app_assoc.
      split; [reflexivity | apply UrlRefused].
    + unfold ret at 1. fold (url_image_path dir n (extension_of (resp_content_type response))).
      destruct (resp_broken response) as [e|].
      * eexists _, _. unfold bind, raise, print, emit, ret. rewrite <- !app_assoc.
        split; [reflexivity | apply UrlWriteFailed].
      * unfold bind, write_file.
        destruct (env_write E (w ++ [EvGet url])
                    (url_image_path dir n (extension_of (resp_content_type response)))
                    (Binary (resp_body response))) as [e|].
        -- eexists _, _. unfold print, emit, ret. rewrite <- !app_assoc.
           split; [reflexivity | apply UrlWriteFailed].
        -- eexists _, _. unfold print, emit, ret. rewrite <- !app_assoc.
           split; [reflexivity | apply UrlDownloaded, extension_of_extensions].
Qed.

(** ** The two loops of the extractor *)

Lemma process_base64_run (E : env) (dir : str) (ms : list rmatch) :
  forall (text : str) (n : nat) (w : world),
  exists text' k new,
    process_base64 E dir ms (text, n) w = (Ok (text', n + k), w ++ new)
    /\ k <= List.length ms
    /\ map fst (files_written new) = base64_paths dir n k
    /\ image_files new = files_written new
    /\ fetched new = []
    /\ filter is_network new = []
    /\ map fst (image_reports new) = repeat true (List.length ms)
    /\ List.length (filter snd (image_reports new)) = k.
Proof.
  induction ms as [|m ms IH]; intros text n w.
  - exists text, 0, []. cbn [process_base64]. unfold ret.
    rewrite Nat.add_0_r, app_nil_r. repeat split; auto.
  - cbn [process_base64]. unfold bind.
    destruct (save_base64_image_run E (group m 1) dir n w) as [r [new1 [Hrun Hcase]]].
    rewrite Hrun. inversion Hcase; subst.
    + rewrite saved_base64_image_path.
      destruct (IH (replace text (group m 0) (placeholder_saved (base64_image_path dir n)))
                  (n + 1) (w ++ [EvWrote (base64_image_path dir n) (Binary data);
                                 EvPrint (MsgSavedBase64 (base64_image_path dir n))]))
        as [text' [k [new [Hrest [Hk [Hfiles [Hbin [Hget [Hnet [Hrep Hcount]]]]]]]]]].
      exists text', (S k), ([EvWrote (base64_image_path dir n) (Binary data);
                             EvPrint (MsgSavedBase64 (base64_image_path dir n))] ++ new).
      rewrite Hrest, <- app_assoc.
      replace (n + 1 + k) with (n + S k) by lia.
      repeat split.
      * simpl. lia.
      * cbn. rewrite Hfiles. unfold base64_paths. cbn [seq map].
        replace (n + 1) with (S n) by lia. reflexivity.
      * unfold image_files in *. cbn. rewrite Hbin. reflexivity.
      * exact Hget.
      * exact Hnet.
      * cbn. rewrite Hrep. reflexivity.
      * cbn. rewrite Hcount. reflexivity.
    + destruct (IH text n (w ++ [EvPrint (MsgSaveBase64Failed e)]))
        as [text' [k [new [Hrest [Hk [Hfiles [Hbin [Hget [Hnet [Hrep Hcount]]]]]]]]]].
      exists text', k, ([EvPrint (MsgSaveBase64Failed e)] ++ new).
      rewrite Hrest, <- app_assoc.
      repeat split; auto.
      * simpl. lia.
      * cbn. rewrite Hrep. reflexivity.
    + destruct (IH text n (w ++ [EvWriteFailed (base64_image_path dir n);
                                 EvPrint (MsgSaveBase64Failed e)]))
        as [text' [k [new [Hrest [Hk [Hfiles [Hbin [Hget [Hnet [Hrep Hcount]]]]]]]]]].
      exists text', k, ([EvWriteFailed (base64_image_path dir n);
                         EvPrint (MsgSaveBase64Failed e)] ++ new).
      rewrite Hrest, <- app_assoc.
      repeat split; auto.
      * simpl. lia.
      * cbn. rewrite Hrep. reflexivity.
Qed.

Lemma process_urls_run (E : env) (dir : str) (ms : list rmatch) :
  forall (text : str) (n : nat) (w : world),
  exists text' exts new,
    process_urls E dir ms (text, n) w = (Ok (text', n + List.length exts), w ++ new)
    /\ List.length exts <= List.length ms
    /\ map fst (files_written new) = url_paths dir n exts
    /\ image_files new = files_written new
    /\ fetched new = map (fun m => group m 0) ms
    /\ map fst (image_reports new) = repeat false (List.length ms)
    /\ List.length (filter snd (image_reports new)) = List.length exts
    /\ Forall (fun ext => In ext extensions) exts.
Proof.
  induction ms as [|m ms IH]; intros text n w.
  - exists text, [], []. cbn [process_urls]. unfold ret.
    cbn [List.length]. rewrite Nat.add_0_r, app_nil_r. repeat split; auto.
  - cbn [process_urls]. unfold bind.
    destruct (download_image_from_url_run E (group m 0) dir n w) as [r [new1 [Hrun Hcase]]].
    rewrite Hrun. inversion Hcase; subst.
    + rewrite saved_url_image_path.
      match goal with
      | |- context [process_urls E dir ms ?st ?w1] =>
          destruct (IH (fst st) (snd st) w1)
            as [text' [exts [new [Hrest [Hk [Hfiles [Hbin [Hget [Hrep [Hcount Hexts]]]]]]]]]]
      end.
      cbn [fst snd] in Hrest.
      exists text', (ext :: exts),
        ([EvGet (group m 0); EvWrote (url_image_path dir n ext) (Binary body);
          EvPrint (MsgDownloaded (url_image_path dir n ext))] ++ new).
      rewrite Hrest, <- app_assoc. cbn [List.length].
      replace (n + 1 + List.length exts) with (n + S (List.length exts)) by lia.
      repeat split.
      * lia.
      * cbn. rewrite Hfiles. replace (n + 1) with (S n) by lia. reflexivity.
      * unfold image_files in *. cbn. rewrite Hbin. reflexivity.
      * cbn. rewrite Hget. reflexivity.
      * cbn. rewrite Hrep. reflexivity.
      * cbn. rewrite Hcount. reflexivity.
      * constructor; assumption.
    + destruct (IH text n (w ++ [EvGet (group m 0); EvPrint (MsgDownloadFailed e)]))
        as [text' [exts [new [Hrest [Hk [Hfiles [Hbin [Hget [Hrep [Hcount Hexts]]]]]]]]]].
      exists text', exts, ([EvGet (group m 0); EvPrint (MsgDownloadFailed e)] ++ new).
      rewrite Hrest, <- app_assoc.
      repeat split; auto.
      * simpl. lia.
      * cbn. rewrite Hget. reflexivity.
      * cbn. rewrite Hrep. reflexivity.
    + destruct (IH text n (w ++ [EvGet (group m 0);
                                 EvWriteFailed (url_image_path dir n ext);
                                 EvPrint (MsgDownloadFailed e)]))
        as [text' [exts [new [Hrest [Hk [Hfiles [Hbin [Hget [Hrep [Hcount Hexts]]]]]]]]]].
      exists text', exts, ([EvGet (group m 0);
                            EvWriteFailed (url_image_path dir n ext);
                            EvPrint (MsgDownloadFailed e)] ++ new).
      rewrite Hrest, <- app_assoc.
      repeat split; auto.
      * simpl. lia.
      * cbn. rewrite Hget. reflexivity.
      * cbn. rewrite Hrep. reflexivity.
Qed.

(** ** The content extractor as a whole *)

Lemma write_text_files_run (E : env) (dir text content : str) (w : world) :
  exists tail,
    try_except
      (write_file E (path_join dir (lit "content.txt")) (Text text) ;;
       print (MsgSavedText (path_join dir (lit "content.txt"))) ;;
       write_file E (path_join dir (lit "original_content.txt")) (Text content) ;;
       print (MsgSavedOriginal (path_join dir (lit "original_content.txt"))))
      (fun e => print (MsgMixedContentFailed e) ;; ret tt) w
    = (Ok tt, w ++ tail)
    /\ text_run dir text content tail.
Proof.
  unfold try_except, bind, write_file at 1.
  destruct (env_write E w (path_join dir (lit "content.txt")) (Text text)) as [e|].
  - eexists. unfold print, emit, ret. rewrite <- app_assoc.
    split; [reflexivity | apply TextFailed].
  - unfold print at 1, emit at 1, write_file.
    destruct (env_write E ((w ++ [EvWrote (path_join dir (lit "content.txt")) (Text text)])
                             ++ [EvPrint (MsgSavedText (path_join dir (lit "content.txt")))])
                (path_join dir (lit "original_content.txt")) (Text content)) as [e|].
    + eexists. unfold print, emit, ret. rewrite <- !app_assoc.
      split; [reflexivity | apply OriginalFailed].
    + eexists. unfold print, emit, ret. rewrite <- !app_assoc.
      split; [reflexivity | apply TextSaved].
Qed.

(** [save_mixed_content] runs the base64 loop, then the URL loop, then
    writes the two text files; whatever fails, it returns normally. *)
Lemma save_mixed_content_run (E : env) (content dir : str) (w : world) :
  exists text_b k new_b text (exts : list str) new_u tail,
    process_base64 E dir (finditer base64_pattern false content) (content, 1) w
    = (Ok (text_b, 1 + k), w ++ new_b)
    /\ process_urls E dir (finditer url_pattern true content) (text_b, 1 + k) (w ++ new_b)
       = (Ok (text, 1 + k + List.length exts), (w ++ new_b) ++ new_u)
    /\ text_run dir text content tail
    /\ save_mixed_content E content dir w = (Ok tt, w ++ new_b ++ new_u ++ tail).
Proof.
  destruct (process_base64_run E dir (finditer base64_pattern false content) content 1 w)
    as [text_b [k [new_b [Hb _]]]].
  destruct (process_urls_run E dir (finditer url_pattern true content) text_b (1 + k)
              (w ++ new_b)) as [text [exts [new_u [Hu _]]]].
  destruct (write_text_files_run E dir text content ((w ++ new_b) ++ new_u))
    as [tail [Ht Htail]].
  exists text_b, k, new_b, text, exts, new_u, tail.
  repeat split; try assumption.
  unfold save_mixed_content. cbv zeta.
  unfold try_except in *. unfold bind at 1. rewrite Hb.
  unfold bind at 1. rewrite Hu. cbn [fst].
  rewrite !app_assoc. rewrite <- Ht. reflexivity.
Qed.

Lemma text_run_quiet (dir text content : str) (tail : list event) :
  text_run dir text content tail ->
  image_reports tail = [] /\ image_files tail = [] /\ fetched tail = []
  /\ filter is_network tail = [].
Proof. intros H. inversion H; subst; repeat split; reflexivity. Qed.

(** C2 (amended). [save_mixed_content] lets no error reach its caller: it
    returns normally in every environment.  A failure to save or download
    one image is reported and the remaining matches are still processed
    (one report per base64 match, then one per URL match, and every matched
    URL is fetched); a failure to write [content.txt] or
    [original_content.txt] is caught by the handler of line 180 and
    reported too, so the run ends in one of the three ways of [text_run]. *)
Theorem C2_extractor_never_raises (E : env) (content dir : str) (w : world) :
  exists new text tail,
    save_mixed_content E content dir w = (Ok tt, w ++ new ++ tail)
    /\ text_run dir text content tail
    /\ map fst (image_reports new)
       = repeat true (List.length (finditer base64_pattern false content))
         ++ repeat false (List.length (finditer url_pattern true content))
    /\ fetched new = map (fun m => group m 0) (finditer url_pattern true content)
    /\ List.length (filter snd (image_reports new)) = List.length (image_files new).
Proof.
  destruct (process_base64_run E dir (finditer base64_pattern false content) content 1 w)
    as [text_b [k [new_b [Hb [_ [Hfb [Hbb [Hgb [_ [Hrb Hcb]]]]]]]]]].
  destruct (process_urls_run E dir (finditer url_pattern true content) text_b (1 + k)
              (w ++ new_b))
    as [text [exts [new_u [Hu [_ [Hfu [Hbu [Hgu [Hru [Hcu _]]]]]]]]]].
  destruct (write_text_files_run E dir text content ((w ++ new_b) ++ new_u))
    as [tail [Ht Htail]].
  exists (new_b ++ new_u), text, tail. repeat split.
  - unfold save_mixed_content. cbv zeta.
    unfold try_except in *. unfold bind at 1. rewrite Hb.
    unfold bind at 1. rewrite Hu. cbn [fst].
    rewrite !app_assoc. rewrite <- Ht. reflexivity.
  - exact Htail.
  - rewrite image_reports_app, map_app, Hrb, Hru. reflexivity.
  - rewrite fetched_app, Hgb, Hgu. reflexivity.
  - rewrite image_reports_app, filter_app, image_files_app, !length_app, Hcb, Hcu.
    rewrite Hbb, Hbu, <- (length_map fst (files_written new_b)), Hfb.
    rewrite <- (length_map fst (files_written new_u)), Hfu.
    unfold base64_paths. rewrite length_map, length_seq. f_equal.
    clear. generalize (1 + k). induction exts as [|ext exts IH]; intros n; [reflexivity |].
    cbn. rewrite <- IH. reflexivity.
Qed.

(** C2, as stated, fails: on a full disk the write of [content.txt] raises,
    and [save_mixed_content] still returns normally, having only printed
    the error. *)
Lemma C2_counterexample :
  env_write Sample.disk_full [] (lit "out/content.txt") (Text (lit "A cat."))
  = Some (OSError (lit "No space left on device"))
  /\ save_mixed_content Sample.disk_full (lit "A cat.") (lit "out") []
     = (Ok tt,
        [EvWriteFailed (lit "out/content.txt");
         EvPrint (MsgMixedContentFailed (OSError (lit "No space left on device")))]).
Proof. split; reflexivity. Qed.

(** ** Inputs without image patterns *)

Lemma finditer_from_no_match (ignorecase : bool) (r : regex) (s : str) :
  (forall pre rest, s = pre ++ rest -> match_at ignorecase r rest = None) ->
  forall skip, finditer_from ignorecase r skip s = [].
Proof.
  induction s as [|c s IH]; intros Hno skip; [reflexivity |].
  cbn [finditer_from]. destruct skip as [|skip].
  - rewrite (Hno [] (c :: s) eq_refl).
    apply IH. intros pre rest ->. apply (Hno (c :: pre)). reflexivity.
  - apply IH. intros pre rest ->. apply (Hno (c :: pre)). reflexivity.
Qed.

Lemma finditer_no_match (ignorecase : bool) (r : regex) (s : str) :
  ~ has_match ignorecase r s -> finditer r ignorecase s = [].
Proof.
  intros Hno. apply finditer_from_no_match. intros pre rest ->.
  destruct (match_at ignorecase r rest) as [m|] eqn:Hm; [| reflexivity].
  exfalso. apply Hno. exists pre, rest, m. split; [reflexivity | exact Hm].
Qed.

(** C8. On a content string in which neither pattern matches anywhere,
    the extractor saves and fetches no image and goes straight to the two
    text files, both written with the input itself; when the two writes
    succeed, these are exactly the files it creates. *)
Theorem C8_no_patterns (E : env) (content dir : str) (w : world) :
  ~ has_match false base64_pattern content ->
  ~ has_match true url_pattern content ->
  exists tail,
    save_mixed_content E content dir w = (Ok tt, w ++ tail)
    /\ text_run dir content content tail
    /\ image_files tail = []
    /\ fetched tail = []
    /\ (env_write E w (path_join dir (lit "content.txt")) (Text content) = None ->
        env_write E
          (w ++ [EvWrote (path_join dir (lit "content.txt")) (Text content);
                 EvPrint (MsgSavedText (path_join dir (lit "content.txt")))])
          (path_join dir (lit "original_content.txt")) (Text content) = None ->
        files_written tail
        = [(path_join dir (lit "content.txt"), Text content);
           (path_join dir (lit "original_content.txt"), Text content)]).
Proof.
  intros Hb Hu.
  destruct (write_text_files_run E dir content content w) as [tail [Ht Htail]].
  exists tail.
  assert (Hrun : save_mixed_content E content dir w = (Ok tt, w ++ tail)).
  { unfold save_mixed_content. cbv zeta.
    rewrite (finditer_no_match _ _ _ Hb), (finditer_no_match _ _ _ Hu).
    cbn [process_base64 process_urls].
    unfold try_except in *. unfold bind at 1. unfold ret at 1.
    unfold bind at 1. unfold ret at 1. cbn [fst]. exact Ht. }
  destruct (text_run_quiet _ _ _ _ Htail) as [_ [Himg [Hget _]]].
  repeat split; try assumption.
  intros Hw1 Hw2.
  revert Ht. unfold try_except, bind, write_file at 1. rewrite Hw1.
  unfold print at 1, emit at 1, write_file. rewrite <- app_assoc. cbn [app].
  rewrite Hw2. unfold print, emit, ret. rewrite <- !app_assoc. cbn [app].
  intros Ht. injection Ht as Ht. apply app_inv_head in Ht. subst tail. reflexivity.
Qed.

Lemma in_suffixes (s t : str) : In t (suffixes s) <-> exists pre, s = pre ++ t.
Proof.
  induction s as [|c s IH].
  - simpl. split.
    + intros [<- | []]. exists []. reflexivity.
    + intros [pre H]. symmetry in H. apply app_eq_nil in H. left. symmetry. apply H.
  - cbn [suffixes In]. rewrite IH. split.
    + intros [<- | [pre ->]]; [exists []; reflexivity | exists (c :: pre); reflexivity].
    + intros [[|c' pre] H].
      * left. exact H.
      * right. injection H as _ ->. exists pre. reflexivity.
Qed.

Lemma has_match_iff (ignorecase : bool) (r : regex) (s : str) :
  has_match ignorecase r s <-> matches_somewhere ignorecase r s = true.
Proof.
  unfold has_match, matches_somewhere. rewrite existsb_exists. split.
  - intros [pre [rest [m [-> Hm]]]]. exists rest. split.
    + apply in_suffixes. exists pre. reflexivity.
    + rewrite Hm. reflexivity.
  - intros [t [Hin Ht]]. apply in_suffixes in Hin. destruct Hin as [pre ->].
    destruct (match_at ignorecase r t) as [m|] eqn:Hm; [| discriminate].
    exists pre, t, m. split; [reflexivity | exact Hm].
Qed.

Lemma no_match_by_computation (ignorecase : bool) (r : regex) (s : str) :
  matches_somewhere ignorecase r s = false -> ~ has_match ignorecase r s.
Proof. intros H Hm. apply has_match_iff in Hm. congruence. Qed.

Lemma length_url_paths (dir : str) (n : nat) (exts : list str) :
  List.length (url_paths dir n exts) = List.length exts.
Proof.
  revert n. induction exts as [|ext exts IH]; intros n; [reflexivity |].
  cbn. rewrite IH. reflexivity.
Qed.

Lemma successes_repeat (kind : bool) (l : list (bool * bool)) :
  forall n k,
    map fst l = repeat kind n ->
    List.length (filter snd l) = k ->
    filter snd l = repeat (kind, true) k.
Proof.
  induction l as [|[a b] l IH]; intros n k Hkind Hcount.
  - simpl in Hcount. subst k. reflexivity.
  - destruct n as [|n]; [discriminate |]. cbn in Hkind. injection Hkind as -> Hkind.
    destruct b; cbn in *.
    + destruct k as [|k]; [discriminate |]. cbn. f_equal.
      apply (IH n k Hkind). lia.
    + apply (IH n k Hkind Hcount).
Qed.

Lemma all_successes (l : list (bool * bool)) :
  forallb snd l = true -> filter snd l = l.
Proof.
  induction l as [|[a b] l IH]; intros H; [reflexivity |].
  cbn in *. apply andb_prop in H. destruct H as [-> H]. rewrite (IH H). reflexivity.
Qed.

(** C7. One counter, starting at 1, numbers the images of a run: the
    base64 matches are processed first, in order, then the URL matches, in
    order (one report per match); the image files written are
    [image_1.png .. image_k.png] for the [k] base64 matches that were saved,
    followed by [image_url_<k+1>.<ext> ..], with [ext] one of png, jpg and
    gif, for the URL matches that were downloaded, so the counter advances
    exactly once per successful save; when no save fails, there is one
    file per match.
    On the synthetic response with a URL between two base64 spans, the
    three images are [image_1.png], [image_2.png] and [image_url_3.jpg], and
    [content.txt] keeps no [data:] text and no matched URL. *)
Theorem C7_shared_counter :
  (forall (E : env) (content dir : str) (w : world),
      exists k exts new,
        snd (save_mixed_content E content dir w) = w ++ new
        /\ k <= List.length (finditer base64_pattern false content)
        /\ List.length exts <= List.length (finditer url_pattern true content)
        /\ map fst (image_files new)
           = base64_paths dir 1 k ++ url_paths dir (1 + k) exts
        /\ map fst (image_reports new)
           = repeat true (List.length (finditer base64_pattern false content))
             ++ repeat false (List.length (finditer url_pattern true content))
        /\ filter snd (image_reports new)
           = repeat (true, true) k ++ repeat (false, true) (List.length exts)
        /\ fetched new = map (fun m => group m 0) (finditer url_pattern true content)
        /\ Forall (fun ext => In ext extensions) exts
        /\ (forallb snd (image_reports new) = true ->
            k = List.length (finditer base64_pattern false content)
            /\ List.length exts = List.length (finditer url_pattern true content)))
  /\ (let run := save_mixed_content Sample.host scenario_content (lit "out") [] in
      map (fun m => group m 0) (finditer base64_pattern false scenario_content)
      = [lit "data:image/png;base64,QUJD"; lit "data:image/gif;base64,REVG"]
      /\ map (fun m => group m 0) (finditer url_pattern true scenario_content)
         = [lit "http://h/x.png"]
      /\ image_files (snd run)
         = [(lit "out/image_1.png", Binary [Byte.x41; Byte.x42; Byte.x43]);
            (lit "out/image_2.png", Binary [Byte.x44; Byte.x45; Byte.x46]);
            (lit "out/image_url_3.jpg", Binary [Byte.xff; Byte.xd8])]
      /\ exists text,
           read_back (files_written (snd run)) (lit "out/content.txt") = Some (Text text)
           /\ contains (lit "data:") text = false
           /\ contains (lit "http://h/x.png") text = false).
Proof.
  split.
  - intros E content dir w.
    destruct (process_base64_run E dir (finditer base64_pattern false content) content 1 w)
      as [text_b [k [new_b [Hb [Hk [Hfb [Hbb [Hgb [_ [Hrb Hcb]]]]]]]]]].
    destruct (process_urls_run E dir (finditer url_pattern true content) text_b (1 + k)
                (w ++ new_b))
      as [text [exts [new_u [Hu [He [Hfu [Hbu [Hgu [Hru [Hcu Hexts]]]]]]]]]].
    destruct (write_text_files_run E dir text content ((w ++ new_b) ++ new_u))
      as [tail [Ht Htail]].
    destruct (text_run_quiet _ _ _ _ Htail) as [Hrt [Hit [Hgt _]]].
    exists k, exts, (new_b ++ new_u ++ tail).
    repeat split; try assumption.
    + unfold save_mixed_content. cbv zeta.
      unfold try_except in *. unfold bind at 1. rewrite Hb.
      unfold bind at 1. rewrite Hu. cbn [fst].
      rewrite !app_assoc. rewrite <- !app_assoc in Ht. rewrite <- !app_assoc.
      rewrite Ht. reflexivity.
    + rewrite !image_files_app, Hit, app_nil_r, map_app, Hbb, Hbu, Hfb, Hfu. reflexivity.
    + rewrite !image_reports_app, Hrt, app_nil_r, map_app, Hrb, Hru. reflexivity.
    + rewrite !image_reports_app, Hrt, app_nil_r, filter_app.
      f_equal.
      * apply (successes_repeat _ _ _ _ Hrb Hcb).
      * apply (successes_repeat _ _ _ _ Hru Hcu).
    + rewrite !fetched_app, Hgb, Hgu, Hgt, app_nil_r. reflexivity.
    + match goal with H : forallb snd _ = true |- _ => rename H into Hall end.
      rewrite !image_reports_app, Hrt, app_nil_r in Hall.
      rewrite forallb_app in Hall. apply andb_prop in Hall. destruct Hall as [Hab Hau].
      rewrite <- Hcb, (all_successes _ Hab), <- (length_map fst), Hrb.
      apply repeat_length.
    + match goal with H : forallb snd _ = true |- _ => rename H into Hall end.
      rewrite !image_reports_app, Hrt, app_nil_r in Hall.
      rewrite forallb_app in Hall. apply andb_prop in Hall. destruct Hall as [Hab Hau].
      rewrite <- Hcu, (all_successes _ Hau), <- (length_map fst), Hru.
      apply repeat_length.
  - cbv zeta. repeat split; try (vm_compute; reflexivity).
    eexists. repeat split; vm_compute; reflexivity.
Qed.

(** ** The pipeline driver *)

Section ImageLoop.
Variable E : env.
Variable disk : str -> exn + list Byte.byte.
Hypothesis static_disk : forall w path, env_read E w path = disk path.

Lemma prepare_images_run (image_paths : list str) :
  forall (image_contents : list value) (w : world),
  exists new,
    prepare_images E image_paths image_contents w
    = (Ok (image_contents ++ encoded_images disk image_paths), w ++ new)
    /\ reads new = image_paths
    /\ filter is_network new = [].
Proof.
  induction image_paths as [|path rest IH]; intros acc w.
  - exists []. cbn. unfold ret. rewrite !app_nil_r. repeat split.
  - cbn [prepare_images]. unfold bind at 1, try_except at 1, bind at 1.
    unfold prepare_image_data, try_except, bind, read_file.
    rewrite static_disk. unfold encoded_images. cbn [flat_map].
    destruct (disk path) as [e|data]; cbn [of_sum].
    + unfold print, emit, raise, ret.
      destruct (IH acc (((w ++ [EvRead path]) ++ [EvPrint (MsgPrepareFailed path e)])
                          ++ [EvPrint (MsgImageSkipped path e)]))
        as [new [Hrun [Hreads Hnet]]].
      exists ([EvRead path; EvPrint (MsgPrepareFailed path e);
               EvPrint (MsgImageSkipped path e)] ++ new).
      rewrite Hrun. rewrite <- !app_assoc. cbn [app].
      repeat split.
      * cbn. rewrite Hreads. reflexivity.
      * cbn. exact Hnet.
    + unfold ret.
      destruct (IH (acc ++ [image_part (data_uri_prefix ++ b64encode data)])
                  (w ++ [EvRead path])) as [new [Hrun [Hreads Hnet]]].
      exists ([EvRead path] ++ new).
      rewrite Hrun. rewrite <- !app_assoc. cbn [app].
      repeat split.
      * cbn. rewrite Hreads. reflexivity.
      * cbn. exact Hnet.
Qed.

End ImageLoop.

(** In every environment the image loop reads each path and ends
    normally, without touching the network. *)
Lemma prepare_images_total (E : env) (image_paths : list str) :
  forall (image_contents : list value) (w : world),
  exists images new,
    prepare_images E image_paths image_contents w = (Ok images, w ++ new)
    /\ reads new = image_paths
    /\ filter is_network new = [].
Proof.
  induction image_paths as [|path rest IH]; intros acc w.
  - exists acc, []. cbn. unfold ret. rewrite app_nil_r. repeat split.
  - cbn [prepare_images]. unfold bind at 1, try_except at 1, bind at 1.
    unfold prepare_image_data, try_except, bind, read_file.
    destruct (env_read E w path) as [e|data]; cbn [of_sum].
    + unfold print, emit, raise, ret.
      destruct (IH acc (((w ++ [EvRead path]) ++ [EvPrint (MsgPrepareFailed path e)])
                          ++ [EvPrint (MsgImageSkipped path e)]))
        as [images [new [Hrun [Hreads Hnet]]]].
      exists images, ([EvRead path; EvPrint (MsgPrepareFailed path e);
                       EvPrint (MsgImageSkipped path e)] ++ new).
      rewrite Hrun. rewrite <- !app_assoc. cbn [app].
      repeat split.
      * cbn. rewrite Hreads. reflexivity.
      * cbn. exact Hnet.
    + unfold ret.
      destruct (IH (acc ++ [image_part (data_uri_prefix ++ b64encode data)])
                  (w ++ [EvRead path])) as [images [new [Hrun [Hreads Hnet]]]].
      exists images, ([EvRead path] ++ new).
      rewrite Hrun. rewrite <- !app_assoc. cbn [app].
      repeat split.
      * cbn. rewrite Hreads. reflexivity.
      * cbn. exact Hnet.
Qed.

(** C9. The driver tries to encode every configured image, in any
    environment: a file that cannot be read is reported and skipped, and
    the loop goes on with the next path, so every path is read and the
    loop ends normally without a network call; on a disk whose answers do
    not change, the images sent are those of the readable files, in order.
    When no image could be encoded, the script prints its message and exits
    with status 1, and the whole run contains no network call. *)
Theorem C9_unreadable_images (E : env) (cfg : config) (w : world) :
  exists images new,
    prepare_images E (configured_paths cfg) [] w = (Ok images, w ++ new)
    /\ reads new = configured_paths cfg
    /\ filter is_network new = []
    /\ (forall disk,
           (forall w' path, env_read E w' path = disk path) ->
           images = encoded_images disk (configured_paths cfg))
    /\ (images = [] ->
        main E cfg w = (Ok (Exited 1), w ++ new ++ [EvPrint MsgNoImages])
        /\ filter is_network (new ++ [EvPrint MsgNoImages]) = []).
Proof.
  destruct (prepare_images_total E (configured_paths cfg) [] w)
    as [images [new [Hrun [Hreads Hnet]]]].
  exists images, new. repeat split; try assumption.
  - intros disk Hdisk.
    destruct (prepare_images_run E disk Hdisk (configured_paths cfg) [] w)
      as [new' [Hrun' _]].
    rewrite Hrun in Hrun'. cbn [app] in Hrun'. congruence.
  - unfold main. fold (configured_paths cfg). unfold bind at 1. rewrite Hrun.
    match goal with Himg : images = [] |- _ => rewrite Himg end.
    unfold bind, print, emit, ret. rewrite <- app_assoc. reflexivity.
  - rewrite filter_app, Hnet. reflexivity.
Qed.

(** ** Computations that post nothing *)

Create HintDb no_post.

Lemma no_post_ret {A} (a : A) : no_post (ret a).
Proof. intros w. exists (Ok a), []. rewrite app_nil_r. split; reflexivity. Qed.

Lemma no_post_raise {A} (e : exn) : no_post (@raise A e).
Proof. intros w. exists (Raise e), []. rewrite app_nil_r. split; reflexivity. Qed.

Lemma no_post_lift {A} (r : result A) : no_post (lift r).
Proof. intros w. exists r, []. rewrite app_nil_r. split; reflexivity. Qed.

Lemma no_post_print (m : message) : no_post (print m).
Proof. intros w. exists (Ok tt), [EvPrint m]. split; reflexivity. Qed.

Lemma no_post_write_file (E : env) (path : str) (f : file) : no_post (write_file E path f).
Proof.
  intros w. unfold write_file. destruct (env_write E w path f) as [e|].
  - exists (Raise e), [EvWriteFailed path]. split; reflexivity.
  - exists (Ok tt), [EvWrote path f]. split; reflexivity.
Qed.

Lemma no_post_bind {A B} (m : M A) (k : A -> M B) :
  no_post m -> (forall a, no_post (k a)) -> no_post (bind m k).
Proof.
  intros Hm Hk w. unfold bind. destruct (Hm w) as [res [new [Hrun Hq]]]. rewrite Hrun.
  destruct res as [a|e].
  - destruct (Hk a (w ++ new)) as [res' [new' [Hrun' Hq']]].
    exists res', (new ++ new'). rewrite Hrun', <- app_assoc, filter_app, Hq, Hq'.
    split; reflexivity.
  - exists (Raise e), new. split; [reflexivity | exact Hq].
Qed.

#[local] Hint Resolve no_post_ret no_post_raise no_post_lift no_post_print
  no_post_write_file : no_post.
#[local] Hint Extern 2 (no_post (bind _ _)) =>
  apply no_post_bind; [| intros ?] : no_post.

Lemma post_then_no_post {A} (E : env) (url : str) (d : value)
    (k : http_response -> M A) (h : exn -> M A) :
  (forall r, no_post (k r)) ->
  (forall e, no_post (h e)) ->
  forall w,
  exists res new,
    try_except (bind (http_post E url d) k) h w = (res, w ++ new)
    /\ filter is_post new = [EvPost url d].
Proof.
  intros Hk Hh w. unfold try_except, bind, http_post.
  destruct (env_post E w url d) as [e|r]; cbn [of_sum].
  - destruct (Hh e (w ++ [EvPost url d])) as [res [new [Hrun Hq]]].
    exists res, (EvPost url d :: new). rewrite Hrun, <- app_assoc.
    split; [reflexivity |]. cbn. rewrite Hq. reflexivity.
  - destruct (Hk r (w ++ [EvPost url d])) as [res [new [Hrun Hq]]].
    rewrite Hrun. destruct res as [v|e].
    + exists (Ok v), (EvPost url d :: new). rewrite <- app_assoc.
      split; [reflexivity |]. cbn. rewrite Hq. reflexivity.
    + destruct (Hh e ((w ++ [EvPost url d]) ++ new)) as [res [new' [Hrun' Hq']]].
      exists res, (EvPost url d :: new ++ new'). rewrite Hrun', <- !app_assoc.
      split; [reflexivity |]. cbn. rewrite filter_app, Hq, Hq'. reflexivity.
Qed.

(** ** The primary transport *)

Lemma read_stream_skips_malformed (E : env) (payload : str) (lines1 lines2 : list str) :
  env_json_loads E payload = None ->
  forall full_content all_chunks,
    read_stream E (lines1 ++ (lit "data: " ++ payload) :: lines2) full_content all_chunks
    = read_stream E (lines1 ++ lines2) full_content all_chunks.
Proof.
  intros Hbad. induction lines1 as [|line lines1 IH]; intros fc chunks.
  - cbn [app read_stream lit list_ascii_of_string startswith Ascii.eqb Bool.eqb andb skipn].
    rewrite Hbad. destruct (negb _); reflexivity.
  - cbn [app read_stream]. destruct line as [|c line]; [apply IH |].
    destruct (startswith (lit "data: ") (c :: line)); [| apply IH].
    destruct (negb (str_eqb (skipn 6 (c :: line)) (lit "[DONE]"))); [| apply IH].
    destruct (env_json_loads E (skipn 6 (c :: line))) as [chunk|]; [| apply IH].
    unfold rbind. destruct (chunk_content chunk fc); [apply IH | reflexivity].
Qed.

Section StreamingCall.
Variable E : env.
Variables (base_url model : str) (messages : value) (output_dir : option str).
Variable w : world.

Let url := endpoint base_url.
Let data := request_data model messages true.

Lemma call_api_raw_post_failed (e : exn) :
  env_post E w url data = inl e ->
  call_api_raw E base_url model messages true output_dir w
  = (Raise e, w ++ failed_post url data e).
Proof.
  intros Hpost. unfold call_api_raw, try_except, bind at 1, http_post.
  fold (endpoint base_url) (request_data model messages true). fold url data.
  rewrite Hpost. cbn [of_sum]. unfold failed_post.
  destruct (is_request_exception e).
  - unfold bind, print, emit, raise. rewrite <- app_assoc. reflexivity.
  - reflexivity.
Qed.

Lemma call_api_raw_status_error (r : http_response) :
  env_post E w url data = inr r ->
  is_error_status (resp_status r) = true ->
  call_api_raw E base_url model messages true output_dir w
  = (Raise (RequestException (lit "HTTPError")),
     w ++ failed_post url data (RequestException (lit "HTTPError"))).
Proof.
  intros Hpost Hstatus. unfold call_api_raw, try_except, bind at 1, http_post.
  fold (endpoint base_url) (request_data model messages true). fold url data.
  rewrite Hpost. cbn [of_sum]. unfold bind at 1, raise_for_status.
  unfold is_error_status in Hstatus. rewrite Hstatus.
  unfold raise at 1. cbn [is_request_exception failed_post].
  unfold bind, print, emit, raise. rewrite <- app_assoc. reflexivity.
Qed.

Lemma call_api_raw_stream_broken (r : http_response) (e : exn)
    (st : str * list value) :
  env_post E w url data = inr r ->
  is_error_status (resp_status r) = false ->
  read_stream E (resp_lines r) [] [] = Ok st ->
  resp_broken r = Some e ->
  call_api_raw E base_url model messages true output_dir w
  = (Raise e, w ++ failed_post url data e).
Proof.
  intros Hpost Hstatus Hlines Hbroken. unfold call_api_raw, try_except, bind at 1, http_post.
  fold (endpoint base_url) (request_data model messages true). fold url data.
  rewrite Hpost. cbn [of_sum]. unfold bind at 1, raise_for_status.
  unfold is_error_status in Hstatus. rewrite Hstatus.
  unfold ret at 1. unfold bind at 1, bind at 1, lift. rewrite Hlines.
  unfold bind at 1. rewrite Hbroken. unfold raise at 1. unfold failed_post.
  destruct (is_request_exception e).
  - unfold bind, print, emit, raise. rewrite <- app_assoc. reflexivity.
  - reflexivity.
Qed.

(** Without streaming, a body that is no JSON does fail the call. *)
Lemma call_api_raw_json_failed (r : http_response) (e : exn) :
  env_post E w url (request_data model messages false) = inr r ->
  is_error_status (resp_status r) = false ->
  resp_json r = inl e ->
  call_api_raw E base_url model messages false output_dir w
  = (Raise e, w ++ failed_post url (request_data model messages false) e).
Proof.
  intros Hpost Hstatus Hjson. unfold call_api_raw, try_except, bind at 1, http_post.
  fold (endpoint base_url) (request_data model messages false). fold url.
  rewrite Hpost. cbn [of_sum]. unfold bind at 1, raise_for_status.
  unfold is_error_status in Hstatus. rewrite Hstatus.
  unfold ret at 1. unfold bind at 1, lift. rewrite Hjson. cbn [of_sum].
  unfold failed_post. destruct (is_request_exception e).
  - unfold bind, print, emit, raise. rewrite <- app_assoc. reflexivity.
  - reflexivity.
Qed.

(** Whatever happens, the request is posted once. *)
Lemma call_api_raw_posts_once (use_stream : bool) :
  exists res new,
    call_api_raw E base_url model messages use_stream output_dir w = (res, w ++ new)
    /\ filter is_post new = [EvPost url (request_data model messages use_stream)].
Proof.
  unfold call_api_raw.
  fold (endpoint base_url) (request_data model messages use_stream). fold url.
  apply post_then_no_post.
  - intros r. apply no_post_bind; [unfold raise_for_status; destruct (_ && _)%bool; auto with no_post |].
    intros _. apply no_post_bind.
    + destruct use_stream; [| auto with no_post].
      apply no_post_bind; [auto with no_post |]. intros st.
      apply no_post_bind; [destruct (resp_broken r); auto with no_post |]. intros _.
      apply no_post_bind; [| auto with no_post].
      destruct output_dir as [dir|]; [destruct (is_set (Some dir)) |]; auto with no_post.
    + intros v. apply no_post_bind; [| auto with no_post].
      destruct output_dir as [dir|]; [destruct (is_set (Some dir)) |]; auto with no_post.
  - intros e. destruct (is_request_exception e); auto with no_post.
Qed.

End StreamingCall.

(** C3 (amended). In the streaming transport a failure of the POST, an
    error status and a failure of the stream while it is read all reach
    the caller at once (the handler of line 272 only prints), and the
    request is posted exactly once whatever happens: there is no retry.
    A [data:] line whose payload is not valid JSON is not a failure: it is
    skipped (line 235) and the call goes on as if the line were absent.
    (Only without streaming does malformed JSON fail the call, at line
    262.) *)
Theorem C3_streaming_transport (E : env) (base_url model : str) (messages : value)
    (output_dir : option str) (w : world) :
  let url := endpoint base_url in
  let data := request_data model messages true in
  let call := call_api_raw E base_url model messages true output_dir w in
  (forall e, env_post E w url data = inl e ->
             call = (Raise e, w ++ failed_post url data e))
  /\ (forall r, env_post E w url data = inr r ->
                is_error_status (resp_status r) = true ->
                call = (Raise (RequestException (lit "HTTPError")),
                        w ++ failed_post url data (RequestException (lit "HTTPError"))))
  /\ (forall r e st, env_post E w url data = inr r ->
                     is_error_status (resp_status r) = false ->
                     read_stream E (resp_lines r) [] [] = Ok st ->
                     resp_broken r = Some e ->
                     call = (Raise e, w ++ failed_post url data e))
  /\ (exists res new, call = (res, w ++ new) /\ filter is_post new = [EvPost url data])
  /\ (forall payload lines1 lines2 full_content all_chunks,
         env_json_loads E payload = None ->
         read_stream E (lines1 ++ (lit "data: " ++ payload) :: lines2) full_content all_chunks
         = read_stream E (lines1 ++ lines2) full_content all_chunks)
  /\ (forall r e, env_post E w url (request_data model messages false) = inr r ->
                  is_error_status (resp_status r) = false ->
                  resp_json r = inl e ->
                  call_api_raw E base_url model messages false output_dir w
                  = (Raise e, w ++ failed_post url (request_data model messages false) e)).
Proof.
  cbv zeta. split; [| split; [| split; [| split; [| split]]]].
  - apply call_api_raw_post_failed.
  - apply call_api_raw_status_error.
  - intros r e st. apply call_api_raw_stream_broken.
  - apply call_api_raw_posts_once.
  - intros payload lines1 lines2 fc chunks Hbad.
    apply read_stream_skips_malformed. exact Hbad.
  - apply call_api_raw_json_failed.
Qed.

(** C3, as stated, fails for malformed JSON: the server answers 200 and
    streams a [data:] line that [json.loads] rejects; the call returns a
    response with an empty content instead of raising. *)
Lemma C3_counterexample :
  env_post Sample.host [] (lit "https://api.example/v1/chat/completions")
    (request_data (lit "gemini") (VList []) true)
  = inr (Sample.response 200 (lit "text/event-stream") []
           [lit "data: {oops"; lit "data: [DONE]"])
  /\ env_json_loads Sample.host (lit "{oops") = None
  /\ call_api_raw Sample.host (lit "https://api.example/v1") (lit "gemini") (VList [])
       true None []
     = (Ok (stream_response [] []),
        [EvPost (lit "https://api.example/v1/chat/completions")
           (request_data (lit "gemini") (VList []) true)]).
Proof. repeat split; reflexivity. Qed.

(** ** From the response to the content string *)

Lemma str_eqb_refl (s : str) : str_eqb s s = true.
Proof. unfold str_eqb. destruct (list_eq_dec ascii_dec s s); congruence. Qed.

Lemma str_eqb_eq (a b : str) : str_eqb a b = true <-> a = b.
Proof. unfold str_eqb. destruct (list_eq_dec ascii_dec a b); split; congruence. Qed.

Lemma client_response_content_fields (E : env) (attrs attrs' : list (str * value)) :
  lookup (lit "content") attrs = lookup (lit "content") attrs' ->
  lookup (lit "images") attrs = lookup (lit "images") attrs' ->
  client_response_content E (client_completion attrs)
  = client_response_content E (client_completion attrs').
Proof.
  intros Hc Hi. unfold client_response_content, client_completion.
  cbn [py_getattr lookup rbind py_first]. rewrite str_eqb_refl.
  cbn [py_getattr lookup rbind py_first]. rewrite str_eqb_refl.
  cbn [py_getattr lookup rbind py_first].
  rewrite Hc, Hi. reflexivity.
Qed.

Lemma rbind_ok {A} (r : result A) : rbind r (fun a => Ok a) = r.
Proof. destruct r; reflexivity. Qed.

Lemma raw_single_field (E : env) (c : str) (field : str) (v : value) :
  In field possible_image_fields ->
  raw_response_content E (raw_completion [(lit "content", VStr c); (field, v)])
  = if truthy v then
      match v with
      | VList imgs => append_image_items E (VStr c) imgs
      | VStr s => append_image_string (VStr c) s
      | _ => Ok (VStr c)
      end
    else Ok (VStr c).
Proof.
  intros Hin. cbn in Hin.
  decompose [or] Hin; try contradiction; subst field;
    unfold raw_response_content, raw_completion;
    cbn -[truthy append_image_items append_image_string];
    apply rbind_ok.
Qed.

(** C4 (amended). On the raw path the six fields [images], [image],
    [attachments], [media], [files] and [data] of the message are all
    inspected: a field holding a non-empty list or string has its string
    items appended to the content (as a [data:image/png;base64,] URI unless
    they already start with [data:]) and, for items that are objects, their
    [data], [url] or [base64] entry; a response synthesised from a stream
    has none of these fields, so its content is left as it is.  On the
    fallback path only the attribute [images] is inspected: the content
    depends on no other attribute of the message. *)
Theorem C4_vendor_fields (E : env) :
  (forall c field v,
      In field possible_image_fields ->
      raw_response_content E (raw_completion [(lit "content", VStr c); (field, v)])
      = if truthy v then
          match v with
          | VList imgs => append_image_items E (VStr c) imgs
          | VStr s => append_image_string (VStr c) s
          | _ => Ok (VStr c)
          end
        else Ok (VStr c))
  /\ (forall c field img,
         In field possible_image_fields ->
         startswith (lit "data:") img = false ->
         raw_response_content E
           (raw_completion [(lit "content", VStr c); (field, VList [VStr img])])
         = Ok (VStr (c ++ newline ++ data_uri_prefix ++ img)))
  /\ (forall c field img,
         In field possible_image_fields ->
         startswith (lit "data:") img = true ->
         raw_response_content E
           (raw_completion [(lit "content", VStr c); (field, VList [VStr img])])
         = Ok (VStr (c ++ newline ++ img)))
  /\ (forall c field u,
         In field possible_image_fields ->
         raw_response_content E
           (raw_completion [(lit "content", VStr c);
                            (field, VList [VDict [(lit "url", VStr u)]])])
         = Ok (VStr (c ++ newline ++ u)))
  /\ (forall c chunks,
         raw_response_content E (stream_response c chunks) = Ok (VStr c))
  /\ (forall attrs attrs',
         lookup (lit "content") attrs = lookup (lit "content") attrs' ->
         lookup (lit "images") attrs = lookup (lit "images") attrs' ->
         client_response_content E (client_completion attrs)
         = client_response_content E (client_completion attrs'))
  /\ (forall c img,
         client_response_content E
           (client_completion [(lit "content", VStr c); (lit "images", VList [VStr img])])
         = Ok (VStr (c ++ newline ++ data_uri_prefix ++ img))).
Proof.
  split; [| split; [| split; [| split; [| split; [| split]]]]].
  - intros c field v Hin. apply raw_single_field. exact Hin.
  - intros c field img Hin Hdata. rewrite raw_single_field by exact Hin.
    cbn [truthy append_image_items rbind append_image_item].
    unfold append_image_string. rewrite Hdata. reflexivity.
  - intros c field img Hin Hdata. rewrite raw_single_field by exact Hin.
    cbn [truthy append_image_items rbind append_image_item].
    unfold append_image_string. rewrite Hdata. reflexivity.
  - intros c field u Hin. rewrite raw_single_field by exact Hin. reflexivity.
  - intros c chunks. reflexivity.
  - apply client_response_content_fields.
  - intros c img. reflexivity.
Qed.

(** C4, as stated, fails on the fallback path: a non-empty [attachments]
    field of the client's message is not appended to the content, whereas
    the same field of a raw response is. *)
Lemma C4_counterexample :
  client_response_content Sample.host
    (client_completion [(lit "content", VStr (lit "A cat."));
                        (lit "attachments", VList [VStr (lit "QUJD")])])
  = Ok (VStr (lit "A cat."))
  /\ raw_response_content Sample.host
       (raw_completion [(lit "content", VStr (lit "A cat."));
                        (lit "attachments", VList [VStr (lit "QUJD")])])
     = Ok (VStr (lit "A cat." ++ newline ++ lit "data:image/png;base64,QUJD")).
Proof. split; reflexivity. Qed.

(** ** Base64 *)

Lemma below_exhaustion (k : nat) (P : N -> bool) :
  forallb P (numbers_below k) = true ->
  forall x, (x < N.of_nat k)%N -> P x = true.
Proof.
  intros Hall x Hx. rewrite forallb_forall in Hall. apply Hall.
  unfold numbers_below. rewrite <- (N2Nat.id x). apply in_map. apply in_seq. lia.
Qed.

Lemma by_exhaustion (P : N -> bool) :
  forallb P (numbers_below 256) = true -> forall x, (x < 256)%N -> P x = true.
Proof. intros Hall x Hx. apply (below_exhaustion 256 P Hall). exact Hx. Qed.

Lemma by_exhaustion2 (P : N -> N -> bool) :
  forallb (fun a => forallb (P a) (numbers_below 256)) (numbers_below 256) = true ->
  forall a b, (a < 256)%N -> (b < 256)%N -> P a b = true.
Proof.
  intros Hall a b Ha Hb.
  apply (by_exhaustion (P a)); [| exact Hb].
  apply (by_exhaustion (fun a => forallb (P a) (numbers_below 256)) Hall a Ha).
Qed.

Lemma byte_to_N_lt (b : Byte.byte) : (Byte.to_N b < 256)%N.
Proof. pose proof (Byte.to_N_bounded b). lia. Qed.

Lemma byte_of_to_N (b : Byte.byte) : byte_of_N (Byte.to_N b) = b.
Proof. destruct b; reflexivity. Qed.

(** The digits of the alphabet decode to themselves, are none of them the
    padding character, and belong to the class of the pattern. *)
Lemma digit_facts (n : N) :
  (n < 64)%N ->
  value_of (digit n) = Some n
  /\ Ascii.eqb (digit n) "=" = false
  /\ is_base64_char (digit n) = true.
Proof.
  intros Hn.
  assert (H : digit_ok n = true).
  { apply (below_exhaustion 64 digit_ok); [vm_compute; reflexivity | exact Hn]. }
  unfold digit_ok in H.
  apply andb_prop in H. destruct H as [H H3].
  apply andb_prop in H. destruct H as [H1 H2].
  destruct (value_of (digit n)) as [m|]; [| discriminate].
  apply N.eqb_eq in H1. subst m.
  apply negb_true_iff in H2. auto.
Qed.

(** The sextets of a group are digits. *)
Lemma sextet0_lt (a : N) : (a < 256)%N -> (sextet0 a < 64)%N.
Proof.
  intros Ha. apply N.ltb_lt.
  apply (by_exhaustion (fun a => (sextet0 a <? 64)%N)); [vm_compute; reflexivity | exact Ha].
Qed.

Lemma sextet1_lt (a b : N) : (a < 256)%N -> (b < 256)%N -> (sextet1 a b < 64)%N.
Proof.
  intros Ha Hb. apply N.ltb_lt.
  apply (by_exhaustion2 (fun a b => (sextet1 a b <? 64)%N));
    [vm_compute; reflexivity | exact Ha | exact Hb].
Qed.

Lemma sextet2_lt (b c : N) : (b < 256)%N -> (c < 256)%N -> (sextet2 b c < 64)%N.
Proof.
  intros Hb Hc. apply N.ltb_lt.
  apply (by_exhaustion2 (fun b c => (sextet2 b c <? 64)%N));
    [vm_compute; reflexivity | exact Hb | exact Hc].
Qed.

Lemma sextet3_lt (c : N) : (c < 256)%N -> (sextet3 c < 64)%N.
Proof.
  intros Hc. apply N.ltb_lt.
  apply (by_exhaustion (fun c => (sextet3 c <? 64)%N)); [vm_compute; reflexivity | exact Hc].
Qed.

(** The three bytes come back from the four sextets. *)
Lemma first_byte (a b : N) :
  (a < 256)%N -> (b < 256)%N ->
  N.lor (N.shiftl (sextet0 a) 2) (N.shiftr (sextet1 a b) 4) = a.
Proof.
  intros Ha Hb. apply N.eqb_eq.
  apply (by_exhaustion2
           (fun a b => N.eqb (N.lor (N.shiftl (sextet0 a) 2) (N.shiftr (sextet1 a b) 4)) a));
    [vm_compute; reflexivity | exact Ha | exact Hb].
Qed.

Lemma second_left (a b : N) :
  (a < 256)%N -> (b < 256)%N -> N.land (sextet1 a b) 15 = N.shiftr b 4.
Proof.
  intros Ha Hb. apply N.eqb_eq.
  apply (by_exhaustion2 (fun a b => N.eqb (N.land (sextet1 a b) 15) (N.shiftr b 4)));
    [vm_compute; reflexivity | exact Ha | exact Hb].
Qed.

Lemma second_byte (b c : N) :
  (b < 256)%N -> (c < 256)%N ->
  N.lor (N.shiftl (N.shiftr b 4) 4) (N.shiftr (sextet2 b c) 2) = b.
Proof.
  intros Hb Hc. apply N.eqb_eq.
  apply (by_exhaustion2
           (fun b c => N.eqb (N.lor (N.shiftl (N.shiftr b 4) 4) (N.shiftr (sextet2 b c) 2)) b));
    [vm_compute; reflexivity | exact Hb | exact Hc].
Qed.

Lemma third_byte (b c : N) :
  (b < 256)%N -> (c < 256)%N ->
  N.lor (N.shiftl (N.land (sextet2 b c) 3) 6) (sextet3 c) = c.
Proof.
  intros Hb Hc. apply N.eqb_eq.
  apply (by_exhaustion2
           (fun b c => N.eqb (N.lor (N.shiftl (N.land (sextet2 b c) 3) 6) (sextet3 c)) c));
    [vm_compute; reflexivity | exact Hb | exact Hc].
Qed.

Lemma last_sextet_of_one (a : N) :
  (a < 256)%N ->
  (N.shiftl (N.land a 3) 4 < 64)%N
  /\ N.lor (N.shiftl (sextet0 a) 2) (N.shiftr (N.shiftl (N.land a 3) 4) 4) = a.
Proof.
  intros Ha.
  assert (H : ((N.shiftl (N.land a 3) 4 <? 64)%N
               && N.eqb (N.lor (N.shiftl (sextet0 a) 2)
                           (N.shiftr (N.shiftl (N.land a 3) 4) 4)) a) = true).
  { apply (by_exhaustion
             (fun a => (N.shiftl (N.land a 3) 4 <? 64)%N
                       && N.eqb (N.lor (N.shiftl (sextet0 a) 2)
                                   (N.shiftr (N.shiftl (N.land a 3) 4) 4)) a));
      [vm_compute; reflexivity | exact Ha]. }
  apply andb_prop in H. destruct H as [H1 H2].
  apply N.ltb_lt in H1. apply N.eqb_eq in H2. auto.
Qed.

Lemma last_sextet_of_two (b : N) :
  (b < 256)%N ->
  (N.shiftl (N.land b 15) 2 < 64)%N
  /\ N.lor (N.shiftl (N.shiftr b 4) 4) (N.shiftr (N.shiftl (N.land b 15) 2) 2) = b.
Proof.
  intros Hb.
  assert (H : ((N.shiftl (N.land b 15) 2 <? 64)%N
               && N.eqb (N.lor (N.shiftl (N.shiftr b 4) 4)
                           (N.shiftr (N.shiftl (N.land b 15) 2) 2)) b) = true).
  { apply (by_exhaustion
             (fun b => (N.shiftl (N.land b 15) 2 <? 64)%N
                       && N.eqb (N.lor (N.shiftl (N.shiftr b 4) 4)
                                   (N.shiftr (N.shiftl (N.land b 15) 2) 2)) b));
      [vm_compute; reflexivity | exact Hb]. }
  apply andb_prop in H. destruct H as [H1 H2].
  apply N.ltb_lt in H1. apply N.eqb_eq in H2. auto.
Qed.

(** One step of the decoder on a digit, at each position of a group. *)
Lemma a2b_digit (n : N) (rest : str) (quad_pos : nat) (leftchar : N) (pads : nat) :
  (n < 64)%N ->
  a2b_base64 (digit n :: rest) quad_pos leftchar pads =
  match quad_pos with
  | 0 => a2b_base64 rest 1 n 0
  | 1 =>
      option_map (cons (byte_of_N (N.lor (N.shiftl leftchar 2) (N.shiftr n 4))))
        (a2b_base64 rest 2 (N.land n 15) 0)
  | 2 =>
      option_map (cons (byte_of_N (N.lor (N.shiftl leftchar 4) (N.shiftr n 2))))
        (a2b_base64 rest 3 (N.land n 3) 0)
  | _ =>
      option_map (cons (byte_of_N (N.lor (N.shiftl leftchar 6) n)))
        (a2b_base64 rest 0 0%N 0)
  end.
Proof.
  intros Hn. destruct (digit_facts n Hn) as [Hv [Hpad _]].
  cbn [a2b_base64]. rewrite Hpad, Hv. reflexivity.
Qed.

Lemma base64_char_ascii (c : ascii) :
  is_base64_char c = true -> (128 <=? code c)%N = false.
Proof.
  intros H. destruct c as [[] [] [] [] [] [] [] []]; try reflexivity; discriminate.
Qed.

Lemma base64_chars_ascii (s : str) :
  forallb is_base64_char s = true ->
  existsb (fun c => (128 <=? code c)%N) s = false.
Proof.
  induction s as [|c s IH]; intros H; [reflexivity |].
  cbn [forallb] in H. apply andb_prop in H. destruct H as [Hc Hs].
  cbn [existsb]. rewrite (base64_char_ascii c Hc), (IH Hs). reflexivity.
Qed.

Lemma b64encode_group (a b c : Byte.byte) (rest : list Byte.byte) :
  b64encode (a :: b :: c :: rest) =
  digit (sextet0 (Byte.to_N a))
  :: digit (sextet1 (Byte.to_N a) (Byte.to_N b))
  :: digit (sextet2 (Byte.to_N b) (Byte.to_N c))
  :: digit (sextet3 (Byte.to_N c))
  :: b64encode rest.
Proof. reflexivity. Qed.

(** A full group of four digits gives back its three bytes. *)
Lemma a2b_group (a b c : Byte.byte) (tail : str) :
  a2b_base64
    (digit (sextet0 (Byte.to_N a))
     :: digit (sextet1 (Byte.to_N a) (Byte.to_N b))
     :: digit (sextet2 (Byte.to_N b) (Byte.to_N c))
     :: digit (sextet3 (Byte.to_N c)) :: tail) 0 0%N 0
  = option_map (fun data => a :: b :: c :: data) (a2b_base64 tail 0 0%N 0).
Proof.
  pose proof (byte_to_N_lt a) as Ha.
  pose proof (byte_to_N_lt b) as Hb.
  pose proof (byte_to_N_lt c) as Hc.
  rewrite a2b_digit by (apply sextet0_lt; exact Ha).
  rewrite a2b_digit by (apply sextet1_lt; assumption).
  rewrite a2b_digit by (apply sextet2_lt; assumption).
  rewrite a2b_digit by (apply sextet3_lt; exact Hc).
  rewrite first_byte by assumption.
  rewrite second_left by assumption.
  rewrite second_byte by assumption.
  rewrite third_byte by assumption.
  rewrite !byte_of_to_N.
  destruct (a2b_base64 tail 0 0%N 0); reflexivity.
Qed.

Lemma a2b_last_one (a : Byte.byte) : a2b_base64 (b64encode [a]) 0 0%N 0 = Some [a].
Proof.
  pose proof (byte_to_N_lt a) as Ha.
  destruct (last_sextet_of_one _ Ha) as [Hlt Hbyte].
  cbn [b64encode].
  change (N.shiftr (Byte.to_N a) 2) with (sextet0 (Byte.to_N a)).
  rewrite a2b_digit by (apply sextet0_lt; exact Ha).
  rewrite a2b_digit by exact Hlt.
  rewrite Hbyte, byte_of_to_N. reflexivity.
Qed.

Lemma a2b_last_two (a b : Byte.byte) :
  a2b_base64 (b64encode [a; b]) 0 0%N 0 = Some [a; b].
Proof.
  pose proof (byte_to_N_lt a) as Ha.
  pose proof (byte_to_N_lt b) as Hb.
  destruct (last_sextet_of_two _ Hb) as [Hlt Hbyte].
  cbn [b64encode].
  change (N.shiftr (Byte.to_N a) 2) with (sextet0 (Byte.to_N a)).
  change (N.lor (N.shiftl (N.land (Byte.to_N a) 3) 4) (N.shiftr (Byte.to_N b) 4))
    with (sextet1 (Byte.to_N a) (Byte.to_N b)).
  rewrite a2b_digit by (apply sextet0_lt; exact Ha).
  rewrite a2b_digit by (apply sextet1_lt; assumption).
  rewrite a2b_digit by exact Hlt.
  rewrite first_byte by assumption.
  rewrite second_left by assumption.
  rewrite Hbyte, !byte_of_to_N. reflexivity.
Qed.

Lemma a2b_b64encode (data : list Byte.byte) :
  a2b_base64 (b64encode data) 0 0%N 0 = Some data.
Proof.
  assert (H : forall n data, List.length data <= n ->
                             a2b_base64 (b64encode data) 0 0%N 0 = Some data).
  { clear data. induction n as [|n IH]; intros data Hlen.
    - destruct data; [reflexivity | simpl in Hlen; lia].
    - destruct data as [|a [|b [|c rest]]].
      + reflexivity.
      + apply a2b_last_one.
      + apply a2b_last_two.
      + rewrite b64encode_group, a2b_group.
        rewrite IH; [reflexivity |]. simpl in Hlen. lia. }
  apply (H (List.length data)). lia.
Qed.

(** The encoding only uses characters of the pattern's class, and is
    empty for the empty input only. *)
Lemma b64encode_chars (data : list Byte.byte) :
  forallb is_base64_char (b64encode data) = true.
Proof.
  assert (H : forall n data, List.length data <= n ->
                             forallb is_base64_char (b64encode data) = true).
  { clear data. induction n as [|n IH]; intros data Hlen.
    - destruct data; [reflexivity | simpl in Hlen; lia].
    - destruct data as [|a [|b [|c rest]]].
      + reflexivity.
      + pose proof (byte_to_N_lt a) as Ha.
        destruct (last_sextet_of_one _ Ha) as [Hlt _].
        cbn [b64encode forallb].
        change (N.shiftr (Byte.to_N a) 2) with (sextet0 (Byte.to_N a)).
        rewrite (proj2 (proj2 (digit_facts _ (sextet0_lt _ Ha)))).
        rewrite (proj2 (proj2 (digit_facts _ Hlt))). reflexivity.
      + pose proof (byte_to_N_lt a) as Ha.
        pose proof (byte_to_N_lt b) as Hb.
        destruct (last_sextet_of_two _ Hb) as [Hlt _].
        cbn [b64encode forallb].
        change (N.shiftr (Byte.to_N a) 2) with (sextet0 (Byte.to_N a)).
        change (N.lor (N.shiftl (N.land (Byte.to_N a) 3) 4) (N.shiftr (Byte.to_N b) 4))
          with (sextet1 (Byte.to_N a) (Byte.to_N b)).
        rewrite (proj2 (proj2 (digit_facts _ (sextet0_lt _ Ha)))).
        rewrite (proj2 (proj2 (digit_facts _ (sextet1_lt _ _ Ha Hb)))).
        rewrite (proj2 (proj2 (digit_facts _ Hlt))). reflexivity.
      + pose proof (byte_to_N_lt a) as Ha.
        pose proof (byte_to_N_lt b) as Hb.
        pose proof (byte_to_N_lt c) as Hc.
        rewrite b64encode_group. cbn [forallb].
        rewrite (proj2 (proj2 (digit_facts _ (sextet0_lt _ Ha)))).
        rewrite (proj2 (proj2 (digit_facts _ (sextet1_lt _ _ Ha Hb)))).
        rewrite (proj2 (proj2 (digit_facts _ (sextet2_lt _ _ Hb Hc)))).
        rewrite (proj2 (proj2 (digit_facts _ (sextet3_lt _ Hc)))).
        cbn [andb]. apply IH. simpl in Hlen. lia. }
  apply (H (List.length data)). lia.
Qed.

(** Decoding undoes encoding. *)
Lemma b64decode_b64encode (data : list Byte.byte) :
  b64decode (b64encode data) = Some data.
Proof.
  unfold b64decode.
  rewrite (base64_chars_ascii _ (b64encode_chars data)). apply a2b_b64encode.
Qed.

Lemma b64encode_nonempty (data : list Byte.byte) :
  data <> [] -> b64encode data <> [].
Proof.
  intros Hne. destruct data as [|a [|b [|c rest]]]; [congruence | | |]; discriminate.
Qed.

(** ** The base64 pattern on an embedded span *)

Lemma plus_match_stops {A} (class : ascii -> bool) (post : str) (k : str -> option A) :
  post = [] \/ (exists c rest, post = c :: rest /\ class c = false) ->
  plus_match class post k = None.
Proof.
  intros [-> | [c [rest [-> Hc]]]]; [reflexivity |].
  cbn [plus_match]. rewrite Hc. reflexivity.
Qed.

(** A greedy repetition takes a whole run of the class when the rest of
    the pattern then succeeds. *)
Lemma plus_match_run {A} (class : ascii -> bool) (chars post : str)
    (k : str -> option A) (v : A) :
  chars <> [] ->
  forallb class chars = true ->
  post = [] \/ (exists c rest, post = c :: rest /\ class c = false) ->
  k post = Some v ->
  plus_match class (chars ++ post) k = Some v.
Proof.
  intros Hne Hall Hpost Hk. induction chars as [|c chars IH]; [congruence |].
  cbn [forallb] in Hall. apply andb_prop in Hall. destruct Hall as [Hc Hall].
  cbn [app plus_match]. rewrite Hc.
  destruct chars as [|c' chars].
  - cbn [app]. rewrite (plus_match_stops class post k Hpost). exact Hk.
  - rewrite IH; [reflexivity | discriminate | exact Hall].
Qed.

Lemma firstn_length_app {A} (a b : list A) :
  firstn (List.length (a ++ b) - List.length b) (a ++ b) = a.
Proof.
  rewrite length_app, Nat.add_sub. rewrite firstn_app, Nat.sub_diag, firstn_all.
  cbn. apply app_nil_r.
Qed.

Lemma match_at_span (payload post : str) :
  payload <> [] ->
  forallb is_base64_char payload = true ->
  post = [] \/ (exists c rest, post = c :: rest /\ is_base64_char c = false) ->
  match_at false base64_pattern (data_uri_prefix ++ payload ++ post)
  = Some ({| group0 := data_uri_prefix ++ payload; groups := [payload] |}, post).
Proof.
  intros Hne Hall Hpost.
  unfold match_at.
  set (K := fun (caps : list str) (rest : str) =>
              Some ({| group0 :=
                         firstn (List.length (data_uri_prefix ++ payload ++ post)
                                 - List.length rest)
                           (data_uri_prefix ++ payload ++ post);
                       groups := caps |}, rest)).
  unfold base64_pattern.
  cbn [run data_uri_prefix lit list_ascii_of_string app str_match chr_match
         Ascii.eqb Bool.eqb plus_match not_semicolon negb].
  rewrite (plus_match_run is_base64_char payload post _
             ({| group0 := data_uri_prefix ++ payload; groups := [payload] |}, post)
             Hne Hall Hpost).
  - reflexivity.
  - rewrite firstn_length_app. unfold K.
    rewrite (app_assoc data_uri_prefix payload post), firstn_length_app. reflexivity.
Qed.

Lemma str_match_startswith {A} (p s : str) (k : str -> option A) :
  str_match false p s k = if startswith p s then k (skipn (List.length p) s) else None.
Proof.
  revert s. induction p as [|c p IH]; intros s; [reflexivity |].
  destruct s as [|x s]; [reflexivity |].
  cbn [str_match startswith List.length skipn]. unfold chr_match.
  destruct (Ascii.eqb c x); [apply IH | reflexivity].
Qed.

(** The base64 pattern only matches where the text [data:image/] starts. *)
Lemma match_at_needs_scheme (s : str) :
  startswith (lit "data:image/") s = false ->
  match_at false base64_pattern s = None.
Proof.
  intros Hno. unfold match_at, base64_pattern. cbn [run].
  rewrite str_match_startswith, Hno. reflexivity.
Qed.

Lemma finditer_from_skip (ignorecase : bool) (r : regex) (p rest : str) :
  finditer_from ignorecase r (List.length p) (p ++ rest)
  = finditer_from ignorecase r 0 rest.
Proof.
  induction p as [|c p IH]; [| exact IH].
  destruct rest; reflexivity.
Qed.

(** A match at the head is reported, and the search resumes after it. *)
Lemma finditer_from_match (ignorecase : bool) (r : regex) (g rest : str)
    (m : rmatch) (rest' : str) :
  g <> [] ->
  match_at ignorecase r (g ++ rest) = Some (m, rest') ->
  group0 m = g ->
  finditer_from ignorecase r 0 (g ++ rest) = m :: finditer_from ignorecase r 0 rest.
Proof.
  intros Hne Hm Hg. destruct g as [|c g]; [congruence |].
  cbn [app finditer_from]. cbn [app] in Hm. rewrite Hm, Hg.
  replace (List.length (c :: g) - 1) with (List.length g) by (simpl; lia).
  f_equal. apply finditer_from_skip.
Qed.

(** Positions where no match starts are stepped over. *)
Lemma finditer_from_no_match_prefix (ignorecase : bool) (r : regex) (pre rest : str) :
  (forall p q, pre = p ++ q -> q <> [] -> match_at ignorecase r (q ++ rest) = None) ->
  finditer_from ignorecase r 0 (pre ++ rest) = finditer_from ignorecase r 0 rest.
Proof.
  induction pre as [|c pre IH]; intros Hno; [reflexivity |].
  pose proof (Hno [] (c :: pre) eq_refl) as Hhead. cbn [app] in Hhead.
  cbn [app finditer_from]. rewrite Hhead by discriminate.
  apply IH. intros p q -> Hq. apply (Hno (c :: p) q); [reflexivity | exact Hq].
Qed.

Lemma startswith_app_long (p q rest : str) :
  List.length p <= List.length q ->
  startswith p (q ++ rest) = startswith p q.
Proof.
  revert q. induction p as [|a p IH]; intros q Hlen; [reflexivity |].
  destruct q as [|b q]; [simpl in Hlen; lia |].
  cbn [app startswith]. rewrite IH; [reflexivity | simpl in Hlen; lia].
Qed.

Lemma contains_suffix (p pre q : str) :
  contains p q = true -> contains p (pre ++ q) = true.
Proof.
  intros H. induction pre as [|c pre IH]; [exact H |].
  cbn [app contains]. rewrite IH. apply orb_true_r.
Qed.

Lemma startswith_contains (p s : str) : startswith p s = true -> contains p s = true.
Proof. intros H. destruct s; cbn [contains]; rewrite H; reflexivity. Qed.

Ltac refute_eqb_chain :=
  cbn [lit list_ascii_of_string app startswith];
  repeat match goal with
         | |- context [Ascii.eqb ?a ?c] =>
             first
               [ is_var c; destruct (Ascii.eqb a c); cbn [andb]; [| reflexivity]
               | let b := eval vm_compute in (Ascii.eqb a c) in
                 change (Ascii.eqb a c) with b; cbn [andb] ]
         end;
  try reflexivity.

Ltac by_short_cases q n :=
  lazymatch n with
  | O => exfalso; simpl in *; lia
  | S ?n' => destruct q as [|? q]; [refute_eqb_chain | by_short_cases q n']
  end.

(** The text [data:image/] does not overlap a later copy of itself. *)
Lemma scheme_no_overlap (q rest : str) :
  q <> [] ->
  List.length q < 11 ->
  startswith (lit "data:image/") (q ++ lit "data:image/" ++ rest) = false.
Proof.
  intros Hne Hlen.
  destruct q as [|c q]; [congruence |]. clear Hne.
  by_short_cases q 10.
Qed.

Lemma no_match_before_span (pre rest : str) :
  contains (lit "data:image/") pre = false ->
  forall p q, pre = p ++ q -> q <> [] ->
  match_at false base64_pattern (q ++ data_uri_prefix ++ rest) = None.
Proof.
  intros Hno p q -> Hq. apply match_at_needs_scheme.
  destruct (Nat.lt_ge_cases (List.length q) 11) as [Hshort | Hlong].
  - apply (scheme_no_overlap q (lit "png;base64," ++ rest) Hq Hshort).
  - rewrite startswith_app_long by exact Hlong.
    destruct (startswith (lit "data:image/") q) eqn:Hs; [| reflexivity].
    rewrite (contains_suffix _ p q (startswith_contains _ _ Hs)) in Hno. discriminate.
Qed.

(** The search finds a span embedded after a text without [data:image/],
    and captures its payload. *)
Lemma finditer_embedded_span (pre payload post : str) :
  contains (lit "data:image/") pre = false ->
  payload <> [] ->
  forallb is_base64_char payload = true ->
  post = [] \/ (exists c rest, post = c :: rest /\ is_base64_char c = false) ->
  finditer base64_pattern false (pre ++ data_uri_prefix ++ payload ++ post)
  = {| group0 := data_uri_prefix ++ payload; groups := [payload] |}
    :: finditer base64_pattern false post.
Proof.
  intros Hpre Hne Hall Hpost. unfold finditer.
  rewrite finditer_from_no_match_prefix
    by (intros p q Hpq Hq; apply (no_match_before_span pre _ Hpre p q Hpq Hq)).
  rewrite (app_assoc data_uri_prefix payload post).
  apply finditer_from_match with (rest' := post).
  - discriminate.
  - rewrite <- app_assoc. apply match_at_span; assumption.
  - reflexivity.
Qed.

Lemma colon_not_base64 (c : ascii) :
  is_base64_char c = true -> Ascii.eqb ":" c = false.
Proof.
  intros Hc. destruct (Ascii.eqb_spec ":" c) as [<- |]; [discriminate | reflexivity].
Qed.

(** A captured payload never carries the scheme that line 78 strips. *)
Lemma payload_has_no_scheme (payload : str) :
  forallb is_base64_char payload = true ->
  startswith (lit "data:image/") payload = false.
Proof.
  intros Hall.
  destruct payload as [|c1 [|c2 [|c3 [|c4 [|c5 rest]]]]];
    cbn [lit list_ascii_of_string startswith]; rewrite ?andb_false_r; try reflexivity.
  cbn [forallb] in Hall.
  repeat (apply andb_prop in Hall; destruct Hall as [? Hall]).
  rewrite (colon_not_base64 c5) by assumption.
  rewrite ?andb_false_r. reflexivity.
Qed.

Lemma save_base64_image_saved (E : env) (payload dir : str) (n : nat) (w : world)
    (data : list Byte.byte) :
  startswith (lit "data:image/") payload = false ->
  b64decode payload = Some data ->
  env_write E w (base64_image_path dir n) (Binary data) = None ->
  save_base64_image E payload dir n w
  = (Ok (Some (base64_image_path dir n)),
     w ++ [EvWrote (base64_image_path dir n) (Binary data);
           EvPrint (MsgSavedBase64 (base64_image_path dir n))]).
Proof.
  intros Hscheme Hdecode Hwrite.
  unfold save_base64_image, try_except, bind, lift, ret, print, emit, write_file.
  fold (base64_image_path dir n).
  rewrite Hscheme, Hdecode, Hwrite, <- app_assoc. reflexivity.
Qed.

(** ** File names *)

Lemma path_join_inj (dir a b : str) : path_join dir a = path_join dir b -> a = b.
Proof.
  unfold path_join. destruct (rev dir) as [|c r]; [auto |].
  destruct (Ascii.eqb c "/"); intros H.
  - apply app_inv_head in H. exact H.
  - apply app_inv_head in H. apply app_inv_head in H. exact H.
Qed.

Lemma lit_inj (s t : string) : lit s = lit t -> s = t.
Proof.
  unfold lit. intros H.
  rewrite <- (string_of_list_ascii_of_string s), <- (string_of_list_ascii_of_string t), H.
  reflexivity.
Qed.

Lemma string_of_uint_inj (d d' : Decimal.uint) :
  NilEmpty.string_of_uint d = NilEmpty.string_of_uint d' -> d = d'.
Proof.
  intros H. pose proof (NilEmpty.usu d) as Hd. rewrite H, NilEmpty.usu in Hd.
  congruence.
Qed.

Lemma str_of_nat_inj (n m : nat) : str_of_nat n = str_of_nat m -> n = m.
Proof.
  unfold str_of_nat. intros H.
  apply DecimalNat.Unsigned.to_uint_inj, string_of_uint_inj, lit_inj, H.
Qed.

(** The decimal form of a number starts with a digit. *)
Lemma str_of_nat_head (n : nat) :
  exists c rest, str_of_nat n = c :: rest /\ in_range 48 57 c = true.
Proof.
  unfold str_of_nat.
  assert (Hnil : Nat.to_uint n <> Decimal.Nil).
  { intros H. pose proof (DecimalNat.Unsigned.of_to n) as Hn. rewrite H in Hn.
    cbn in Hn. subst n. discriminate. }
  destruct (Nat.to_uint n); [congruence | ..];
    cbn [NilEmpty.string_of_uint lit list_ascii_of_string];
    eexists _, _; (split; [reflexivity | vm_compute; reflexivity]).
Qed.

Lemma base64_image_path_inj (dir : str) (n m : nat) :
  base64_image_path dir n = base64_image_path dir m -> n = m.
Proof.
  unfold base64_image_path. intros H. apply path_join_inj in H.
  apply app_inv_head in H. apply app_inv_tail in H. apply str_of_nat_inj, H.
Qed.

Lemma url_is_not_base64_path (dir : str) (n m : nat) (ext : str) :
  url_image_path dir n ext <> base64_image_path dir m.
Proof.
  unfold url_image_path, base64_image_path. intros H. apply path_join_inj in H.
  destruct (str_of_nat_head m) as [c [rest [Hm Hc]]]. rewrite Hm in H.
  cbn [lit list_ascii_of_string app] in H. injection H as H _. subst c.
  vm_compute in Hc. discriminate.
Qed.

Lemma text_is_not_base64_path (dir : str) (m : nat) :
  path_join dir (lit "content.txt") <> base64_image_path dir m
  /\ path_join dir (lit "original_content.txt") <> base64_image_path dir m.
Proof.
  unfold base64_image_path.
  split; intros H; apply path_join_inj in H; discriminate.
Qed.

Lemma read_back_none (fs : list (str * file)) (path : str) :
  ~ In path (map fst fs) -> read_back fs path = None.
Proof.
  induction fs as [|[p f] fs IH]; intros Hnot; [reflexivity |].
  cbn [read_back]. rewrite IH by (intros Hin; apply Hnot; right; exact Hin).
  destruct (str_eqb p path) eqn:Hp; [| reflexivity].
  apply str_eqb_eq in Hp. exfalso. apply Hnot. left. exact Hp.
Qed.

Lemma read_back_first (fs : list (str * file)) (path : str) (f : file) :
  ~ In path (map fst fs) -> read_back ((path, f) :: fs) path = Some f.
Proof.
  intros Hnot. cbn [read_back]. rewrite (read_back_none fs path Hnot), str_eqb_refl.
  reflexivity.
Qed.

Lemma in_base64_paths (dir path : str) (n k : nat) :
  In path (base64_paths dir n k) ->
  exists i, n <= i /\ path = base64_image_path dir i.
Proof.
  unfold base64_paths. rewrite in_map_iff. intros [i [<- Hi]].
  apply in_seq in Hi. exists i. split; [lia | reflexivity].
Qed.

Lemma in_url_paths (dir path : str) (exts : list str) :
  forall n, In path (url_paths dir n exts) ->
            exists i ext, path = url_image_path dir i ext.
Proof.
  induction exts as [|ext exts IH]; intros n Hin; [contradiction |].
  cbn [url_paths In] in Hin. destruct Hin as [<- | Hin].
  - exists n, ext. reflexivity.
  - apply (IH (S n)). exact Hin.
Qed.

Lemma read_back_app_some (fs1 fs2 : list (str * file)) (path : str) (f : file) :
  read_back fs2 path = Some f -> read_back (fs1 ++ fs2) path = Some f.
Proof.
  intros H. induction fs1 as [|[p g] fs1 IH]; [exact H |].
  cbn [app read_back]. rewrite IH. reflexivity.
Qed.

Lemma text_run_paths (dir text content : str) (tail : list event) (path : str) :
  text_run dir text content tail ->
  In path (map fst (files_written tail)) ->
  path = path_join dir (lit "content.txt")
  \/ path = path_join dir (lit "original_content.txt").
Proof.
  intros Hrun Hin. inversion Hrun; subst; cbn in Hin; intuition.
Qed.

(** C6 (amended). For every non-empty byte sequence [B], take a response
    in which the span [data:image/png;base64,<base64 of B>] comes after a
    text without [data:image/] and is followed by nothing or by a character
    outside the base64 alphabet.  Extraction finds the span, decodes its
    payload and, the write succeeding, saves [image_1.png] with exactly the
    bytes [B]; no later step of the run writes that file again. *)
Theorem C6_round_trip (E : env) (pre post : str) (B : list Byte.byte) (dir : str)
    (w : world) :
  B <> [] ->
  contains (lit "data:image/") pre = false ->
  post = [] \/ (exists c rest, post = c :: rest /\ is_base64_char c = false) ->
  env_write E w (base64_image_path dir 1) (Binary B) = None ->
  let content := pre ++ data_uri_prefix ++ b64encode B ++ post in
  let run := save_mixed_content E content dir w in
  hd_error (finditer base64_pattern false content)
  = Some {| group0 := data_uri_prefix ++ b64encode B; groups := [b64encode B] |}
  /\ (exists new,
         snd run = w ++ EvWrote (base64_image_path dir 1) (Binary B) :: new)
  /\ read_back (files_written (snd run)) (base64_image_path dir 1) = Some (Binary B).
Proof.
  intros HB Hpre Hpost Hwrite content run.
  pose proof (finditer_embedded_span pre (b64encode B) post Hpre
                (b64encode_nonempty B HB) (b64encode_chars B) Hpost) as Hfind.
  fold content in Hfind.
  split; [rewrite Hfind; reflexivity |].
  set (path := base64_image_path dir 1) in *.
  set (w1 := w ++ [EvWrote path (Binary B); EvPrint (MsgSavedBase64 path)]).
  set (text1 := replace content (data_uri_prefix ++ b64encode B) (placeholder_saved path)).
  destruct (process_base64_run E dir (finditer base64_pattern false post) text1 2 w1)
    as [text_b [k [new_b [Hb [_ [Hfb _]]]]]].
  destruct (process_urls_run E dir (finditer url_pattern true content) text_b (2 + k)
              (w1 ++ new_b)) as [text [exts [new_u [Hu [_ [Hfu _]]]]]].
  destruct (write_text_files_run E dir text content ((w1 ++ new_b) ++ new_u))
    as [tail [Ht Htail]].
  assert (Hrun : snd run
                 = w ++ EvWrote path (Binary B)
                        :: (EvPrint (MsgSavedBase64 path) :: new_b ++ new_u ++ tail)).
  { unfold run, save_mixed_content. cbv zeta. rewrite Hfind.
    cbn [process_base64 group group0 groups nth].
    unfold try_except in *. unfold bind at 1. unfold bind at 1.
    rewrite (save_base64_image_saved E (b64encode B) dir 1 w B
               (payload_has_no_scheme _ (b64encode_chars B))
               (b64decode_b64encode B) Hwrite).
    rewrite saved_base64_image_path. fold path. fold w1 text1.
    change (1 + 1) with 2. rewrite Hb.
    unfold bind at 1. rewrite Hu. cbn [fst]. rewrite Ht.
    cbn [snd]. unfold w1. rewrite <- !app_assoc. reflexivity. }
  split; [eexists; exact Hrun |].
  rewrite Hrun, files_written_app. apply read_back_app_some.
  cbn [files_written]. apply read_back_first.
  rewrite !files_written_app, !map_app, Hfb, Hfu. intros Hin.
  apply in_app_or in Hin. destruct Hin as [Hin | Hin].
  - apply in_base64_paths in Hin. destruct Hin as [i [Hi Heq]].
    apply base64_image_path_inj in Heq. lia.
  - apply in_app_or in Hin. destruct Hin as [Hin | Hin].
    + apply in_url_paths in Hin. destruct Hin as [i [ext Heq]].
      symmetry in Heq. apply url_is_not_base64_path in Heq. exact Heq.
    + apply (text_run_paths _ _ _ _ _ Htail) in Hin.
      destruct (text_is_not_base64_path dir 1) as [H1 H2].
      destruct Hin as [Hin | Hin]; symmetry in Hin; [apply H1 | apply H2]; exact Hin.
Qed.

(** C6, as stated, fails for the empty byte sequence: its encoding is
    empty, the pattern needs at least one payload character, so the span
    is not recognised and no image is saved.  It also fails when the span
    is not delimited: a letter right after the payload of "ABC" is taken
    into the payload, which then does not decode; and a span right after
    another payload loses its first four letters to that payload. *)
Lemma C6_counterexample :
  b64encode [] = []
  /\ finditer base64_pattern false (data_uri_prefix ++ b64encode []) = []
  /\ image_files (snd (save_mixed_content Sample.host (data_uri_prefix ++ b64encode [])
                         (lit "out") [])) = []
  /\ image_files (snd (save_mixed_content Sample.host
                         (data_uri_prefix ++ b64encode sample_bytes ++ lit "x")
                         (lit "out") [])) = []
  /\ map (fun m => group m 1)
       (finditer base64_pattern false
          (lit "data:image/png;base64,AAAA" ++ data_uri_prefix ++ b64encode sample_bytes))
     = [lit "AAAAdata"].
Proof. repeat split; vm_compute; reflexivity. Qed.

(** ** Occurrences and replacement *)

Lemma contains_app_r (p a b : str) : contains p b = true -> contains p (a ++ b) = true.
Proof. apply contains_suffix. Qed.

Lemma contains_app_l (p a b : str) : contains p a = true -> contains p (a ++ b) = true.
Proof.
  rewrite !contains_iff. intros [pre [post ->]].
  exists pre, (post ++ b). rewrite <- !app_assoc. reflexivity.
Qed.

(** An occurrence of [old] does not straddle a character that [old] lacks. *)
Lemma occurrence_split (old a b : str) (c : ascii) :
  old <> [] ->
  ~ In c old ->
  contains old (a ++ c :: b) = true ->
  contains old a = true \/ contains old b = true.
Proof.
  intros Hne Hc. rewrite !contains_iff. intros [p [q H]].
  apply app_eq_app in H. destruct H as [l [[-> H] | [-> H]]].
  - (* the occurrence starts in [a] *)
    apply app_eq_app in H. destruct H as [l' [[-> H] | [-> H]]].
    + destruct l' as [|x l'].
      * left. exists p, []. rewrite !app_nil_r. reflexivity.
      * exfalso. injection H as -> _. apply Hc. apply in_or_app. right. left. reflexivity.
    + left. exists p, l'. reflexivity.
  - (* the occurrence starts at [c] or later *)
    destruct l as [|x l].
    + exfalso. destruct old as [|y old]; [congruence |].
      injection H as -> _. apply Hc. left. reflexivity.
    + right. injection H as _ ->. exists l, q. reflexivity.
Qed.

Lemma bracket_free_In (s : str) :
  bracket_free s = true -> ~ In "["%char s /\ ~ In "]"%char s.
Proof.
  unfold bracket_free. rewrite forallb_forall. intros H.
  split; intros Hin; apply H in Hin; discriminate.
Qed.

(** An occurrence of a bracket-free [old] in a text with a placeholder is
    left of it, inside it or right of it. *)
Lemma occurrence_around_placeholder (old a inner b : str) :
  old <> [] ->
  bracket_free old = true ->
  contains old (a ++ lit "[" ++ inner ++ lit "]" ++ b) = true ->
  contains old a = true \/ contains old inner = true \/ contains old b = true.
Proof.
  intros Hne Hfree H. destruct (bracket_free_In old Hfree) as [Hl Hr].
  apply (occurrence_split old a _ "[" Hne Hl) in H. destruct H as [H | H]; [auto |].
  apply (occurrence_split old inner b "]" Hne Hr) in H. tauto.
Qed.

(** A bracket-free prefix of the rewritten text is a prefix of the text:
    no replacement starts inside it. *)
Lemma kept_prefix (m inner : str) (u : str) :
  bracket_free u = true ->
  forall s tail,
    replace_from m (lit "[" ++ inner ++ lit "]") 0 s = u ++ tail ->
    exists tail', s = u ++ tail'.
Proof.
  induction u as [|x u IH]; intros Hfree s tail H; [exists s; reflexivity |].
  cbn [bracket_free forallb] in Hfree. apply andb_prop in Hfree.
  destruct Hfree as [Hx Hfree].
  destruct s as [|c s]; [discriminate |].
  cbn [replace_from] in H. destruct (startswith m (c :: s)).
  - cbn [lit list_ascii_of_string app] in H. injection H as <- _. discriminate.
  - cbn [app] in H. injection H as -> H.
    destruct (IH Hfree s tail H) as [tail' ->]. exists tail'. reflexivity.
Qed.

Lemma contains_skipn (p s : str) (n : nat) :
  contains p (skipn n s) = true -> contains p s = true.
Proof.
  intros H. rewrite <- (firstn_skipn n s). apply contains_app_r, H.
Qed.

Section Replacement.
Variables (old inner : str).
Hypothesis old_nonempty : old <> [].
Hypothesis old_bracket_free : bracket_free old = true.
Hypothesis old_not_inside : contains old inner = false.

Let placeholder := lit "[" ++ inner ++ lit "]".

(** Replacing any [m] by the placeholder creates no occurrence of [old]. *)
Lemma replace_from_keeps_absent (m : str) (s : str) :
  forall skip,
    contains old (replace_from m placeholder skip s) = true ->
    contains old (skipn skip s) = true.
Proof.
  induction s as [|c s IH]; intros skip H.
  - destruct skip; cbn in H; destruct old; try congruence; discriminate.
  - cbn [replace_from] in H. destruct skip as [|skip]; [| apply (IH skip H)].
    cbn [skipn]. destruct (startswith m (c :: s)) eqn:Hm.
    + unfold placeholder in H. rewrite <- !app_assoc in H.
      apply (occurrence_around_placeholder old [] inner _ old_nonempty old_bracket_free)
        in H.
      destruct H as [H | [H | H]].
      * destruct old; [congruence | discriminate].
      * congruence.
      * apply IH in H. apply contains_skipn in H.
        cbn [contains]. rewrite H. apply orb_true_r.
    + cbn [contains] in H. apply orb_prop in H. destruct H as [H | H].
      * apply startswith_iff in H. destruct H as [tail H].
        destruct old as [|x u] eqn:Hold; [congruence |].
        cbn [app] in H. injection H as <- H.
        assert (Hu : bracket_free u = true).
        { cbn [bracket_free forallb] in old_bracket_free.
          apply andb_prop in old_bracket_free. apply old_bracket_free. }
        destruct (kept_prefix m inner u Hu s tail H) as [tail' ->].
        apply startswith_contains. apply startswith_iff. exists tail'. reflexivity.
      * apply (IH 0) in H. cbn [skipn] in H.
        cbn [contains]. rewrite H. apply orb_true_r.
Qed.

(** Replacing [old] itself leaves no occurrence of it. *)
Lemma replace_from_removes (s : str) :
  forall skip, contains old (replace_from old placeholder skip s) = false.
Proof.
  induction s as [|c s IH]; intros skip.
  - cbn. destruct old; [congruence | reflexivity].
  - cbn [replace_from]. destruct skip as [|skip]; [| apply IH].
    destruct (startswith old (c :: s)) eqn:Hm.
    + destruct (contains old (placeholder ++ replace_from old placeholder
                                               (List.length old - 1) s)) eqn:H;
        [| reflexivity].
      unfold placeholder in H. rewrite <- !app_assoc in H.
      apply (occurrence_around_placeholder old [] inner _ old_nonempty old_bracket_free)
        in H.
      destruct H as [H | [H | H]].
      * destruct old; [congruence | discriminate].
      * congruence.
      * rewrite IH in H. discriminate.
    + cbn [contains]. rewrite IH, orb_false_r.
      destruct (startswith old (c :: replace_from old placeholder 0 s)) eqn:H;
        [| reflexivity].
      apply startswith_iff in H. destruct H as [tail H].
      destruct old as [|x u] eqn:Hold; [congruence |].
      cbn [app] in H. injection H as <- H.
      assert (Hu : bracket_free u = true).
      { cbn [bracket_free forallb] in old_bracket_free.
        apply andb_prop in old_bracket_free. apply old_bracket_free. }
      destruct (kept_prefix (c :: u) inner u Hu s tail H) as [tail' ->].
      assert (Hs : startswith (c :: u) (c :: u ++ tail') = true)
        by (apply startswith_iff; exists tail'; reflexivity).
      congruence.
Qed.

End Replacement.

Lemma replace_from_absent (old new s : str) :
  contains old s = false -> replace_from old new 0 s = s.
Proof.
  induction s as [|c s IH]; intros H; [reflexivity |].
  cbn [contains] in H. apply orb_false_elim in H. destruct H as [Hs Hc].
  cbn [replace_from]. rewrite Hs, (IH Hc). reflexivity.
Qed.

(** Replacing a string that does not occur changes nothing. *)
Lemma replace_absent (s old new : str) :
  old <> [] -> contains old s = false -> replace s old new = s.
Proof.
  intros Hne H. destruct old as [|c old]; [congruence |].
  apply replace_from_absent, H.
Qed.

Section Placeholders.
Variables (old inner : str).
Hypothesis old_nonempty : old <> [].
Hypothesis old_bracket_free : bracket_free old = true.
Hypothesis old_not_inside : contains old inner = false.

Lemma replace_removes (s : str) :
  contains old (replace s old (lit "[" ++ inner ++ lit "]")) = false.
Proof.
  destruct old as [|c u] eqn:Hold; [congruence |].
  apply (replace_from_removes (c :: u) inner old_nonempty old_bracket_free old_not_inside).
Qed.

Lemma insert_keeps_absent (s : str) :
  contains old s = false ->
  contains old (flat_map (fun c => c :: lit "[" ++ inner ++ lit "]") s) = false.
Proof.
  induction s as [|c s IH]; intros H.
  - destruct old; [congruence | reflexivity].
  - cbn [contains] in H. apply orb_false_elim in H. destruct H as [Hs Hc].
    cbn [flat_map].
    destruct (contains old ((c :: lit "[" ++ inner ++ lit "]")
                              ++ flat_map (fun c => c :: lit "[" ++ inner ++ lit "]") s))
      eqn:Hocc; [| reflexivity].
    change ((c :: lit "[" ++ inner ++ lit "]") ++ ?t)
      with ([c] ++ lit "[" ++ (inner ++ lit "]") ++ t) in Hocc.
    rewrite <- app_assoc in Hocc.
    apply (occurrence_around_placeholder old [c] inner _ old_nonempty old_bracket_free)
      in Hocc.
    destruct Hocc as [Hocc | [Hocc | Hocc]].
    + (* [old] is the character [c] *)
      cbn [contains] in Hocc. rewrite orb_false_r in Hocc.
      destruct (startswith old []) eqn:Hnil;
        [destruct old; [congruence | discriminate] |].
      rewrite orb_false_r in Hocc.
      apply startswith_iff in Hocc. destruct Hocc as [tail Hocc].
      destruct old as [|x [|y u]] eqn:Hold; try congruence; try discriminate.
      cbn [app] in Hocc. injection Hocc as <- _.
      cbn [startswith] in Hs. rewrite Ascii.eqb_refl in Hs. discriminate.
    + congruence.
    + rewrite (IH Hc) in Hocc. discriminate.
Qed.

(** Replacing any string by a placeholder creates no occurrence of [old]. *)
Lemma replace_keeps_absent (s m : str) :
  contains old s = false ->
  contains old (replace s m (lit "[" ++ inner ++ lit "]")) = false.
Proof.
  intros H. destruct m as [|c m].
  - cbn [replace].
    destruct (contains old ((lit "[" ++ inner ++ lit "]")
                              ++ flat_map (fun c => c :: lit "[" ++ inner ++ lit "]") s))
      eqn:Hocc; [| reflexivity].
    rewrite <- !app_assoc in Hocc.
    apply (occurrence_around_placeholder old [] inner _ old_nonempty old_bracket_free)
      in Hocc.
    destruct Hocc as [Hocc | [Hocc | Hocc]].
    + destruct old; [congruence | discriminate].
    + congruence.
    + rewrite (insert_keeps_absent s H) in Hocc. discriminate.
  - cbn [replace].
    destruct (contains old (replace_from (c :: m) (lit "[" ++ inner ++ lit "]") 0 s))
      eqn:Hocc; [| reflexivity].
    apply (replace_from_keeps_absent old inner old_nonempty old_bracket_free
             old_not_inside) in Hocc.
    cbn [skipn] in Hocc. congruence.
Qed.

End Placeholders.

(** ** What is inside a placeholder *)

Lemma colon_free_app (a b : str) :
  colon_free (a ++ b) = colon_free a && colon_free b.
Proof. apply forallb_app. Qed.

Lemma colon_free_In (s : str) : colon_free s = true -> ~ In ":"%char s.
Proof.
  unfold colon_free. rewrite forallb_forall. intros H Hin. apply H in Hin. discriminate.
Qed.

Lemma has_bound_colon_split (old : str) :
  has_bound_colon old = true ->
  exists a d b, old = a ++ ":"%char :: d :: b /\ d <> " "%char.
Proof.
  induction old as [|c old IH]; intros H; [discriminate |].
  cbn [has_bound_colon] in H. apply orb_prop in H. destruct H as [H | H].
  - destruct old as [|d old]; [discriminate |].
    apply andb_prop in H. destruct H as [Hc Hd].
    apply Ascii.eqb_eq in Hc. subst c.
    exists [], d, old. split; [reflexivity |].
    intros ->. discriminate.
  - destruct (IH H) as [a [d [b [-> Hd]]]].
    exists (c :: a), d, b. split; [reflexivity | exact Hd].
Qed.

(** A character that occurs once splits a string in one way only. *)
Lemma unique_split {A} (x : A) (l1 r1 l2 r2 : list A) :
  l1 ++ x :: r1 = l2 ++ x :: r2 ->
  ~ In x l2 -> ~ In x r2 ->
  l1 = l2 /\ r1 = r2.
Proof.
  revert l2. induction l1 as [|y l1 IH]; intros l2 H Hl Hr.
  - destruct l2 as [|y l2].
    + injection H as ->. split; reflexivity.
    + exfalso. injection H as -> _. apply Hl. left. reflexivity.
  - destruct l2 as [|y' l2].
    + exfalso. injection H as -> H. apply Hr. rewrite <- H.
      apply in_or_app. right. left. reflexivity.
    + injection H as -> H.
      destruct (IH l2 H) as [-> ->]; [intros Hin; apply Hl; right; exact Hin | exact Hr |].
      split; reflexivity.
Qed.

(** A span with a bound colon does not occur inside a placeholder whose
    label and path have no colon. *)
Lemma bound_colon_not_inside (old label path : str) :
  has_bound_colon old = true ->
  colon_free label = true ->
  colon_free path = true ->
  contains old (label ++ lit ": " ++ path) = false.
Proof.
  intros Hold Hlabel Hpath.
  destruct (contains old (label ++ lit ": " ++ path)) eqn:H; [| reflexivity].
  exfalso. apply contains_iff in H. destruct H as [p [q H]].
  destruct (has_bound_colon_split old Hold) as [a [d [b [-> Hd]]]].
  cbn [lit list_ascii_of_string app] in H.
  rewrite <- !app_assoc in H. cbn [app] in H. rewrite app_assoc in H.
  symmetry in H. apply unique_split in H.
  - destruct H as [_ H]. injection H as H _. congruence.
  - apply colon_free_In, Hlabel.
  - intros [Hin | Hin]; [discriminate | apply (colon_free_In path Hpath Hin)].
Qed.

Lemma string_of_uint_colon_free (d : Decimal.uint) :
  colon_free (lit (NilEmpty.string_of_uint d)) = true.
Proof. induction d; cbn; try exact IHd; reflexivity. Qed.

Lemma path_join_colon_free (dir name : str) :
  colon_free dir = true -> colon_free name = true ->
  colon_free (path_join dir name) = true.
Proof.
  intros Hdir Hname. unfold path_join. destruct (rev dir) as [|c r]; [exact Hname |].
  destruct (Ascii.eqb c "/"); rewrite !colon_free_app, Hdir, Hname; reflexivity.
Qed.

Lemma base64_image_path_colon_free (dir : str) (n : nat) :
  colon_free dir = true -> colon_free (base64_image_path dir n) = true.
Proof.
  intros Hdir. apply path_join_colon_free; [exact Hdir |].
  rewrite !colon_free_app. unfold str_of_nat. rewrite string_of_uint_colon_free.
  reflexivity.
Qed.

Lemma url_image_path_colon_free (dir : str) (n : nat) (ext : str) :
  In ext extensions ->
  colon_free dir = true -> colon_free (url_image_path dir n ext) = true.
Proof.
  intros Hext Hdir. apply path_join_colon_free; [exact Hdir |].
  rewrite !colon_free_app. unfold str_of_nat. rewrite string_of_uint_colon_free.
  cbn in Hext. decompose [or] Hext; try contradiction; subst ext; reflexivity.
Qed.

Lemma placeholder_saved_shape (path : str) :
  placeholder_saved path = lit "[" ++ inside_saved path ++ lit "]".
Proof. unfold placeholder_saved, inside_saved. rewrite <- !app_assoc. reflexivity. Qed.

Lemma placeholder_downloaded_shape (path : str) :
  placeholder_downloaded path = lit "[" ++ inside_downloaded path ++ lit "]".
Proof.
  unfold placeholder_downloaded, inside_downloaded. rewrite <- !app_assoc. reflexivity.
Qed.

(** ** A span that occurs several times *)

Lemma process_base64_app (E : env) (dir : str) (a b : list rmatch) :
  forall st w,
    process_base64 E dir (a ++ b) st w
    = match process_base64 E dir a st w with
      | (Ok st', w') => process_base64 E dir b st' w'
      | (Raise e, w') => (Raise e, w')
      end.
Proof.
  induction a as [|m a IH]; intros [text n] w; [reflexivity |].
  cbn [app process_base64]. unfold bind.
  destruct (save_base64_image E (group m 1) dir n w) as [[[path|]|e] w1];
    [destruct (saved (Some path)) | |]; try apply IH. reflexivity.
Qed.

Lemma process_urls_app (E : env) (dir : str) (a b : list rmatch) :
  forall st w,
    process_urls E dir (a ++ b) st w
    = match process_urls E dir a st w with
      | (Ok st', w') => process_urls E dir b st' w'
      | (Raise e, w') => (Raise e, w')
      end.
Proof.
  induction a as [|m a IH]; intros [text n] w; [reflexivity |].
  cbn [app process_urls]. unfold bind.
  destruct (download_image_from_url E (group m 0) dir n w) as [[[path|]|e] w1];
    [destruct (saved (Some path)) | |]; try apply IH. reflexivity.
Qed.

Section Repeats.
Variable E : env.
Variables (dir old : str).
Hypothesis old_bracket_free : bracket_free old = true.
Hypothesis old_bound_colon : has_bound_colon old = true.
Hypothesis dir_colon_free : colon_free dir = true.

Lemma old_nonempty : old <> [].
Proof. intros H. rewrite H in old_bound_colon. discriminate. Qed.

Lemma old_not_in_saved (n : nat) :
  contains old (inside_saved (base64_image_path dir n)) = false.
Proof.
  apply bound_colon_not_inside;
    [exact old_bound_colon | reflexivity
     | apply base64_image_path_colon_free, dir_colon_free].
Qed.

Lemma old_not_in_downloaded (n : nat) (ext : str) :
  In ext extensions ->
  contains old (inside_downloaded (url_image_path dir n ext)) = false.
Proof.
  intros Hext. apply bound_colon_not_inside;
    [exact old_bound_colon | reflexivity
     | apply url_image_path_colon_free; [exact Hext | exact dir_colon_free]].
Qed.

(** Once the text is free of the span, the base64 loop keeps it so. *)
Lemma process_base64_keeps_absent (ms : list rmatch) :
  forall text n w,
    contains old text = false ->
    exists text' k new,
      process_base64 E dir ms (text, n) w = (Ok (text', k), w ++ new)
      /\ contains old text' = false.
Proof.
  induction ms as [|m ms IH]; intros text n w Habsent.
  - exists text, n, []. cbn. unfold ret. rewrite app_nil_r. auto.
  - cbn [process_base64]. unfold bind.
    destruct (save_base64_image_run E (group m 1) dir n w) as [r [new1 [Hrun Hcase]]].
    rewrite Hrun. inversion Hcase; subst.
    + rewrite saved_base64_image_path.
      match goal with
      | |- context [process_base64 E dir ms (?t, ?i) ?w1] =>
          destruct (IH t i w1) as [text' [k [new [Hrest Hfree]]]]
      end.
      * rewrite placeholder_saved_shape.
        apply (replace_keeps_absent old _ old_nonempty old_bracket_free
                 (old_not_in_saved n) text (group m 0) Habsent).
      * eexists text', k, _. rewrite Hrest, <- app_assoc. auto.
    + destruct (IH text n (w ++ [EvPrint (MsgSaveBase64Failed e)]) Habsent)
        as [text' [k [new [Hrest Hfree]]]].
      eexists text', k, _. rewrite Hrest, <- app_assoc. auto.
    + destruct (IH text n (w ++ [EvWriteFailed (base64_image_path dir n);
                                 EvPrint (MsgSaveBase64Failed e)]) Habsent)
        as [text' [k [new [Hrest Hfree]]]].
      eexists text', k, _. rewrite Hrest, <- app_assoc. auto.
Qed.

(** And so does the URL loop. *)
Lemma process_urls_keeps_absent (ms : list rmatch) :
  forall text n w,
    contains old text = false ->
    exists text' k new,
      process_urls E dir ms (text, n) w = (Ok (text', k), w ++ new)
      /\ contains old text' = false.
Proof.
  induction ms as [|m ms IH]; intros text n w Habsent.
  - exists text, n, []. cbn. unfold ret. rewrite app_nil_r. auto.
  - cbn [process_urls]. unfold bind.
    destruct (download_image_from_url_run E (group m 0) dir n w)
      as [r [new1 [Hrun Hcase]]].
    rewrite Hrun. inversion Hcase; subst.
    + rewrite saved_url_image_path.
      match goal with
      | |- context [process_urls E dir ms (?t, ?i) ?w1] =>
          destruct (IH t i w1) as [text' [k [new [Hrest Hfree]]]]
      end.
      * rewrite placeholder_downloaded_shape.
        apply (replace_keeps_absent old _ old_nonempty old_bracket_free
                 (old_not_in_downloaded n ext H) text (group m 0) Habsent).
      * eexists text', k, _. rewrite Hrest, <- app_assoc. auto.
    + match goal with
      | |- context [process_urls E dir ms (text, n) ?w1] =>
          destruct (IH text n w1 Habsent) as [text' [k [new [Hrest Hfree]]]]
      end.
      eexists text', k, _. rewrite Hrest, <- app_assoc. auto.
    + match goal with
      | |- context [process_urls E dir ms (text, n) ?w1] =>
          destruct (IH text n w1 Habsent) as [text' [k [new [Hrest Hfree]]]]
      end.
      eexists text', k, _. rewrite Hrest, <- app_assoc. auto.
Qed.

(** A later match of the span in the base64 loop: it is saved under the
    current number and leaves the text as it is. *)
Lemma process_base64_repeat (m' : rmatch) (text : str) (k : nat) (w : world) :
  group m' 0 = old ->
  contains old text = false ->
  exists r new,
    process_base64 E dir [m'] (text, k) w
    = (Ok (text, if saved r then k + 1 else k), w ++ new)
    /\ base64_run dir k r new.
Proof.
  intros Hm Habsent. cbn [process_base64]. unfold bind.
  destruct (save_base64_image_run E (group m' 1) dir k w) as [r [new [Hrun Hcase]]].
  rewrite Hrun. exists r, new. split; [| exact Hcase].
  inversion Hcase; subst r new.
  - rewrite saved_base64_image_path, Hm.
    rewrite (replace_absent text old _ old_nonempty Habsent). reflexivity.
  - reflexivity.
  - reflexivity.
Qed.

Lemma process_urls_repeat (m' : rmatch) (text : str) (k : nat) (w : world) :
  group m' 0 = old ->
  contains old text = false ->
  exists r new,
    process_urls E dir [m'] (text, k) w
    = (Ok (text, if saved r then k + 1 else k), w ++ new)
    /\ url_run dir old k r new.
Proof.
  intros Hm Habsent. cbn [process_urls]. unfold bind.
  destruct (download_image_from_url_run E (group m' 0) dir k w)
    as [r [new [Hrun Hcase]]].
  rewrite Hrun. exists r, new. rewrite <- Hm. split; [| exact Hcase].
  inversion Hcase; subst r new.
  - rewrite saved_url_image_path.
    rewrite (replace_absent text (group m' 0) _); [reflexivity | |].
    + rewrite Hm. exact old_nonempty.
    + rewrite Hm. exact Habsent.
  - reflexivity.
  - reflexivity.
Qed.

End Repeats.

(** C10 (amended). Take a span without square brackets (and, like every
    data URI and URL, with a colon bound to the next character) and an
    output directory without a colon.  When a match of the span is saved,
    the replacement removes every occurrence of the span from the text, and
    nothing the loop does afterwards brings one back.  A later match of the
    same span is still handed to the save function under the current
    number of the counter, so it gets a file of its own, but its replacement
    finds nothing to replace: the text after it is the text before it, and
    its placeholder is never inserted.  This holds for the base64 loop and
    for the URL loop. *)
Theorem C10_repeated_span (E : env) (dir old : str) :
  bracket_free old = true ->
  has_bound_colon old = true ->
  colon_free dir = true ->
  (forall m ms m' text n w path w1,
      group m 0 = old ->
      group m' 0 = old ->
      save_base64_image E (group m 1) dir n w = (Ok (Some path), w1) ->
      path = base64_image_path dir n
      /\ contains old (replace text old (placeholder_saved path)) = false
      /\ exists text' k new r new',
           process_base64 E dir (m :: ms) (text, n) w = (Ok (text', k), w1 ++ new)
           /\ contains old text' = false
           /\ process_base64 E dir (m :: ms ++ [m']) (text, n) w
              = (Ok (text', if saved r then k + 1 else k), (w1 ++ new) ++ new')
           /\ base64_run dir k r new')
  /\ (forall m ms m' text n w path w1,
         group m 0 = old ->
         group m' 0 = old ->
         download_image_from_url E (group m 0) dir n w = (Ok (Some path), w1) ->
         (exists ext, In ext extensions /\ path = url_image_path dir n ext)
         /\ contains old (replace text old (placeholder_downloaded path)) = false
         /\ exists text' k new r new',
              process_urls E dir (m :: ms) (text, n) w = (Ok (text', k), w1 ++ new)
              /\ contains old text' = false
              /\ process_urls E dir (m :: ms ++ [m']) (text, n) w
                 = (Ok (text', if saved r then k + 1 else k), (w1 ++ new) ++ new')
              /\ url_run dir old k r new').
Proof.
  intros Hfree Hcolon Hdir.
  pose proof (old_nonempty old Hcolon) as Hne.
  split.
  - intros m ms m' text n w path w1 Hm Hm' Hsave.
    destruct (save_base64_image_run E (group m 1) dir n w) as [r [new1 [Hrun Hcase]]].
    rewrite Hsave in Hrun. injection Hrun as <- ->.
    inversion Hcase; subst path new1. clear Hcase.
    assert (Hgone : contains old (replace text old
                      (placeholder_saved (base64_image_path dir n))) = false).
    { rewrite placeholder_saved_shape.
      apply (replace_removes old _ Hne Hfree (old_not_in_saved dir old Hcolon Hdir n)). }
    split; [reflexivity |]. split; [exact Hgone |].
    destruct (process_base64_keeps_absent E dir old Hfree Hcolon Hdir ms _ (n + 1)
                (w ++ [EvWrote (base64_image_path dir n) (Binary data);
                       EvPrint (MsgSavedBase64 (base64_image_path dir n))]) Hgone)
      as [text' [k [new [Hrest Hfree']]]].
    destruct (process_base64_repeat E dir old Hcolon m' text' k
                ((w ++ [EvWrote (base64_image_path dir n) (Binary data);
                        EvPrint (MsgSavedBase64 (base64_image_path dir n))]) ++ new)
                Hm' Hfree') as [r [new' [Hrep Hcase]]].
    exists text', k, new, r, new'.
    assert (Hstep : forall rest,
      process_base64 E dir (m :: rest) (text, n) w
      = process_base64 E dir rest
          (replace text old (placeholder_saved (base64_image_path dir n)), n + 1)
          (w ++ [EvWrote (base64_image_path dir n) (Binary data);
                 EvPrint (MsgSavedBase64 (base64_image_path dir n))])).
    { intros rest. cbn [process_base64]. unfold bind.
      rewrite Hsave, saved_base64_image_path, Hm. reflexivity. }
    repeat split; try assumption.
    + rewrite Hstep. exact Hrest.
    + rewrite Hstep, process_base64_app, Hrest. exact Hrep.
  - intros m ms m' text n w path w1 Hm Hm' Hsave.
    destruct (download_image_from_url_run E (group m 0) dir n w)
      as [r [new1 [Hrun Hcase]]].
    rewrite Hsave in Hrun. injection Hrun as <- ->.
    inversion Hcase as [ext body Hext Hpath Hnew| |]; subst path new1. clear Hcase.
    assert (Hgone : contains old (replace text old
                      (placeholder_downloaded (url_image_path dir n ext))) = false).
    { rewrite placeholder_downloaded_shape.
      apply (replace_removes old _ Hne Hfree
               (old_not_in_downloaded dir old Hcolon Hdir n ext Hext)). }
    split; [exists ext; split; [exact Hext | reflexivity] |]. split; [exact Hgone |].
    match type of Hsave with
    | _ = (_, ?w1) =>
        destruct (process_urls_keeps_absent E dir old Hfree Hcolon Hdir ms _ (n + 1)
                    w1 Hgone) as [text' [k [new [Hrest Hfree']]]];
        destruct (process_urls_repeat E dir old Hcolon m' text' k (w1 ++ new)
                    Hm' Hfree') as [r [new' [Hrep Hcase]]];
        assert (Hstep : forall rest,
          process_urls E dir (m :: rest) (text, n) w
          = process_urls E dir rest
              (replace text old (placeholder_downloaded (url_image_path dir n ext)), n + 1)
              w1)
    end.
    { intros rest. cbn [process_urls]. unfold bind.
      rewrite Hsave, saved_url_image_path, Hm. reflexivity. }
    exists text', k, new, r, new'.
    repeat split; try assumption.
    + rewrite Hstep. exact Hrest.
    + rewrite Hstep, process_urls_app, Hrest. exact Hrep.
Qed.

(** C10, as stated, fails when the span itself carries the text of a
    placeholder: the span [nested_span] occurs twice, then once more behind
    [data:image/]; replacing it by the placeholder of [image_1.png] rebuilds
    the span at that third place, so the replacement for the second match
    does insert the placeholder of [image_2.png]. *)
Lemma C10_counterexample :
  let run := save_mixed_content Sample.host nested_content (lit "out") [] in
  map (fun m => group m 0) (finditer base64_pattern false nested_content)
  = [nested_span; nested_span; lit "data:image/" ++ nested_span]
  /\ map fst (image_files (snd run))
     = [lit "out/image_1.png"; lit "out/image_2.png"; lit "out/image_3.png"]
  /\ read_back (files_written (snd run)) (lit "out/content.txt")
     = Some (Text (placeholder_saved (lit "out/image_1.png") ++ lit " "
                   ++ placeholder_saved (lit "out/image_1.png") ++ lit " "
                   ++ placeholder_saved (lit "out/image_2.png"))).
Proof. cbv zeta. repeat split; vm_compute; reflexivity. Qed.

(** ** Worked examples *)

(** C1 at three retries without delay, on a client that always reports an
    exhausted quota. *)
Lemma C1_witness :
  (1 <= 3)%Z
  /\ exists e new,
       call_openai_with_retry Sample.host (lit "gemini") (VList []) 3 0 [] = (Raise e, new)
       /\ is_quota_exceeded_error (str_of_exn e) = true
       /\ Z.of_nat (List.length (filter is_create new)) = 3%Z
       /\ filter is_sleep new = [].
Proof.
  split; [lia |].
  destruct (C1_quota_exhaustion Sample.host (lit "gemini") (VList []) 3 0 [])
    as [e [new [Hrun [Hq [_ [Hcalls [Hsleeps _]]]]]]].
  - lia.
  - intros w'. exists (SdkError (lit "Error: quota exceeded for this month")).
    split; reflexivity.
  - exists e, new. repeat split; assumption.
Defined.

(** C5 on a client that times out: the first of three attempts is
    followed at once by the second. *)
Lemma C5_witness :
  env_create Sample.slow_client [] (lit "gemini") (VList [])
  = inl (SdkError (lit "Request timed out after 120s"))
  /\ classify (lit "Request timed out after 120s") = Timeout
  /\ retry_loop Sample.slow_client (lit "gemini") (VList []) 3 5 3 0 []
     = retry_loop Sample.slow_client (lit "gemini") (VList []) 3 5 2 1
         [EvCreate (lit "gemini") (VList []);
          EvPrint (MsgApiCallFailed (lit "Request timed out after 120s"))].
Proof.
  split; [reflexivity |]. split; [reflexivity |].
  exact (proj2 (C5_retry_classification Sample.slow_client (lit "gemini") (VList [])
                  3 5 2 0 [] (SdkError (lit "Request timed out after 120s")) eq_refl)).
Defined.

(** C6 on the bytes "ABC" embedded in a sentence. *)
Lemma C6_witness :
  sample_bytes <> []
  /\ b64encode sample_bytes = lit "QUJD"
  /\ read_back
       (files_written
          (snd (save_mixed_content Sample.host
                  (lit "Here: " ++ data_uri_prefix ++ b64encode sample_bytes ++ lit " (end)")
                  (lit "out") [])))
       (base64_image_path (lit "out") 1)
     = Some (Binary sample_bytes).
Proof.
  split; [discriminate |]. split; [reflexivity |].
  refine (proj2 (proj2 (C6_round_trip Sample.host (lit "Here: ") (lit " (end)")
                          sample_bytes (lit "out") [] _ _ _ _))).
  - discriminate.
  - reflexivity.
  - right. exists " "%char, (lit "(end)"). split; reflexivity.
  - reflexivity.
Defined.

(** C8 on a plain sentence. *)
Lemma C8_witness :
  matches_somewhere false base64_pattern (lit "A cat.") = false
  /\ matches_somewhere true url_pattern (lit "A cat.") = false
  /\ exists tail,
       save_mixed_content Sample.host (lit "A cat.") (lit "out") [] = (Ok tt, tail)
       /\ files_written tail
          = [(lit "out/content.txt", Text (lit "A cat."));
             (lit "out/original_content.txt", Text (lit "A cat."))].
Proof.
  split; [reflexivity |]. split; [reflexivity |].
  destruct (C8_no_patterns Sample.host (lit "A cat.") (lit "out") [])
    as [tail [Hrun [_ [_ [_ Hfiles]]]]].
  - apply no_match_by_computation. reflexivity.
  - apply no_match_by_computation. reflexivity.
  - exists tail. split; [exact Hrun |]. apply Hfiles; reflexivity.
Defined.

(** C9 on a configuration whose two image files are both missing. *)
Lemma C9_witness :
  exists new,
    main Sample.host sample_config [] = (Ok (Exited 1), new)
    /\ reads new = [lit "missing-1.png"; lit "missing-2.png"]
    /\ filter is_network new = [].
Proof.
  destruct (C9_unreadable_images Sample.host sample_config [])
    as [images [new [_ [Hreads [_ [Himages Hexit]]]]]].
  assert (Hnone : images = []).
  { apply (Himages (env_read Sample.host [])). intros w' path. reflexivity. }
  destruct (Hexit Hnone) as [Hmain Hquiet].
  exists (new ++ [EvPrint MsgNoImages]). split; [exact Hmain |].
  split; [| exact Hquiet].
  rewrite reads_app, Hreads. reflexivity.
Defined.

(** C10 on a text in which the same span occurs twice. *)
Lemma C10_witness :
  bracket_free (group sample_span_match 0) = true
  /\ has_bound_colon (group sample_span_match 0) = true
  /\ colon_free (lit "out") = true
  /\ exists text' k w',
       process_base64 Sample.host (lit "out") [sample_span_match; sample_span_match]
         (lit "X data:image/png;base64,QUJD Y data:image/png;base64,QUJD", 1) []
       = (Ok (text', k), w')
       /\ contains (group sample_span_match 0) text' = false.
Proof.
  split; [reflexivity |]. split; [reflexivity |]. split; [reflexivity |].
  destruct (proj1 (C10_repeated_span Sample.host (lit "out") (group sample_span_match 0)
                     eq_refl eq_refl eq_refl)
              sample_span_match [] sample_span_match
              (lit "X data:image/png;base64,QUJD Y data:image/png;base64,QUJD") 1 []
              _ _ eq_refl eq_refl eq_refl)
    as [_ [_ [text' [k [new [r [new' [_ [Hfree [Hrun _]]]]]]]]]].
  eexists text', _, _. split; [exact Hrun | exact Hfree].
Defined.

(* ===================================================================== *)
(** * Part III: further properties of the code                            *)
(* ===================================================================== *)

(** ** The retry loop in any environment *)

Lemma calls_app (a b : world) : calls (a ++ b) = calls a + calls b.
Proof. unfold calls. rewrite filter_app, length_app. reflexivity. Qed.

Lemma sleeps_app (a b : world) :
  List.length (filter is_sleep (a ++ b))
  = List.length (filter is_sleep a) + List.length (filter is_sleep b).
Proof. rewrite filter_app, length_app. reflexivity. Qed.

Section RetryAny.
Variable E : env.
Variables (model : str) (messages : value).
Variables (max_retries retry_delay : Z).

Lemma failed_call_events (e : exn) :
  Forall (retry_event model messages retry_delay) (failed_call model messages e).
Proof. unfold failed_call. repeat constructor. Qed.

(** One run of the loop from any state in which the attempts still to come
    add up to [max_retries]. *)
Lemma retry_loop_any (n : nat) :
  forall (attempt : Z) (w : world),
    n = 0 \/ (attempt + Z.of_nat n = max_retries)%Z ->
    exists res new,
      retry_loop E model messages max_retries retry_delay n attempt w = (res, w ++ new)
      /\ Forall (retry_event model messages retry_delay) new
      /\ calls new <= n
      /\ (1 <= n -> 1 <= calls new)
      /\ List.length (filter is_sleep new) <= calls new - 1
      /\ match res with
         | Ok v =>
             (exists w', env_create E w' model messages = inr v)
             /\ (exists earlier, new = earlier ++ [EvCreate model messages])
         | Raise e =>
             (n = 0 /\ e = RetriesExhausted max_retries /\ new = [])
             \/ ((exists w', env_create E w' model messages = inl e)
                 /\ (classify (str_of_exn e) = NonRetryable \/ calls new = n))
         end.
Proof.
  induction n as [|n IH]; intros attempt w Hinv.
  - exists (Raise (RetriesExhausted max_retries)), [].
    cbn [retry_loop]. unfold raise. rewrite app_nil_r.
    split; [reflexivity |]. split; [constructor |].
    split; [cbn; lia |]. split; [lia |]. split; [cbn; lia |].
    left. auto.
  - destruct Hinv as [Hinv | Hinv]; [discriminate |].
    destruct (env_create E w model messages) as [e | v] eqn:Hc.
    + rewrite (retry_loop_failed_attempt _ _ _ _ _ _ _ _ _ Hc).
      unfold after_failed_attempt.
      assert (Hretry : forall sl,
        (sl = [] \/ (sl = [EvSleep retry_delay] /\ (0 < retry_delay)%Z)) ->
        (attempt <? max_retries - 1)%Z = true ->
        exists res new,
          retry_loop E model messages max_retries retry_delay n (attempt + 1)
            ((w ++ failed_call model messages e) ++ sl) = (res, w ++ new)
          /\ Forall (retry_event model messages retry_delay) new
          /\ calls new <= S n
          /\ (1 <= S n -> 1 <= calls new)
          /\ List.length (filter is_sleep new) <= calls new - 1
          /\ match res with
             | Ok v =>
                 (exists w', env_create E w' model messages = inr v)
                 /\ (exists earlier, new = earlier ++ [EvCreate model messages])
             | Raise e0 =>
                 (S n = 0 /\ e0 = RetriesExhausted max_retries /\ new = [])
                 \/ ((exists w', env_create E w' model messages = inl e0)
                     /\ (classify (str_of_exn e0) = NonRetryable \/ calls new = S n))
             end).
      { intros sl Hsl Hlt. apply Z.ltb_lt in Hlt.
        destruct (IH (attempt + 1)%Z ((w ++ failed_call model messages e) ++ sl))
          as [res [new [Hrun [Hev [Hle [Hge [Hsleep Hout]]]]]]]; [right; lia |].
        exists res, (failed_call model messages e ++ sl ++ new).
        rewrite Hrun, <- !app_assoc. split; [reflexivity |].
        assert (Hn : 1 <= n) by lia. specialize (Hge Hn).
        assert (Hcalls : calls (failed_call model messages e ++ sl ++ new) = S (calls new)).
        { rewrite !calls_app. destruct Hsl as [-> | [-> _]]; reflexivity. }
        split.
        { apply Forall_app; split; [apply failed_call_events |].
          apply Forall_app; split; [| exact Hev].
          destruct Hsl as [-> | [-> Hpos]]; repeat constructor. exact Hpos. }
        split; [lia |]. split; [lia |].
        split.
        { rewrite !sleeps_app.
          destruct Hsl as [-> | [-> _]]; cbn [failed_call filter is_sleep List.length];
            rewrite Hcalls; lia. }
        destruct res as [v | e0].
        - destruct Hout as [Hv [earlier ->]]. split; [exact Hv |].
          exists (failed_call model messages e ++ sl ++ earlier).
          rewrite <- !app_assoc. reflexivity.
        - right. destruct Hout as [[Hz _] | [Hsrc Hwhy]]; [lia |].
          split; [exact Hsrc |]. destruct Hwhy as [Hnr | Hall]; [left; exact Hnr |].
          right. lia. }
      destruct (classify (str_of_exn e)) eqn:Hclass.
      * destruct (attempt <? max_retries - 1)%Z eqn:Hlt.
        -- destruct (retry_delay >? 0)%Z eqn:Hd.
           ++ apply (Hretry [EvSleep retry_delay]); [right; split; [reflexivity | lia] | reflexivity].
           ++ rewrite <- (app_nil_r (w ++ failed_call model messages e)).
              apply (Hretry []); [left; reflexivity | reflexivity].
        -- exists (Raise e), (failed_call model messages e ++ [EvPrint MsgQuotaGiveUp]).
           rewrite <- app_assoc. split; [reflexivity |].
           split; [apply Forall_app; split; [apply failed_call_events | repeat constructor] |].
           split; [cbn; lia |]. split; [cbn; lia |]. split; [cbn; lia |].
           right. split; [exists w; exact Hc |]. right.
           apply Z.ltb_ge in Hlt. cbn. lia.
      * destruct (attempt <? max_retries - 1)%Z eqn:Hlt.
        -- rewrite <- (app_nil_r (w ++ failed_call model messages e)).
           apply (Hretry []); [left; reflexivity | reflexivity].
        -- exists (Raise e), (failed_call model messages e ++ [EvPrint MsgTimeoutGiveUp]).
           rewrite <- app_assoc. split; [reflexivity |].
           split; [apply Forall_app; split; [apply failed_call_events | repeat constructor] |].
           split; [cbn; lia |]. split; [cbn; lia |]. split; [cbn; lia |].
           right. split; [exists w; exact Hc |]. right.
           apply Z.ltb_ge in Hlt. cbn. lia.
      * exists (Raise e), (failed_call model messages e ++ [EvPrint MsgNotRetryable]).
        rewrite <- app_assoc. split; [reflexivity |].
        split; [apply Forall_app; split; [apply failed_call_events | repeat constructor] |].
        split; [cbn; lia |]. split; [cbn; lia |]. split; [cbn; lia |].
        right. split; [exists w; exact Hc |]. left. exact Hclass.
    + rewrite (retry_loop_success _ _ _ _ _ _ _ _ _ Hc).
      exists (Ok v), [EvCreate model messages]. split; [reflexivity |].
      split; [repeat constructor |].
      split; [cbn; lia |]. split; [cbn; lia |]. split; [cbn; lia |].
      split; [exists w; exact Hc | exists []; reflexivity].
Qed.

End RetryAny.

Section AllTimeouts.
Variable E : env.
Variables (model : str) (messages : value).
Variables (max_retries retry_delay : Z).
Hypothesis always_timeout :
  forall w, exists e,
    env_create E w model messages = inl e /\ classify (str_of_exn e) = Timeout.

Lemma retry_loop_all_timeouts (n : nat) :
  forall (attempt : Z) (w : world),
    (attempt + Z.of_nat (S n) = max_retries)%Z ->
    exists e new,
      retry_loop E model messages max_retries retry_delay (S n) attempt w
      = (Raise e, w ++ new)
      /\ classify (str_of_exn e) = Timeout
      /\ (exists w_last, env_create E w_last model messages = inl e)
      /\ calls new = S n
      /\ filter is_sleep new = []
      /\ (exists earlier, new = earlier ++ [EvPrint MsgTimeoutGiveUp]).
Proof.
  induction n as [|n IH]; intros attempt w Hn.
  - destruct (always_timeout w) as [e [He Hq]].
    exists e, (failed_call model messages e ++ [EvPrint MsgTimeoutGiveUp]).
    rewrite (retry_loop_failed_attempt _ _ _ _ _ _ _ _ _ He).
    unfold after_failed_attempt. rewrite Hq.
    replace (attempt <? max_retries - 1)%Z with false by (symmetry; apply Z.ltb_ge; lia).
    rewrite <- app_assoc.
    split; [reflexivity |]. split; [reflexivity |]. split; [exists w; exact He |].
    split; [reflexivity |]. split; [reflexivity |].
    exists (failed_call model messages e). reflexivity.
  - destruct (always_timeout w) as [e [He Hq]].
    rewrite (retry_loop_failed_attempt _ _ _ _ _ _ _ _ _ He).
    unfold after_failed_attempt. rewrite Hq.
    replace (attempt <? max_retries - 1)%Z with true by (symmetry; apply Z.ltb_lt; lia).
    destruct (IH (attempt + 1)%Z (w ++ failed_call model messages e))
      as [e' [new [Hrun [Hq' [Hlast [Hcalls [Hsleeps [earlier Hmsg]]]]]]]]; [lia |].
    exists e', (failed_call model messages e ++ new).
    rewrite Hrun, <- app_assoc.
    split; [reflexivity |]. split; [exact Hq' |]. split; [exact Hlast |].
    split; [rewrite calls_app, Hcalls; reflexivity |].
    split; [rewrite filter_app, Hsleeps; reflexivity |].
    exists (failed_call model messages e ++ earlier). rewrite Hmsg, <- app_assoc. reflexivity.
Qed.

End AllTimeouts.

(** X1. Whatever the client answers, [call_openai_with_retry] stops: it
    calls the client at most [max_retries] times (never when [max_retries]
    is not positive), always with the model and the messages it was given;
    it sleeps only for the configured delay, only when that delay is
    positive, and at most once between two calls; and it does nothing else
    than calling, sleeping and printing. *)
Theorem X1_retry_bounded (E : env) (model : str) (messages : value)
    (max_retries retry_delay : Z) (w : world) :
  exists res new,
    call_openai_with_retry E model messages max_retries retry_delay w = (res, w ++ new)
    /\ Forall (retry_event model messages retry_delay) new
    /\ (Z.of_nat (calls new) <= Z.max 0 max_retries)%Z
    /\ List.length (filter is_sleep new) <= calls new - 1.
Proof.
  unfold call_openai_with_retry.
  destruct (retry_loop_any E model messages max_retries retry_delay
              (Z.to_nat max_retries) 0%Z w)
    as [res [new [Hrun [Hev [Hle [_ [Hsleep _]]]]]]].
  - destruct (Z.to_nat max_retries) eqn:Hn; [left; reflexivity | right; lia].
  - exists res, new. split; [exact Hrun |]. split; [exact Hev |].
    split; [lia | exact Hsleep].
Qed.

(** X2. Where the outcome of [call_openai_with_retry] comes from.  A value
    it returns is the answer of a call of the client, and that call is the
    last thing it did.  An error it raises is the error of a call of the
    client, and then either that error is not retryable (neither quota nor
    timeout) or all [max_retries] calls were made; the only other error is
    the final [Exception] of line 322, raised without any call exactly
    when [max_retries] is not positive. *)
Theorem X2_retry_outcome (E : env) (model : str) (messages : value)
    (max_retries retry_delay : Z) (w : world) :
  exists res new,
    call_openai_with_retry E model messages max_retries retry_delay w = (res, w ++ new)
    /\ retry_outcome E model messages max_retries res new
    /\ ((max_retries <= 0)%Z ->
        res = Raise (RetriesExhausted max_retries) /\ new = []).
Proof.
  unfold call_openai_with_retry.
  destruct (retry_loop_any E model messages max_retries retry_delay
              (Z.to_nat max_retries) 0%Z w)
    as [res [new [Hrun [_ [Hle [Hge [_ Hout]]]]]]].
  - destruct (Z.to_nat max_retries) eqn:Hn; [left; reflexivity | right; lia].
  - assert (Hneg : (max_retries <= 0)%Z ->
                   res = Raise (RetriesExhausted max_retries) /\ new = []).
    { intros Hneg. replace (Z.to_nat max_retries) with 0 in Hrun by lia.
      cbn [retry_loop] in Hrun. unfold raise in Hrun.
      injection Hrun as Hres Hw. split; [symmetry; exact Hres |].
      apply (app_inv_head w). rewrite app_nil_r. symmetry. exact Hw. }
    exists res, new. split; [exact Hrun |]. split; [| exact Hneg].
    unfold retry_outcome. destruct res as [v | e]; [exact Hout |].
    destruct (Z_le_gt_dec max_retries 0) as [Hz | Hz].
    + left. destruct (Hneg Hz) as [He Hnew]. injection He as He.
      split; [exact Hz | split; assumption].
    + destruct Hout as [[Hz' _] | [Hsrc Hwhy]]; [lia |].
      right. split; [exact Hsrc |].
      destruct Hwhy as [Hnr | Hall]; [left; exact Hnr | right]. lia.
Qed.

(** X3. With [max_retries = N >= 1] and a client whose every call fails
    with a timeout error, [call_openai_with_retry] calls the client exactly
    [N] times without ever sleeping, whatever the configured delay, and
    then re-raises the timeout error of the last call; the last thing it
    prints is the timeout give-up message. *)
Theorem X3_timeout_exhaustion (E : env) (model : str) (messages : value)
    (N retry_delay : Z) (w : world) :
  (1 <= N)%Z ->
  (forall w', exists e,
      env_create E w' model messages = inl e
      /\ classify (str_of_exn e) = Timeout) ->
  exists e new,
    call_openai_with_retry E model messages N retry_delay w = (Raise e, w ++ new)
    /\ classify (str_of_exn e) = Timeout
    /\ (exists w_last, env_create E w_last model messages = inl e)
    /\ Z.of_nat (calls new) = N
    /\ filter is_sleep new = []
    /\ (exists earlier, new = earlier ++ [EvPrint MsgTimeoutGiveUp]).
Proof.
  intros HN Hall. unfold call_openai_with_retry.
  destruct (Z.to_nat N) as [|n] eqn:Hn; [lia |].
  destruct (retry_loop_all_timeouts E model messages N retry_delay Hall n 0%Z w)
    as [e [new [Hrun [Hq [Hlast [Hcalls [Hsleeps Hmsg]]]]]]]; [lia |].
  exists e, new. split; [exact Hrun |]. split; [exact Hq |]. split; [exact Hlast |].
  split; [lia |]. split; [exact Hsleeps | exact Hmsg].
Qed.

(** X3 at three retries with a delay of five seconds, on a client whose
    calls time out. *)
Lemma X3_witness :
  (1 <= 3)%Z
  /\ exists e new,
       call_openai_with_retry Sample.slow_client (lit "gemini") (VList []) 3 5 []
       = (Raise e, new)
       /\ Z.of_nat (calls new) = 3%Z
       /\ filter is_sleep new = [].
Proof.
  split; [lia |].
  destruct (X3_timeout_exhaustion Sample.slow_client (lit "gemini") (VList []) 3 5 [])
    as [e [new [Hrun [_ [_ [Hcalls [Hsleeps _]]]]]]].
  - lia.
  - intros w'. exists (SdkError (lit "Request timed out after 120s")).
    split; reflexivity.
  - exists e, new. split; [exact Hrun |]. split; assumption.
Defined.

(** ** Computations confined to a class of events *)

Section Only.
Variable ok : event -> bool.

Lemma only_ret {A} (a : A) : only ok (ret a).
Proof. intros w. exists (Ok a), []. rewrite app_nil_r. split; reflexivity. Qed.

Lemma only_raise {A} (e : exn) : only ok (@raise A e).
Proof. intros w. exists (Raise e), []. rewrite app_nil_r. split; reflexivity. Qed.

Lemma only_lift {A} (r : result A) : only ok (lift r).
Proof. intros w. exists r, []. rewrite app_nil_r. split; reflexivity. Qed.

Lemma only_emit (ev : event) : ok ev = true -> only ok (emit ev).
Proof.
  intros Hev w. exists (Ok tt), [ev]. split; [reflexivity |].
  cbn. rewrite Hev. reflexivity.
Qed.

Lemma only_print (m : message) : ok (EvPrint m) = true -> only ok (print m).
Proof. apply only_emit. Qed.

Lemma only_bind {A B} (m : M A) (k : A -> M B) :
  only ok m -> (forall a, only ok (k a)) -> only ok (bind m k).
Proof.
  intros Hm Hk w. unfold bind. destruct (Hm w) as [res [new [Hrun Hq]]]. rewrite Hrun.
  destruct res as [a|e].
  - destruct (Hk a (w ++ new)) as [res' [new' [Hrun' Hq']]].
    exists res', (new ++ new'). rewrite Hrun', <- app_assoc, forallb_app, Hq, Hq'.
    split; reflexivity.
  - exists (Raise e), new. split; [reflexivity | exact Hq].
Qed.

Lemma only_try_except {A} (m : M A) (h : exn -> M A) :
  only ok m -> (forall e, only ok (h e)) -> only ok (try_except m h).
Proof.
  intros Hm Hh w. unfold try_except. destruct (Hm w) as [res [new [Hrun Hq]]]. rewrite Hrun.
  destruct res as [a|e].
  - exists (Ok a), new. split; [reflexivity | exact Hq].
  - destruct (Hh e (w ++ new)) as [res' [new' [Hrun' Hq']]].
    exists res', (new ++ new'). rewrite Hrun', <- app_assoc, forallb_app, Hq, Hq'.
    split; reflexivity.
Qed.

Lemma only_write_file (E : env) (path : str) (f : file) :
  (forall p g, ok (EvWrote p g) = true) -> (forall p, ok (EvWriteFailed p) = true) ->
  only ok (write_file E path f).
Proof.
  intros H1 H2 w. unfold write_file. destruct (env_write E w path f) as [e|].
  - exists (Raise e), [EvWriteFailed path]. split; [reflexivity |]. cbn. rewrite H2. reflexivity.
  - exists (Ok tt), [EvWrote path f]. split; [reflexivity |]. cbn. rewrite H1. reflexivity.
Qed.

Lemma only_read_file (E : env) (path : str) :
  (forall p, ok (EvRead p) = true) -> only ok (read_file E path).
Proof.
  intros H w. unfold read_file. eexists _, [EvRead path]. split; [reflexivity |].
  cbn. rewrite H. reflexivity.
Qed.

Lemma only_http_get (E : env) (url : str) :
  (forall u, ok (EvGet u) = true) -> only ok (http_get E url).
Proof.
  intros H w. unfold http_get. eexists _, [EvGet url]. split; [reflexivity |].
  cbn. rewrite H. reflexivity.
Qed.

Lemma only_http_post (E : env) (url : str) (d : value) :
  (forall u x, ok (EvPost u x) = true) -> only ok (http_post E url d).
Proof.
  intros H w. unfold http_post. eexists _, [EvPost url d]. split; [reflexivity |].
  cbn. rewrite H. reflexivity.
Qed.

Lemma only_raise_for_status (r : http_response) : only ok (raise_for_status r).
Proof. unfold raise_for_status. destruct (_ && _)%bool; [apply only_raise | apply only_ret]. Qed.

End Only.

(** The events of the same run are the same. *)
Lemma same_run {A} (m : M A) (w : world) (res1 res2 : result A) (new1 new2 : list event) :
  m w = (res1, w ++ new1) -> m w = (res2, w ++ new2) -> res1 = res2 /\ new1 = new2.
Proof.
  intros H1 H2. rewrite H1 in H2. injection H2 as Hres Hnew.
  split; [exact Hres | exact (app_inv_head w _ _ Hnew)].
Qed.

Ltac only_step :=
  first
    [ apply only_ret | apply only_raise | apply only_lift
    | apply only_raise_for_status
    | apply only_print; reflexivity
    | apply only_emit; reflexivity
    | apply only_write_file; intros; reflexivity
    | apply only_read_file; intros; reflexivity
    | apply only_http_get; intros; reflexivity
    | apply only_http_post; intros; reflexivity
    | apply only_bind; [| intros ?]
    | apply only_try_except; [| intros ?] ].

Ltac only_steps := repeat only_step.

(** *** The phases *)

Lemma prepare_image_data_only (E : env) (image_path : str) :
  only preparing (prepare_image_data E image_path).
Proof. unfold prepare_image_data. only_steps. Qed.

Lemma prepare_images_only (E : env) (image_paths : list str) :
  forall image_contents, only preparing (prepare_images E image_paths image_contents).
Proof.
  induction image_paths as [|p rest IH]; intros acc; cbn [prepare_images].
  - only_steps.
  - apply only_bind; [| intros a; apply IH].
    apply only_try_except; [| intros e; only_steps].
    apply only_bind; [apply prepare_image_data_only | intros d; only_steps].
Qed.

Lemma save_base64_image_only (E : env) (data dir : str) (n : nat) :
  only saving (save_base64_image E data dir n).
Proof.
  unfold save_base64_image.
  apply only_try_except; [| intros e; only_steps].
  apply only_bind; [destruct (startswith _ _); only_steps | intros d].
  only_steps.
Qed.

Lemma download_image_from_url_only (E : env) (url dir : str) (n : nat) :
  only saving (download_image_from_url E url dir n).
Proof.
  unfold download_image_from_url.
  apply only_try_except; [| intros e; only_steps].
  apply only_bind; [only_steps | intros r].
  apply only_bind; [only_steps | intros _].
  destruct (resp_broken r); only_steps.
Qed.

Lemma process_base64_only (E : env) (dir : str) (ms : list rmatch) :
  forall st, only saving (process_base64 E dir ms st).
Proof.
  induction ms as [|m rest IH]; intros [text n]; cbn [process_base64].
  - only_steps.
  - apply only_bind; [apply save_base64_image_only | intros r].
    destruct r as [path|]; [destruct (saved (Some path)) |]; apply IH.
Qed.

Lemma process_urls_only (E : env) (dir : str) (ms : list rmatch) :
  forall st, only saving (process_urls E dir ms st).
Proof.
  induction ms as [|m rest IH]; intros [text n]; cbn [process_urls].
  - only_steps.
  - apply only_bind; [apply download_image_from_url_only | intros r].
    destruct r as [path|]; [destruct (saved (Some path)) |]; apply IH.
Qed.

Lemma save_mixed_content_only (E : env) (content dir : str) :
  only saving (save_mixed_content E content dir).
Proof.
  unfold save_mixed_content.
  apply only_try_except; [| intros e; only_steps].
  apply only_bind; [apply process_base64_only | intros st].
  apply only_bind; [apply process_urls_only | intros st'].
  only_steps.
Qed.

Lemma report_and_save_only (E : env) (response_content : value) (dir : str) :
  only saving (report_and_save E response_content dir).
Proof.
  unfold report_and_save. destruct response_content;
    try (destruct (Nat.ltb _ _)); try apply save_mixed_content_only; only_steps.
Qed.

Lemma call_api_raw_only (E : env) (base_url model : str) (messages : value)
    (use_stream : bool) (output_dir : option str) :
  only posting (call_api_raw E base_url model messages use_stream output_dir).
Proof.
  unfold call_api_raw.
  apply only_try_except; [| intros e; destruct (is_request_exception e); only_steps].
  apply only_bind; [only_steps | intros r].
  apply only_bind; [only_steps | intros _].
  apply only_bind.
  - destruct use_stream; [| only_steps].
    apply only_bind; [only_steps | intros st].
    apply only_bind; [destruct (resp_broken r); only_steps | intros _].
    apply only_bind; [| intros _; only_steps].
    destruct output_dir as [dir|]; [destruct (is_set (Some dir)) |]; only_steps.
  - intros v. apply only_bind; [| intros _; only_steps].
    destruct output_dir as [dir|]; [destruct (is_set (Some dir)) |]; only_steps.
Qed.

Lemma retry_events_falling_back (model : str) (messages : value) (retry_delay : Z)
    (new : list event) :
  Forall (retry_event model messages retry_delay) new -> forallb falling_back new = true.
Proof.
  intros H. apply forallb_forall. intros ev Hin.
  rewrite Forall_forall in H. specialize (H ev Hin).
  destruct ev; cbn in H; try contradiction; reflexivity.
Qed.

Lemma retry_events_calls (model : str) (messages : value) (retry_delay : Z)
    (new : list event) :
  Forall (retry_event model messages retry_delay) new ->
  filter is_create new = repeat (EvCreate model messages) (calls new).
Proof.
  induction 1 as [|ev new Hev _ IH]; [reflexivity |].
  unfold calls in *. destruct ev; cbn in Hev; try contradiction;
    cbn [filter is_create]; try exact IH.
  destruct Hev as [-> ->]. cbn [List.length repeat]. f_equal. exact IH.
Qed.

(** The fallback in any environment. *)
Lemma call_openai_with_retry_run (E : env) (model : str) (messages : value)
    (max_retries retry_delay : Z) (w : world) :
  exists res new,
    call_openai_with_retry E model messages max_retries retry_delay w = (res, w ++ new)
    /\ forallb falling_back new = true
    /\ (Z.of_nat (calls new) <= Z.max 0 max_retries)%Z
    /\ filter is_create new = repeat (EvCreate model messages) (calls new).
Proof.
  unfold call_openai_with_retry.
  destruct (retry_loop_any E model messages max_retries retry_delay
              (Z.to_nat max_retries) 0%Z w)
    as [res [new [Hrun [Hev [Hle _]]]]].
  - destruct (Z.to_nat max_retries) eqn:Hn; [left; reflexivity | right; lia].
  - exists res, new. split; [exact Hrun |].
    split; [exact (retry_events_falling_back _ _ _ _ Hev) |].
    split; [lia | exact (retry_events_calls _ _ _ _ Hev)].
Qed.

(** Lines 375-401: the primary transport, then the fallback if it failed. *)
Lemma acquire_phases (E : env) (cfg : config) (messages : value) (dir : str) (w : world) :
  exists res primary fallback,
    acquire E cfg messages dir w = (res, w ++ primary ++ fallback)
    /\ forallb posting primary = true
    /\ filter is_post primary
       = [EvPost (endpoint (BASE_URL cfg))
            (request_data (MODEL_NAME cfg) messages (USE_STREAM cfg))]
    /\ forallb falling_back fallback = true
    /\ (Z.of_nat (calls fallback) <= Z.max 0 (MAX_RETRIES cfg))%Z
    /\ filter is_create fallback
       = repeat (EvCreate (MODEL_NAME cfg) messages) (calls fallback)
    /\ (match res with
        | Ok (_, true) => fallback = []
        | Ok (_, false) | Raise _ =>
            exists e tail, fallback = EvPrint (MsgFallingBack e) :: tail
        end).
Proof.
  unfold acquire, try_except.
  destruct (call_api_raw_posts_once E (BASE_URL cfg) (MODEL_NAME cfg) messages
              (Some dir) w (USE_STREAM cfg)) as [res [new [Hrun Hposts]]].
  destruct (call_api_raw_only E (BASE_URL cfg) (MODEL_NAME cfg) messages
              (USE_STREAM cfg) (Some dir) w) as [res' [new' [Hrun' Hok]]].
  destruct (same_run _ _ _ _ _ _ Hrun Hrun') as [_ <-]. clear Hrun' res'.
  unfold bind at 1. rewrite Hrun. destruct res as [v | e].
  - exists (Ok (v, true)), new, []. rewrite app_nil_r.
    split; [reflexivity |]. split; [exact Hok |]. split; [exact Hposts |].
    split; [reflexivity |]. split; [cbn; lia |]. split; reflexivity.
  - unfold bind, print, emit.
    destruct (call_openai_with_retry_run E (MODEL_NAME cfg) messages (MAX_RETRIES cfg)
                (RETRY_DELAY cfg) ((w ++ new) ++ [EvPrint (MsgFallingBack e)]))
      as [res [fb [Hfb [Hfbok [Hcalls Hsame]]]]].
    rewrite Hfb.
    assert (Hshape : ((w ++ new) ++ [EvPrint (MsgFallingBack e)]) ++ fb
                     = w ++ new ++ EvPrint (MsgFallingBack e) :: fb).
    { rewrite <- !app_assoc. reflexivity. }
    destruct res as [v | e'].
    + exists (Ok (v, false)), new, (EvPrint (MsgFallingBack e) :: fb).
      unfold ret. rewrite Hshape.
      split; [reflexivity |]. split; [exact Hok |]. split; [exact Hposts |].
      split; [cbn; exact Hfbok |]. split; [exact Hcalls |].
      split; [exact Hsame |].
      exists e, fb. reflexivity.
    + exists (Raise e'), new, (EvPrint (MsgFallingBack e) :: fb).
      rewrite Hshape.
      split; [reflexivity |]. split; [exact Hok |]. split; [exact Hposts |].
      split; [cbn; exact Hfbok |]. split; [exact Hcalls |].
      split; [exact Hsame |].
      exists e, fb. reflexivity.
Qed.

(** X4. The order of a whole run, in any environment and for any
    configuration.  The script first reads the images (and does nothing else
    than reading and printing).  Then it either exits with status 1 for want
    of an image; or fails to create the output directory and stops with
    that error before any request; or posts the request exactly once (with
    at most the writes of the debug files), then
    may call the SDK client, at most [MAX_RETRIES] times and always with
    the model and the messages of the request (with nothing but sleeps and
    reports in between), and last downloads images and writes the results,
    without any further request.  It never exits with another status than
    1. *)
Theorem X4_pipeline_phases (E : env) (cfg : config) (w : world) :
  exists res prep rest,
    main E cfg w = (res, w ++ prep ++ rest)
    /\ pipeline_order E cfg w res prep rest.
Proof.
  unfold main. fold (configured_paths cfg).
  destruct (prepare_images_total E (configured_paths cfg) [] w)
    as [images [prep [Hrun _]]].
  destruct (prepare_images_only E (configured_paths cfg) [] w) as [res' [new' [Hrun' Hprep]]].
  destruct (same_run _ _ _ _ _ _ Hrun Hrun') as [_ <-]. clear Hrun' res'.
  unfold bind at 1. rewrite Hrun.
  destruct images as [|image images].
  - exists (Ok (Exited 1)), prep, [EvPrint MsgNoImages].
    unfold bind, print, emit, ret. rewrite <- app_assoc.
    split; [reflexivity |]. split; [exact Hprep |]. left. split; reflexivity.
  - set (messages := build_messages cfg (image :: images)).
    set (dir := lit "output_" ++ env_timestamp E (w ++ prep)).
    unfold bind at 1. unfold create_output_directory. fold dir.
    unfold bind at 1. unfold makedirs.
    destruct (env_mkdir E (w ++ prep) dir) as [e|] eqn:Hmk.
    + exists (Raise e), prep, [EvMkdir dir]. rewrite <- app_assoc.
      split; [reflexivity |]. split; [exact Hprep |].
      right. left. exists e. split; [reflexivity |]. split; [reflexivity | exact Hmk].
    + unfold ret at 1.
      destruct (acquire_phases E cfg messages dir ((w ++ prep) ++ [EvMkdir dir]))
        as [res [primary [fallback [Hacq [Hp [Hposts [Hf [Hcalls [Hsame _]]]]]]]]].
      assert (Hthird : forall (res : result status) save,
                (forall code, res <> Ok (Exited code)) ->
                forallb saving save = true ->
                exists res0 prep0 rest,
                  (res, (((w ++ prep) ++ [EvMkdir dir]) ++ primary ++ fallback) ++ save)
                  = (res0, w ++ prep0 ++ rest)
                  /\ pipeline_order E cfg w res0 prep0 rest).
      { intros res0 save Hres Hsave.
        exists res0, prep, (EvMkdir dir :: primary ++ fallback ++ save).
        split; [rewrite <- !app_assoc; reflexivity |]. split; [exact Hprep |].
        right. right. split; [exact Hres |].
        exists messages, primary, fallback, save.
        split; [reflexivity |]. split; [exact Hp |]. split; [exact Hposts |].
        split; [exact Hf |]. split; [exact Hcalls |].
        split; [exact Hsame | exact Hsave]. }
      unfold bind at 1. rewrite Hacq.
      destruct res as [[completion use_raw] | e].
      * unfold bind at 1. unfold lift.
        destruct (if use_raw then raw_response_content E completion
                  else client_response_content E completion) as [content | e].
        -- destruct (report_and_save_only E content dir
                       (((w ++ prep) ++ [EvMkdir dir]) ++ primary ++ fallback))
             as [r [save [Hsave Hok]]].
           unfold bind. rewrite Hsave. destruct r as [[] | e].
           ++ unfold ret. apply Hthird; [discriminate | exact Hok].
           ++ apply Hthird; [discriminate | exact Hok].
        -- rewrite <- (app_nil_r (_ ++ primary ++ fallback)).
           apply Hthird; [discriminate | reflexivity].
      * rewrite <- (app_nil_r (_ ++ primary ++ fallback)).
        apply Hthird; [discriminate | reflexivity].
Qed.

(** ** Reading the stream *)

Lemma read_stream_app (E : env) (lines1 lines2 : list str) :
  forall full_content all_chunks,
    read_stream E (lines1 ++ lines2) full_content all_chunks
    = rbind (read_stream E lines1 full_content all_chunks)
        (fun st => read_stream E lines2 (fst st) (snd st)).
Proof.
  induction lines1 as [|line lines1 IH]; intros fc chunks; [reflexivity |].
  cbn [app read_stream]. destruct line as [|c line]; [apply IH |].
  destruct (startswith (lit "data: ") (c :: line)); [| apply IH].
  destruct (negb (str_eqb (skipn 6 (c :: line)) (lit "[DONE]"))); [| apply IH].
  destruct (env_json_loads E (skipn 6 (c :: line))) as [chunk|]; [| apply IH].
  destruct (chunk_content chunk fc) as [fc' | e]; [apply IH | reflexivity].
Qed.

Lemma read_stream_data_line (E : env) (payload : str) (rest : list str)
    (full_content : str) (all_chunks : list value) :
  read_stream E ((lit "data: " ++ payload) :: rest) full_content all_chunks
  = if negb (str_eqb payload (lit "[DONE]")) then
      match env_json_loads E payload with
      | Some chunk =>
          rbind (chunk_content chunk full_content) (fun full_content' =>
          read_stream E rest full_content' (all_chunks ++ [chunk]))
      | None => read_stream E rest full_content all_chunks
      end
    else read_stream E rest full_content all_chunks.
Proof. reflexivity. Qed.

Lemma chunk_content_carries (chunk : value) (s full_content : str) :
  carries chunk s -> chunk_content chunk full_content = Ok (full_content ++ s).
Proof.
  intros H. destruct H; unfold chunk_content; cbn [py_in py_getitem rbind].
  - rewrite H. cbn [rbind py_nonempty truthy py_first py_get]. rewrite H0.
    cbn [rbind py_in py_getitem]. rewrite H1. reflexivity.
  - rewrite H, app_nil_r. reflexivity.
  - rewrite H, app_nil_r. reflexivity.
  - rewrite H. cbn [rbind py_nonempty truthy py_first py_get]. rewrite H0.
    cbn [rbind py_in py_getitem lookup]. rewrite app_nil_r. reflexivity.
  - rewrite H. cbn [rbind py_nonempty truthy py_first py_get]. rewrite H0.
    cbn [rbind py_in py_getitem]. rewrite H1, app_nil_r. reflexivity.
Qed.

Lemma chunk_content_bad_delta (chunk : value) (full_content : str) :
  bad_delta chunk -> chunk_content chunk full_content = Raise TypeError.
Proof.
  intros [entries [choice [others [delta [v [-> [Hc [Hd [Hv Hns]]]]]]]]].
  unfold chunk_content; cbn [py_in py_getitem rbind].
  rewrite Hc. cbn [rbind py_nonempty truthy py_first py_get]. rewrite Hd.
  cbn [rbind py_in py_getitem]. rewrite Hv. cbn [rbind].
  destruct v; try reflexivity. exfalso. exact (Hns _ eq_refl).
Qed.

(** X5. The result of reading a stream depends only on the [data: ] lines
    whose payload is JSON: empty lines, lines that do not start with
    [data: ] (comments, other fields, [data:] without the space), payloads
    that are no JSON and the [DONE] marker are passed over wherever they
    stand.  In particular [DONE] does not end the reading: the lines after
    it count like the others. *)
Theorem X5_stream_ignored_lines (E : env) (lines : list str) :
  forall (full_content : str) (all_chunks : list value),
    read_stream E lines full_content all_chunks
    = read_stream E (filter (fun line => negb (ignored_line E line)) lines)
        full_content all_chunks.
Proof.
  induction lines as [|line lines IH]; intros fc chunks; [reflexivity |].
  cbn [filter]. destruct line as [|c line]; [cbn [ignored_line negb read_stream]; apply IH |].
  unfold ignored_line. cbn [read_stream].
  destruct (startswith (lit "data: ") (c :: line)) eqn:Hstart;
    [| cbn [negb]; apply IH].
  destruct (str_eqb (skipn 6 (c :: line)) (lit "[DONE]")) eqn:Hdone;
    cbn [negb orb]; [apply IH |].
  destruct (env_json_loads E (skipn 6 (c :: line))) as [chunk|] eqn:Hloads;
    cbn [negb]; [| apply IH].
  cbn [read_stream]. rewrite Hstart, Hdone, Hloads. cbn [negb].
  destruct (chunk_content chunk fc) as [fc' | e]; [apply IH | reflexivity].
Qed.

(** X6. What a well-formed stream adds up to.  When every line is a
    [data: ] line whose payload parses to a chunk, the content is the
    concatenation, in order, of the texts the chunks carry in the [delta]
    of their first choice (a chunk without choice, delta or content adds
    nothing; further choices are not looked at), and all chunks are kept,
    in order. *)
Theorem X6_stream_accumulates (E : env) (parts : list part) :
  Forall (well_formed E) parts ->
  forall (full_content : str) (all_chunks : list value),
    read_stream E (map part_line parts) full_content all_chunks
    = Ok (full_content ++ List.concat (map part_text parts),
          all_chunks ++ map part_chunk parts).
Proof.
  induction 1 as [|p parts [Hdone [Hloads Hcarries]] _ IH]; intros fc chunks.
  - cbn. rewrite !app_nil_r. reflexivity.
  - cbn [map]. unfold part_line at 1. rewrite read_stream_data_line.
    replace (str_eqb (part_payload p) (lit "[DONE]")) with false.
    + cbn [negb]. rewrite Hloads, (chunk_content_carries _ _ fc Hcarries).
      cbn [rbind]. rewrite IH. cbn [List.concat map].
      rewrite <- !app_assoc. reflexivity.
    + symmetry. destruct (str_eqb _ _) eqn:Heq; [| reflexivity].
      apply str_eqb_eq in Heq. contradiction.
Qed.

(** X6 on a stream of two chunks. *)
Lemma X6_witness :
  Forall (well_formed (Stream.server [])) Stream.parts
  /\ read_stream (Stream.server [])
       [lit "data: " ++ Stream.hel; lit "data: " ++ Stream.lo] [] []
     = Ok (lit "Hello",
           [Stream.chunk_of (VStr (lit "Hel")); Stream.chunk_of (VStr (lit "lo"))]).
Proof.
  assert (H : Forall (well_formed (Stream.server [])) Stream.parts).
  { repeat constructor; try (intros Heq; discriminate Heq).
    - eapply CarriesText; reflexivity.
    - eapply CarriesText; reflexivity. }
  split; [exact H |].
  exact (X6_stream_accumulates (Stream.server []) Stream.parts H [] []).
Defined.

(** ** The streaming call, end to end *)

Section StreamedCall.
Variable E : env.
Variables (base_url model : str) (messages : value).
Variable w : world.
Variable r : http_response.

Let url := endpoint base_url.
Let data := request_data model messages true.

Hypothesis posted : env_post E w url data = inr r.
Hypothesis status_ok : is_error_status (resp_status r) = false.

(** The call up to the end of the stream. *)
Lemma call_api_raw_stream_read (output_dir : option str) :
  call_api_raw E base_url model messages true output_dir w
  = try_except
      (json_response <-
         (st <- lift (read_stream E (resp_lines r) [] []) ;;
          (match resp_broken r with
           | Some e => raise e
           | None => ret tt
           end) ;;
          (match output_dir with
           | Some dir =>
               if is_set output_dir
               then write_file E (path_join dir (lit "stream_chunks.json"))
                      (JsonDump (VList (snd st)))
               else ret tt
           | None => ret tt
           end) ;;
          ret (stream_response (fst st) (snd st))) ;;
       (match output_dir with
        | Some dir =>
            if is_set output_dir
            then write_file E (path_join dir (lit "raw_api_response.json"))
                   (JsonDump json_response)
            else ret tt
        | None => ret tt
        end) ;;
       ret json_response)
      (fun e =>
         if is_request_exception e
         then print (MsgHttpFailed e) ;; raise e
         else raise e)
      (w ++ [EvPost url data]).
Proof.
  unfold call_api_raw, try_except, bind at 1, http_post.
  fold (endpoint base_url) (request_data model messages true). fold url data.
  rewrite posted. cbn [of_sum]. unfold bind at 1, raise_for_status.
  unfold is_error_status in status_ok. rewrite status_ok.
  unfold ret at 1. reflexivity.
Qed.

Lemma call_api_raw_bad_chunk (output_dir : option str) (e : exn) :
  read_stream E (resp_lines r) [] [] = Raise e ->
  is_request_exception e = false ->
  call_api_raw E base_url model messages true output_dir w
  = (Raise e, w ++ [EvPost url data]).
Proof.
  intros Hread Hkind. rewrite call_api_raw_stream_read.
  unfold try_except, bind at 1, bind at 1, lift. rewrite Hread, Hkind. reflexivity.
Qed.

Lemma call_api_raw_streamed (dir : str) (full_content : str) (all_chunks : list value) :
  dir <> [] ->
  read_stream E (resp_lines r) [] [] = Ok (full_content, all_chunks) ->
  resp_broken r = None ->
  let chunks_path := path_join dir (lit "stream_chunks.json") in
  let response_path := path_join dir (lit "raw_api_response.json") in
  let response := stream_response full_content all_chunks in
  let w1 := w ++ [EvPost url data] in
  call_api_raw E base_url model messages true (Some dir) w
  = match env_write E w1 chunks_path (JsonDump (VList all_chunks)) with
    | Some e =>
        (Raise e,
         w1 ++ EvWriteFailed chunks_path
               :: (if is_request_exception e then [EvPrint (MsgHttpFailed e)] else []))
    | None =>
        let w2 := w1 ++ [EvWrote chunks_path (JsonDump (VList all_chunks))] in
        match env_write E w2 response_path (JsonDump response) with
        | Some e =>
            (Raise e,
             w2 ++ EvWriteFailed response_path
                   :: (if is_request_exception e then [EvPrint (MsgHttpFailed e)] else []))
        | None => (Ok response, w2 ++ [EvWrote response_path (JsonDump response)])
        end
    end.
Proof.
  intros Hdir Hread Hbroken. cbv zeta. rewrite call_api_raw_stream_read.
  assert (Hset : is_set (Some dir) = true) by (destruct dir; [contradiction | reflexivity]).
  rewrite Hset.
  unfold try_except, bind at 1, bind at 1, lift. rewrite Hread.
  unfold bind at 1. rewrite Hbroken. unfold ret at 1. cbn [fst snd].
  unfold bind at 1, write_file at 1.
  destruct (env_write E (w ++ [EvPost url data]) _ (JsonDump (VList all_chunks))) as [e|].
  - destruct (is_request_exception e).
    + unfold bind, print, emit, raise. rewrite <- !app_assoc. reflexivity.
    + unfold raise. reflexivity.
  - unfold ret at 1. unfold bind at 1, write_file.
    destruct (env_write E _ _ (JsonDump (stream_response full_content all_chunks))) as [e|].
    + destruct (is_request_exception e).
      * unfold bind, print, emit, raise. rewrite <- !app_assoc. reflexivity.
      * unfold raise. reflexivity.
    + reflexivity.
Qed.

End StreamedCall.

Lemma acquire_failed (E : env) (cfg : config) (messages : value) (dir : str)
    (w w1 : world) (e : exn) :
  call_api_raw E (BASE_URL cfg) (MODEL_NAME cfg) messages (USE_STREAM cfg) (Some dir) w
  = (Raise e, w1) ->
  acquire E cfg messages dir w = fallback_after E cfg messages e w1.
Proof.
  intros Hraw. unfold acquire, try_except, fallback_after. unfold bind at 1.
  rewrite Hraw. unfold bind, print, emit, ret.
  destruct (call_openai_with_retry _ _ _ _ _ _) as [[v | e'] w2]; reflexivity.
Qed.

Lemma acquire_returned (E : env) (cfg : config) (messages : value) (dir : str)
    (w w1 : world) (v : value) :
  call_api_raw E (BASE_URL cfg) (MODEL_NAME cfg) messages (USE_STREAM cfg) (Some dir) w
  = (Ok v, w1) ->
  acquire E cfg messages dir w = (Ok (v, true), w1).
Proof.
  intros Hraw. unfold acquire, try_except. unfold bind at 1. rewrite Hraw. reflexivity.
Qed.

(** X7. A streamed chunk whose delta has a content that is no string (a
    JSON null, say) ends the primary transport: the [+=] of line 234 raises
    a [TypeError], which the handler of line 272 does not report, whatever
    was read before and whatever follows; the text read so far is dropped,
    no debug file is written, and the driver goes on with the fallback. *)
Theorem X7_null_delta_fails_stream (E : env) (cfg : config) (messages : value)
    (dir : str) (w : world) (r : http_response)
    (before after : list str) (payload : str) (chunk : value) (st : str * list value) :
  let url := endpoint (BASE_URL cfg) in
  let data := request_data (MODEL_NAME cfg) messages true in
  USE_STREAM cfg = true ->
  env_post E w url data = inr r ->
  is_error_status (resp_status r) = false ->
  resp_lines r = before ++ (lit "data: " ++ payload) :: after ->
  read_stream E before [] [] = Ok st ->
  payload <> lit "[DONE]" ->
  env_json_loads E payload = Some chunk ->
  bad_delta chunk ->
  call_api_raw E (BASE_URL cfg) (MODEL_NAME cfg) messages true (Some dir) w
  = (Raise TypeError, w ++ [EvPost url data])
  /\ acquire E cfg messages dir w
     = fallback_after E cfg messages TypeError (w ++ [EvPost url data]).
Proof.
  intros url data Hstream Hpost Hstatus Hlines Hbefore Hdone Hloads Hbad.
  assert (Hraw : call_api_raw E (BASE_URL cfg) (MODEL_NAME cfg) messages true (Some dir) w
                 = (Raise TypeError, w ++ [EvPost url data])).
  { apply (call_api_raw_bad_chunk E (BASE_URL cfg) (MODEL_NAME cfg) messages w r
             Hpost Hstatus (Some dir) TypeError); [| reflexivity].
    rewrite Hlines, read_stream_app, Hbefore. cbn [rbind].
    rewrite read_stream_data_line.
    replace (str_eqb payload (lit "[DONE]")) with false.
    - cbn [negb]. rewrite Hloads, (chunk_content_bad_delta _ _ Hbad). reflexivity.
    - symmetry. destruct (str_eqb _ _) eqn:Heq; [| reflexivity].
      apply str_eqb_eq in Heq. contradiction. }
  split; [exact Hraw |].
  apply acquire_failed. rewrite Hstream. exact Hraw.
Qed.

(** X8. A stream that was read to its end gives, when both debug files can
    be written: the response of lines 251-259 with the accumulated text as
    its content; the chunks in [stream_chunks.json] and then that response
    in [raw_api_response.json], both in the output directory, and no other
    event after the request; the driver takes this response as the raw
    one, without calling the SDK client; and the content it extracts from
    it is the accumulated text, to which the scan of the vendor fields
    adds nothing. *)
Theorem X8_streamed_response (E : env) (cfg : config) (messages : value)
    (dir : str) (w : world) (r : http_response)
    (full_content : str) (all_chunks : list value) :
  let url := endpoint (BASE_URL cfg) in
  let data := request_data (MODEL_NAME cfg) messages true in
  let chunks_path := path_join dir (lit "stream_chunks.json") in
  let response_path := path_join dir (lit "raw_api_response.json") in
  let response := stream_response full_content all_chunks in
  let w1 := w ++ [EvPost url data] in
  let w2 := w1 ++ [EvWrote chunks_path (JsonDump (VList all_chunks))] in
  USE_STREAM cfg = true ->
  dir <> [] ->
  env_post E w url data = inr r ->
  is_error_status (resp_status r) = false ->
  read_stream E (resp_lines r) [] [] = Ok (full_content, all_chunks) ->
  resp_broken r = None ->
  env_write E w1 chunks_path (JsonDump (VList all_chunks)) = None ->
  env_write E w2 response_path (JsonDump response) = None ->
  acquire E cfg messages dir w
  = (Ok (response, true), w2 ++ [EvWrote response_path (JsonDump response)])
  /\ raw_response_content E response = Ok (VStr full_content).
Proof.
  intros url data chunks_path response_path response w1 w2
    Hstream Hdir Hpost Hstatus Hread Hbroken Hw1 Hw2.
  split; [| reflexivity].
  apply acquire_returned. rewrite Hstream.
  rewrite (call_api_raw_streamed E (BASE_URL cfg) (MODEL_NAME cfg) messages w r
             Hpost Hstatus dir full_content all_chunks Hdir Hread Hbroken).
  cbv zeta. fold url data. fold w1. fold chunks_path. rewrite Hw1.
  fold w2. fold response. fold response_path. rewrite Hw2. reflexivity.
Qed.

(** X9. A debug file that cannot be written costs the response: when the
    stream was read to its end but [stream_chunks.json], or after it
    [raw_api_response.json], cannot be written, the response is dropped and
    the driver sends the request again, through the SDK client. *)
Theorem X9_debug_write_failure (E : env) (cfg : config) (messages : value)
    (dir : str) (w : world) (r : http_response)
    (full_content : str) (all_chunks : list value) :
  let url := endpoint (BASE_URL cfg) in
  let data := request_data (MODEL_NAME cfg) messages true in
  let chunks_path := path_join dir (lit "stream_chunks.json") in
  let response_path := path_join dir (lit "raw_api_response.json") in
  let response := stream_response full_content all_chunks in
  let w1 := w ++ [EvPost url data] in
  let w2 := w1 ++ [EvWrote chunks_path (JsonDump (VList all_chunks))] in
  USE_STREAM cfg = true ->
  dir <> [] ->
  env_post E w url data = inr r ->
  is_error_status (resp_status r) = false ->
  read_stream E (resp_lines r) [] [] = Ok (full_content, all_chunks) ->
  resp_broken r = None ->
  (forall e,
      env_write E w1 chunks_path (JsonDump (VList all_chunks)) = Some e ->
      is_request_exception e = false ->
      acquire E cfg messages dir w
      = fallback_after E cfg messages e (w1 ++ [EvWriteFailed chunks_path]))
  /\ (forall e,
         env_write E w1 chunks_path (JsonDump (VList all_chunks)) = None ->
         env_write E w2 response_path (JsonDump response) = Some e ->
         is_request_exception e = false ->
         acquire E cfg messages dir w
         = fallback_after E cfg messages e (w2 ++ [EvWriteFailed response_path])).
Proof.
  intros url data chunks_path response_path response w1 w2
    Hstream Hdir Hpost Hstatus Hread Hbroken.
  assert (Hraw := call_api_raw_streamed E (BASE_URL cfg) (MODEL_NAME cfg) messages w r
                    Hpost Hstatus dir full_content all_chunks Hdir Hread Hbroken).
  cbv zeta in Hraw. fold url data in Hraw. fold w1 in Hraw. fold chunks_path in Hraw.
  split.
  - intros e Hw1 Hkind. apply acquire_failed. rewrite Hstream, Hraw, Hw1, Hkind.
    reflexivity.
  - intros e Hw1 Hw2 Hkind. apply acquire_failed. rewrite Hstream, Hraw, Hw1.
    fold w2. fold response. fold response_path. rewrite Hw2, Hkind. reflexivity.
Qed.

(** X7 on a stream whose second chunk has a null content. *)
Lemma X7_witness :
  call_api_raw (Stream.server sample_null_stream) (lit "https://api.example/v1")
    (lit "gemini") (VList []) true (Some (lit "out")) []
  = (Raise TypeError,
     [EvPost (lit "https://api.example/v1/chat/completions")
        (request_data (lit "gemini") (VList []) true)])
  /\ acquire (Stream.server sample_null_stream) sample_config (VList []) (lit "out") []
     = fallback_after (Stream.server sample_null_stream) sample_config (VList []) TypeError
         [EvPost (lit "https://api.example/v1/chat/completions")
            (request_data (lit "gemini") (VList []) true)].
Proof.
  apply (X7_null_delta_fails_stream (Stream.server sample_null_stream) sample_config
           (VList []) (lit "out") []
           (Sample.response 200 (lit "text/event-stream") [] sample_null_stream)
           [lit "data: " ++ Stream.hel] [lit "data: " ++ Stream.lo]
           Stream.null (Stream.chunk_of VNone)
           (lit "Hel", [Stream.chunk_of (VStr (lit "Hel"))])).
  - reflexivity.
  - reflexivity.
  - reflexivity.
  - reflexivity.
  - reflexivity.
  - intros Heq. discriminate Heq.
  - reflexivity.
  - exists [(lit "choices",
             VList [VDict [(lit "delta", VDict [(lit "content", VNone)])]])],
           [(lit "delta", VDict [(lit "content", VNone)])], [],
           [(lit "content", VNone)], VNone.
    split; [reflexivity |]. split; [reflexivity |]. split; [reflexivity |].
    split; [reflexivity |]. intros s Heq. discriminate Heq.
Defined.

(** X8 on a stream of two chunks among lines that do not count. *)
Lemma X8_witness :
  acquire (Stream.server sample_stream) sample_config (VList []) (lit "out") []
  = (Ok (stream_response (lit "Hello")
           [Stream.chunk_of (VStr (lit "Hel")); Stream.chunk_of (VStr (lit "lo"))], true),
     [EvPost (lit "https://api.example/v1/chat/completions")
        (request_data (lit "gemini") (VList []) true);
      EvWrote (lit "out/stream_chunks.json")
        (JsonDump (VList [Stream.chunk_of (VStr (lit "Hel"));
                          Stream.chunk_of (VStr (lit "lo"))]));
      EvWrote (lit "out/raw_api_response.json")
        (JsonDump (stream_response (lit "Hello")
                     [Stream.chunk_of (VStr (lit "Hel"));
                      Stream.chunk_of (VStr (lit "lo"))]))])
  /\ raw_response_content (Stream.server sample_stream)
       (stream_response (lit "Hello")
          [Stream.chunk_of (VStr (lit "Hel")); Stream.chunk_of (VStr (lit "lo"))])
     = Ok (VStr (lit "Hello")).
Proof.
  apply (X8_streamed_response (Stream.server sample_stream) sample_config
           (VList []) (lit "out") []
           (Sample.response 200 (lit "text/event-stream") [] sample_stream)
           (lit "Hello")
           [Stream.chunk_of (VStr (lit "Hel")); Stream.chunk_of (VStr (lit "lo"))]).
  - reflexivity.
  - intros Heq. discriminate Heq.
  - reflexivity.
  - reflexivity.
  - reflexivity.
  - reflexivity.
  - reflexivity.
  - reflexivity.
Defined.

(** X9 on a full disk: the stream of the sample host has no chunk, and the
    first debug file cannot be written. *)
Lemma X9_witness :
  acquire Sample.disk_full sample_config (VList []) (lit "out") []
  = fallback_after Sample.disk_full sample_config (VList [])
      (OSError (lit "No space left on device"))
      [EvPost (lit "https://api.example/v1/chat/completions")
         (request_data (lit "gemini") (VList []) true);
       EvWriteFailed (lit "out/stream_chunks.json")].
Proof.
  refine (proj1 (X9_debug_write_failure Sample.disk_full sample_config
                   (VList []) (lit "out") []
                   (Sample.response 200 (lit "text/event-stream") []
                      [lit "data: {oops"; lit "data: [DONE]"])
                   [] [] _ _ _ _ _ _)
            (OSError (lit "No space left on device")) _ _).
  - reflexivity.
  - intros Heq. discriminate Heq.
  - reflexivity.
  - reflexivity.
  - reflexivity.
  - reflexivity.
  - reflexivity.
  - reflexivity.
Defined.

(** ** The classifier under wrapping *)

Lemma ci_contains_wrapped (keyword msg pre post : str) :
  ci_contains keyword msg -> ci_contains keyword (pre ++ msg ++ post).
Proof.
  intros [p [mid [q [-> Hmid]]]]. exists (pre ++ p), mid, (q ++ post).
  split; [rewrite <- !app_assoc; reflexivity | exact Hmid].
Qed.

(** X10. The class of an error message survives wrapping: when text is put
    before and after a message (as a client does that embeds the answer of
    the server in its own error text), a quota error stays a quota error,
    and a retryable error stays retryable; a timeout may only turn into a
    quota error, when the added text brings a quota keyword. *)
Theorem X10_classification_wrapped (msg pre post : str) :
  (classify msg = QuotaExceeded -> classify (pre ++ msg ++ post) = QuotaExceeded)
  /\ (classify msg = Timeout -> classify (pre ++ msg ++ post) <> NonRetryable)
  /\ (classify (pre ++ msg ++ post) = NonRetryable -> classify msg = NonRetryable).
Proof.
  assert (Hq : is_quota_exceeded_error msg = true ->
               is_quota_exceeded_error (pre ++ msg ++ post) = true).
  { rewrite !is_quota_exceeded_error_iff. intros [kw [Hin Hc]].
    exists kw. split; [exact Hin | apply ci_contains_wrapped; exact Hc]. }
  assert (Ht : is_timeout_error msg = true ->
               is_timeout_error (pre ++ msg ++ post) = true).
  { rewrite !is_timeout_error_iff.
    intros [Hc | Hc]; [left | right]; apply ci_contains_wrapped; exact Hc. }
  unfold classify.
  destruct (is_quota_exceeded_error msg).
  - rewrite (Hq eq_refl). split; [reflexivity |]. split; intros H; discriminate H.
  - destruct (is_timeout_error msg).
    + rewrite (Ht eq_refl). split; [intros H; discriminate H |].
      split; [| destruct (is_quota_exceeded_error _); intros H; discriminate H].
      intros _. destruct (is_quota_exceeded_error _); intros H; discriminate H.
    + split; [intros H; discriminate H |]. split; [intros H; discriminate H |].
      reflexivity.
Qed.

(** ** The files of one extraction *)

Lemma string_of_uint_dot_free (d : Decimal.uint) :
  ~ In "."%char (lit (NilEmpty.string_of_uint d)).
Proof.
  induction d; cbn; intros H; try (destruct H as [H | H]; [discriminate H | tauto]).
  exact H.
Qed.

Lemma url_image_path_inj (dir : str) (n m : nat) (ext ext' : str) :
  In ext' extensions ->
  url_image_path dir n ext = url_image_path dir m ext' -> n = m /\ ext = ext'.
Proof.
  intros Hext H. unfold url_image_path in H. apply path_join_inj in H.
  apply app_inv_head in H. cbn [lit list_ascii_of_string app] in H.
  apply unique_split in H.
  - destruct H as [Hn He]. split; [apply str_of_nat_inj, Hn | exact He].
  - apply string_of_uint_dot_free.
  - cbn in Hext. intros Hin.
    decompose [or] Hext; subst; cbn in Hin; decompose [or] Hin; try discriminate;
      contradiction.
Qed.

Lemma in_url_paths_from (dir path : str) (exts : list str) :
  forall n, In path (url_paths dir n exts) ->
            exists i ext, n <= i /\ In ext exts /\ path = url_image_path dir i ext.
Proof.
  induction exts as [|ext exts IH]; intros n Hin; [contradiction |].
  cbn [url_paths In] in Hin. destruct Hin as [<- | Hin].
  - exists n, ext. split; [lia |]. split; [left |]; reflexivity.
  - destruct (IH (S n) Hin) as [i [ext' [Hi [He Hp]]]].
    exists i, ext'. split; [lia |]. split; [right; exact He | exact Hp].
Qed.

Lemma url_paths_NoDup (dir : str) (exts : list str) :
  Forall (fun ext => In ext extensions) exts ->
  forall n, NoDup (url_paths dir n exts).
Proof.
  induction 1 as [|ext exts Hext Hall IH]; intros n; cbn [url_paths]; constructor.
  - intros Hin. destruct (in_url_paths_from _ _ _ _ Hin) as [i [ext' [Hi [He Hp]]]].
    rewrite Forall_forall in Hall.
    destruct (url_image_path_inj dir n i ext ext' (Hall _ He) Hp) as [Hn _]. lia.
  - apply IH.
Qed.

Lemma base64_paths_NoDup (dir : str) (n k : nat) : NoDup (base64_paths dir n k).
Proof.
  revert n. induction k as [|k IH]; intros n; [constructor |].
  unfold base64_paths. cbn [seq map]. constructor; [| apply IH].
  intros Hin. destruct (in_base64_paths _ _ _ _ Hin) as [i [Hi Hp]].
  apply base64_image_path_inj in Hp. lia.
Qed.

Lemma text_is_not_url_path (dir : str) (m : nat) (ext : str) :
  path_join dir (lit "content.txt") <> url_image_path dir m ext
  /\ path_join dir (lit "original_content.txt") <> url_image_path dir m ext.
Proof.
  unfold url_image_path.
  split; intros H; apply path_join_inj in H; discriminate.
Qed.

(** X11. No file is written twice in one extraction, whatever the content
    and whatever fails: the paths of the files that [save_mixed_content]
    writes (the images, [content.txt] and [original_content.txt]) are
    pairwise distinct, so no image of a run overwrites another one or one
    of the text files. *)
Theorem X11_no_file_overwritten (E : env) (content dir : str) (w : world) :
  exists new,
    save_mixed_content E content dir w = (Ok tt, w ++ new)
    /\ NoDup (map fst (files_written new)).
Proof.
  destruct (process_base64_run E dir (finditer base64_pattern false content) content 1 w)
    as [text_b [k [new_b [Hb [_ [Hfb _]]]]]].
  destruct (process_urls_run E dir (finditer url_pattern true content) text_b (1 + k)
              (w ++ new_b))
    as [text [exts [new_u [Hu [_ [Hfu [_ [_ [_ [_ Hexts]]]]]]]]]].
  destruct (write_text_files_run E dir text content ((w ++ new_b) ++ new_u))
    as [tail [Ht Htail]].
  exists (new_b ++ new_u ++ tail). split.
  - unfold save_mixed_content. cbv zeta.
    unfold try_except in *. unfold bind at 1. rewrite Hb.
    unfold bind at 1. rewrite Hu. cbn [fst].
    rewrite !app_assoc. rewrite <- Ht. reflexivity.
  - rewrite !files_written_app, !map_app, Hfb, Hfu.
    assert (Htext : NoDup (map fst (files_written tail))
                    /\ forall p, In p (map fst (files_written tail)) ->
                                 p = path_join dir (lit "content.txt")
                                 \/ p = path_join dir (lit "original_content.txt")).
    { split; [| intros p; apply (text_run_paths dir text content tail p Htail)].
      inversion Htail; subst; cbn; repeat constructor; cbn; try tauto.
      intros [H | []]. apply path_join_inj in H. discriminate. }
    destruct Htext as [Hnd Hpaths].
    apply NoDup_app; [apply base64_paths_NoDup | |].
    + apply NoDup_app; [apply url_paths_NoDup; exact Hexts | exact Hnd |].
      intros p Hin Hin'. destruct (in_url_paths_from _ _ _ _ Hin) as [i [ext [_ [_ ->]]]].
      destruct (text_is_not_url_path dir i ext) as [H1 H2].
      destruct (Hpaths _ Hin') as [H | H]; symmetry in H; contradiction.
    + intros p Hin Hin'. destruct (in_base64_paths _ _ _ _ Hin) as [i [_ ->]].
      apply in_app_or in Hin'. destruct Hin' as [Hin' | Hin'].
      * destruct (in_url_paths_from _ _ _ _ Hin') as [j [ext [_ [_ H]]]].
        symmetry in H. exact (url_is_not_base64_path dir j i ext H).
      * destruct (text_is_not_base64_path dir i) as [H1 H2].
        destruct (Hpaths _ Hin') as [H | H]; symmetry in H; contradiction.
Qed.

(** ** Encoding an image and saving it again *)

(** X12. What [prepare_image_data] makes of a file, [save_base64_image]
    turns back into that file: the data URI built from the bytes of a
    readable image goes through the branch of lines 78-79 that strips the
    scheme, and the file written holds exactly those bytes, for every byte
    sequence (the empty one included). *)
Theorem X12_data_uri_round_trip (E : env) (image_path dir : str) (n : nat)
    (w w' : world) (data : list Byte.byte) :
  env_read E w image_path = inr data ->
  env_write E w' (base64_image_path dir n) (Binary data) = None ->
  exists uri,
    prepare_image_data E image_path w = (Ok uri, w ++ [EvRead image_path])
    /\ startswith (lit "data:image/") uri = true
    /\ save_base64_image E uri dir n w'
       = (Ok (Some (base64_image_path dir n)),
          w' ++ [EvWrote (base64_image_path dir n) (Binary data);
                 EvPrint (MsgSavedBase64 (base64_image_path dir n))]).
Proof.
  intros Hread Hwrite. exists (data_uri_prefix ++ b64encode data).
  split; [| split; [reflexivity |]].
  - unfold prepare_image_data, try_except, bind, read_file. rewrite Hread. reflexivity.
  - unfold save_base64_image, try_except.
    replace (startswith (lit "data:image/") (data_uri_prefix ++ b64encode data))
      with true by reflexivity.
    unfold bind at 1, lift at 1.
    replace (after_first_comma (data_uri_prefix ++ b64encode data))
      with (Ok (A := str) (b64encode data)) by reflexivity.
    unfold bind at 1, lift at 1. rewrite b64decode_b64encode.
    fold (base64_image_path dir n).
    unfold bind at 1, write_file. rewrite Hwrite.
    unfold bind, print, emit, ret. rewrite <- app_assoc. reflexivity.
Qed.

(** X12 on the image of the sample host. *)
Lemma X12_witness :
  exists uri,
    prepare_image_data Sample.host (lit "cat.png") [] = (Ok uri, [EvRead (lit "cat.png")])
    /\ startswith (lit "data:image/") uri = true
    /\ save_base64_image Sample.host uri (lit "out") 1 []
       = (Ok (Some (lit "out/image_1.png")),
          [EvWrote (lit "out/image_1.png") (Binary [Byte.x89; Byte.x50; Byte.x4e; Byte.x47]);
           EvPrint (MsgSavedBase64 (lit "out/image_1.png"))]).
Proof.
  exact (X12_data_uri_round_trip Sample.host (lit "cat.png") (lit "out") 1 [] []
           [Byte.x89; Byte.x50; Byte.x4e; Byte.x47] eq_refl eq_refl).
Defined.

(** ** A response without text *)

Section NullContent.
Variable E : env.

Lemma append_image_items_none (imgs : list value) :
  append_image_items E VNone imgs = Ok VNone
  \/ append_image_items E VNone imgs = Raise TypeError.
Proof.
  induction imgs as [|img imgs IH]; [left; reflexivity |].
  cbn [append_image_items].
  assert (H : append_image_item E VNone img = Ok VNone
              \/ append_image_item E VNone img = Raise TypeError).
  { destruct img; try (left; reflexivity).
    - right. cbn [append_image_item]. unfold append_image_string.
      destruct (negb _); reflexivity.
    - cbn [append_image_item]. unfold append_image_dict.
      destruct (lookup (lit "data") _); [right; reflexivity |].
      destruct (lookup (lit "url") _); [right; reflexivity |].
      destruct (lookup (lit "base64") _); [right; reflexivity | left; reflexivity]. }
  destruct H as [-> | ->]; [exact IH | right; reflexivity].
Qed.

Lemma append_fields_none (message : list (str * value)) (fields : list str) :
  append_fields E (VDict message) VNone fields = Ok VNone
  \/ append_fields E (VDict message) VNone fields = Raise TypeError.
Proof.
  induction fields as [|field fields IH]; [left; reflexivity |].
  cbn [append_fields].
  assert (H : append_field E (VDict message) VNone field = Ok VNone
              \/ append_field E (VDict message) VNone field = Raise TypeError).
  { unfold append_field. cbn [py_in py_getitem rbind].
    destruct (lookup field message) as [x|]; [| left; reflexivity].
    cbn [rbind]. destruct (truthy x); [| left; reflexivity].
    destruct x; try (left; reflexivity).
    - right. unfold append_image_string. destruct (negb _); reflexivity.
    - apply append_image_items_none. }
  destruct H as [-> | ->]; [exact IH | right; reflexivity].
Qed.

Lemma append_client_images_none (imgs : list value) :
  append_client_images E VNone imgs = Ok VNone
  \/ append_client_images E VNone imgs = Raise TypeError.
Proof.
  induction imgs as [|img imgs IH]; [left; reflexivity |].
  cbn [append_client_images].
  assert (H : append_client_image E VNone img = Ok VNone
              \/ append_client_image E VNone img = Raise TypeError).
  { unfold append_client_image.
    destruct img; try (right; reflexivity);
      destruct (py_getattr _ _); try (left; reflexivity); right; reflexivity. }
  destruct H as [-> | ->]; [exact IH | right; reflexivity].
Qed.

Lemma response_content_none (message : list (str * value)) (use_raw_response : bool) :
  lookup (lit "content") message = Some VNone ->
  let content :=
    if use_raw_response
    then raw_response_content E (raw_completion message)
    else client_response_content E (client_completion message) in
  content = Ok VNone \/ content = Raise TypeError.
Proof.
  intros Hnull. cbv zeta. destruct use_raw_response.
  - change (raw_response_content E (raw_completion message))
      with (rbind (py_get (VDict message) (lit "content") (VStr []))
              (fun response_content =>
                 append_fields E (VDict message) response_content possible_image_fields)).
    cbn [py_get]. rewrite Hnull. cbn [rbind].
    apply append_fields_none.
  - change (client_response_content E (client_completion message))
      with (rbind (py_getattr (VObj message) (lit "content")) (fun response_content =>
            match py_getattr (VObj message) (lit "images") with
            | Ok images =>
                if truthy images then
                  rbind (py_nonempty images) (fun _ =>
                  rbind (py_iter images) (fun imgs =>
                  append_client_images E response_content imgs))
                else Ok response_content
            | Raise _ => Ok response_content
            end)).
    assert (Hc : py_getattr (VObj message) (lit "content") = Ok VNone)
      by (unfold py_getattr; rewrite Hnull; reflexivity).
    rewrite Hc. cbn [rbind].
    destruct (py_getattr (VObj message) (lit "images")) as [images | e];
      [| left; reflexivity].
    destruct (truthy images); [| left; reflexivity].
    destruct images; try (right; reflexivity); cbn [py_nonempty py_iter rbind];
      try apply append_client_images_none.
Qed.

End NullContent.

(** X13. A response whose message has a null content ends the script with
    a [TypeError], on the raw path and on the client path alike, and even
    when the message carries images in its vendor fields: adding to the
    content (lines 455-472, 487-489) or taking its length (line 492) fails,
    so nothing is extracted and nothing more is written after the response
    was acquired. *)
Theorem X13_null_content_crashes (E : env) (cfg : config) (w w1 w3 : world)
    (image : value) (images : list value) (completion : value) (use_raw_response : bool)
    (message : list (str * value)) :
  let dir := lit "output_" ++ env_timestamp E w1 in
  prepare_images E (configured_paths cfg) [] w = (Ok (image :: images), w1) ->
  env_mkdir E w1 dir = None ->
  acquire E cfg (build_messages cfg (image :: images)) dir (w1 ++ [EvMkdir dir])
  = (Ok (completion, use_raw_response), w3) ->
  completion = (if use_raw_response
                then raw_completion message
                else client_completion message) ->
  lookup (lit "content") message = Some VNone ->
  main E cfg w = (Raise TypeError, w3).
Proof.
  intros dir Hprep Hmk Hacq Hcompletion Hnull.
  unfold main. fold (configured_paths cfg). unfold bind at 1. rewrite Hprep.
  unfold bind at 1. unfold create_output_directory. fold dir.
  unfold bind at 1. unfold makedirs. rewrite Hmk. unfold ret at 1.
  unfold bind at 1. rewrite Hacq. unfold bind at 1, lift.
  pose proof (response_content_none E message use_raw_response Hnull) as Hcontent.
  cbv zeta in Hcontent. subst completion.
  destruct use_raw_response; destruct Hcontent as [-> | ->]; reflexivity.
Qed.

(** X13 on a server that answers with a null content and an image in the
    [images] field. *)
Lemma X13_witness :
  exists w3,
    main sample_json_server sample_plain_config [] = (Raise TypeError, w3)
    /\ files_written w3
       = [(lit "output_20250828_093000/raw_api_response.json",
           JsonDump (raw_completion sample_null_message))].
Proof.
  eexists. split.
  - apply (X13_null_content_crashes sample_json_server sample_plain_config []
             [EvRead (lit "cat.png")] _
             (image_part (data_uri_prefix ++ lit "iVBORw==")) []
             (raw_completion sample_null_message) true sample_null_message).
    + reflexivity.
    + reflexivity.
    + reflexivity.
    + reflexivity.
    + reflexivity.
  - reflexivity.
Defined.

(** ** What the matcher finds *)

Section MatcherSound.
Variable ignorecase : bool.

Lemma str_match_sound {A} (p : str) :
  forall (s : str) (k : str -> option A) (v : A),
    str_match ignorecase p s k = Some v ->
    exists m rest,
      s = m ++ rest
      /\ Forall2 (fun c x => chr_match ignorecase c x = true) p m
      /\ k rest = Some v.
Proof.
  induction p as [|c p IH]; intros s k v H; cbn [str_match] in H.
  - exists [], s. split; [reflexivity |]. split; [constructor | exact H].
  - destruct s as [|x s]; [discriminate |].
    destruct (chr_match ignorecase c x) eqn:Hc; [| discriminate].
    destruct (IH s k v H) as [m [rest [-> [Hm Hk]]]].
    exists (x :: m), rest. split; [reflexivity |].
    split; [constructor; assumption | exact Hk].
Qed.

Lemma plus_match_sound {A} (class : ascii -> bool) :
  forall (s : str) (k : str -> option A) (v : A),
    plus_match class s k = Some v ->
    exists m rest,
      s = m ++ rest /\ m <> [] /\ forallb class m = true /\ k rest = Some v.
Proof.
  induction s as [|x s IH]; intros k v H; cbn [plus_match] in H; [discriminate |].
  destruct (class x) eqn:Hx; [| discriminate].
  destruct (plus_match class s k) as [v'|] eqn:Hp.
  - injection H as <-. destruct (IH k v' Hp) as [m [rest [-> [_ [Hm Hk]]]]].
    exists (x :: m), rest. split; [reflexivity |]. split; [discriminate |].
    split; [cbn; rewrite Hx, Hm; reflexivity | exact Hk].
  - exists [x], s. split; [reflexivity |]. split; [discriminate |].
    split; [cbn; rewrite Hx; reflexivity | exact H].
Qed.

Lemma run_sound {A} (r : regex) :
  forall (caps : list str) (s : str) (k : list str -> str -> option A) (v : A),
    run ignorecase r caps s k = Some v ->
    exists m rest gs,
      s = m ++ rest /\ denotes ignorecase r m gs /\ k (caps ++ gs) rest = Some v.
Proof.
  induction r as [c | p | r1 IH1 r2 IH2 | r1 IH1 r2 IH2 | r1 IH1 | class | r1 IH1];
    intros caps s k v H; cbn [run] in H.
  - destruct s as [|x s]; [discriminate |].
    destruct (chr_match ignorecase c x) eqn:Hc; [| discriminate].
    exists [x], s, []. rewrite app_nil_r.
    split; [reflexivity |]. split; [constructor; exact Hc | exact H].
  - destruct (str_match_sound p s (k caps) v H) as [m [rest [-> [Hm Hk]]]].
    exists m, rest, []. rewrite app_nil_r.
    split; [reflexivity |]. split; [constructor; exact Hm | exact Hk].
  - destruct (IH1 _ _ _ _ H) as [m1 [rest1 [g1 [-> [H1 Hk1]]]]].
    destruct (IH2 _ _ _ _ Hk1) as [m2 [rest2 [g2 [-> [H2 Hk2]]]]].
    exists (m1 ++ m2), rest2, (g1 ++ g2).
    split; [rewrite app_assoc; reflexivity |].
    split; [constructor; assumption | rewrite app_assoc; exact Hk2].
  - destruct (run ignorecase r1 caps s k) as [v'|] eqn:Hr1.
    + injection H as <-. destruct (IH1 _ _ _ _ Hr1) as [m [rest [g [-> [H1 Hk]]]]].
      exists m, rest, g. split; [reflexivity |].
      split; [apply DAltL; exact H1 | exact Hk].
    + destruct (IH2 _ _ _ _ H) as [m [rest [g [-> [H2 Hk]]]]].
      exists m, rest, g. split; [reflexivity |].
      split; [apply DAltR; exact H2 | exact Hk].
  - destruct (run ignorecase r1 caps s k) as [v'|] eqn:Hr1.
    + injection H as <-. destruct (IH1 _ _ _ _ Hr1) as [m [rest [g [-> [H1 Hk]]]]].
      exists m, rest, g. split; [reflexivity |].
      split; [apply DOptSome; exact H1 | exact Hk].
    + exists [], s, []. rewrite app_nil_r.
      split; [reflexivity |]. split; [apply DOptNone | exact H].
  - destruct (plus_match_sound class s (k caps) v H) as [m [rest [-> [Hne [Hm Hk]]]]].
    exists m, rest, []. rewrite app_nil_r.
    split; [reflexivity |]. split; [constructor; assumption | exact Hk].
  - destruct (IH1 _ _ _ _ H) as [m [rest [g [-> [H1 Hk]]]]].
    exists m, rest, (g ++ [m]). split; [reflexivity |].
    split; [constructor; exact H1 |].
    rewrite firstn_length_app in Hk. rewrite app_assoc. exact Hk.
Qed.

Lemma match_at_sound (r : regex) (s : str) (m : rmatch) (rest : str) :
  match_at ignorecase r s = Some (m, rest) ->
  s = group0 m ++ rest /\ denotes ignorecase r (group0 m) (groups m).
Proof.
  unfold match_at. intros H.
  destruct (run_sound r _ _ _ _ H) as [g0 [rest' [gs [-> [Hd Hk]]]]].
  rewrite firstn_length_app in Hk. injection Hk as <- <-.
  split; [reflexivity | exact Hd].
Qed.

Lemma finditer_from_sound (r : regex) (s : str) :
  forall (skip : nat) (m : rmatch),
    In m (finditer_from ignorecase r skip s) ->
    exists pre post,
      s = pre ++ group0 m ++ post /\ denotes ignorecase r (group0 m) (groups m).
Proof.
  induction s as [|c s IH]; intros skip m Hin; [contradiction |].
  assert (Hrest : forall n, In m (finditer_from ignorecase r n s) ->
                  exists pre post,
                    c :: s = pre ++ group0 m ++ post
                    /\ denotes ignorecase r (group0 m) (groups m)).
  { intros n Hn. destruct (IH n m Hn) as [pre [post [-> Hd]]].
    exists (c :: pre), post. split; [reflexivity | exact Hd]. }
  cbn [finditer_from] in Hin. destruct skip as [|n]; [| exact (Hrest _ Hin)].
  destruct (match_at ignorecase r (c :: s)) as [[m' rest]|] eqn:Hm;
    [| exact (Hrest _ Hin)].
  destruct Hin as [<- | Hin]; [| exact (Hrest _ Hin)].
  destruct (match_at_sound _ _ _ _ Hm) as [Hs Hd].
  exists [], rest. split; [exact Hs | exact Hd].
Qed.

End MatcherSound.

Lemma str_exact (p m : str) :
  Forall2 (fun c x => chr_match false c x = true) p m -> m = p.
Proof.
  induction 1 as [|c x p m Hc _ IH]; [reflexivity |].
  cbn [chr_match] in Hc. apply Ascii.eqb_eq in Hc. subst. reflexivity.
Qed.





Ltac invert_denotes :=
  repeat match goal with
         | H : denotes _ (Seq _ _) _ _ |- _ => inversion H; subst; clear H
         | H : denotes _ (Str _) _ _ |- _ => inversion H; subst; clear H
         | H : denotes _ (Chr _) _ _ |- _ => inversion H; subst; clear H
         | H : denotes _ (Plus _) _ _ |- _ => inversion H; subst; clear H
         | H : denotes _ (Group _) _ _ |- _ => inversion H; subst; clear H
         | H : denotes _ (Opt _) _ _ |- _ => inversion H; subst; clear H
         | H : denotes _ (Alt _ _) _ _ |- _ => inversion H; subst; clear H
         end.

Lemma base64_pattern_denotes (g0 : str) (gs : list str) :
  denotes false base64_pattern g0 gs ->
  exists subtype payload,
    g0 = lit "data:image/" ++ subtype ++ lit ";base64," ++ payload
    /\ gs = [payload]
    /\ subtype <> []
    /\ forallb not_semicolon subtype = true
    /\ payload <> []
    /\ forallb is_base64_char payload = true.
Proof.
  unfold base64_pattern. intros Hd. invert_denotes.
  repeat match goal with
         | H : Forall2 _ _ _ |- _ => apply str_exact in H; subst
         end.
  match goal with
  | Hs : forallb not_semicolon ?sub = true, Hp : forallb is_base64_char ?payload = true
    |- _ => exists sub, payload
  end.
  split; [reflexivity |]. split; [reflexivity |].
  split; [assumption |]. split; [assumption |]. split; assumption.
Qed.

(** X14. Every match of the data-URI pattern that the extractor works on is
    a part of the content of the form [data:image/<subtype>;base64,<payload>]
    with a non-empty subtype without semicolon and a non-empty payload of
    base64 characters, and its group 1 is that payload.  So what the
    extractor hands to [save_base64_image] never starts with [data:image/]:
    the branch of lines 78-79 is not taken from there. *)
Theorem X14_base64_matches (content : str) (m : rmatch) :
  In m (finditer base64_pattern false content) ->
  exists pre subtype payload post,
    content = pre ++ group m 0 ++ post
    /\ group m 0 = lit "data:image/" ++ subtype ++ lit ";base64," ++ payload
    /\ group m 1 = payload
    /\ subtype <> []
    /\ forallb not_semicolon subtype = true
    /\ payload <> []
    /\ forallb is_base64_char payload = true
    /\ startswith (lit "data:image/") payload = false.
Proof.
  intros Hin. unfold finditer in Hin.
  destruct (finditer_from_sound false base64_pattern content 0 m Hin)
    as [pre [post [Hcontent Hd]]].
  destruct (base64_pattern_denotes _ _ Hd)
    as [sub [payload [Hg0 [Hgs [Hne [Hsub [Hne' Hpl]]]]]]].
  exists pre, sub, payload, post.
  split; [exact Hcontent |]. split; [exact Hg0 |].
  split; [cbn [group]; rewrite Hgs; reflexivity |].
  split; [exact Hne |]. split; [exact Hsub |]. split; [exact Hne' |].
  split; [exact Hpl | apply payload_has_no_scheme; exact Hpl].
Qed.

(** X14 on a content with one data URI. *)
Lemma X14_witness :
  In sample_uri_match (finditer base64_pattern false sample_uri_content)
  /\ exists pre subtype payload post,
       sample_uri_content = pre ++ group sample_uri_match 0 ++ post
       /\ group sample_uri_match 0
          = lit "data:image/" ++ subtype ++ lit ";base64," ++ payload
       /\ group sample_uri_match 1 = payload.
Proof.
  assert (Hin : In sample_uri_match (finditer base64_pattern false sample_uri_content))
    by (left; reflexivity).
  split; [exact Hin |].
  destruct (X14_base64_matches sample_uri_content sample_uri_match Hin)
    as [pre [subtype [payload [post [H1 [H2 [H3 _]]]]]]].
  exists pre, subtype, payload, post. split; [exact H1 |]. split; [exact H2 | exact H3].
Defined.




(** ** Payloads without padding *)

Lemma is_digit_facts (c : ascii) :
  is_digit c = true ->
  Ascii.eqb c "=" = false /\ is_base64_char c = true
  /\ exists n, value_of c = Some n.
Proof.
  unfold is_digit. destruct (value_of c) as [n|] eqn:Hv; [| discriminate].
  intros _. split; [| split; [| exists n; reflexivity]].
  - destruct (Ascii.eqb c "=") eqn:Heq; [| reflexivity].
    apply Ascii.eqb_eq in Heq. subst c. vm_compute in Hv. discriminate Hv.
  - unfold value_of in Hv. unfold is_base64_char.
    destruct (in_range 65 90 c); [reflexivity |].
    destruct (in_range 97 122 c); [reflexivity |].
    destruct (in_range 48 57 c); [reflexivity |].
    destruct (Ascii.eqb c "+"); [reflexivity |].
    destruct (Ascii.eqb c "/"); [reflexivity | discriminate Hv].
Qed.

Lemma a2b_digits (s : str) :
  forallb is_digit s = true ->
  forall (quad_pos : nat) (leftchar : N) (pads : nat),
    quad_pos < 4 ->
    (a2b_base64 s quad_pos leftchar pads = None
     <-> (quad_pos + List.length s) mod 4 <> 0).
Proof.
  induction s as [|c s IH]; intros Hall q l p Hq.
  - cbn [a2b_base64 List.length]. rewrite Nat.add_0_r, Nat.mod_small by exact Hq.
    destruct q; cbn [Nat.eqb]; split; intros H;
      try discriminate H; try reflexivity; try (exfalso; apply H; reflexivity);
      try (intros H'; discriminate H').
  - cbn [forallb] in Hall. apply andb_prop in Hall. destruct Hall as [Hc Hs].
    destruct (is_digit_facts c Hc) as [Heq [_ [n Hv]]].
    cbn [a2b_base64 List.length]. rewrite Heq, Hv.
    assert (Hmap : forall (b : Byte.byte) (r : option (list Byte.byte)),
               option_map (cons b) r = None <-> r = None).
    { intros b [x|]; cbn; split; intros H; try discriminate; reflexivity. }
    destruct q as [|[|[|[|q]]]]; [| | | | lia].
    + rewrite (IH Hs 1 n 0) by lia.
      replace (0 + S (List.length s)) with (1 + List.length s) by lia. reflexivity.
    + rewrite Hmap, (IH Hs 2 _ 0) by lia.
      replace (1 + S (List.length s)) with (2 + List.length s) by lia. reflexivity.
    + rewrite Hmap, (IH Hs 3 _ 0) by lia.
      replace (2 + S (List.length s)) with (3 + List.length s) by lia. reflexivity.
    + rewrite Hmap, (IH Hs 0 _ 0) by lia.
      replace (3 + S (List.length s)) with (0 + List.length s + 1 * 4) by lia.
      rewrite Nat.Div0.mod_add. reflexivity.
Qed.

Lemma digits_base64_chars (s : str) :
  forallb is_digit s = true -> forallb is_base64_char s = true.
Proof.
  induction s as [|c s IH]; [reflexivity |].
  cbn [forallb]. intros H. apply andb_prop in H. destruct H as [Hc Hs].
  destruct (is_digit_facts c Hc) as [_ [-> _]]. exact (IH Hs).
Qed.

(** X16. A payload of base64 digits without padding is decoded exactly when
    its length is a multiple of four.  Otherwise (a payload cut off inside
    a group, say) [save_base64_image] writes no file: it reports the error
    and returns [None], in every environment. *)
Theorem X16_unpadded_payload (E : env) (payload dir : str) (n : nat) (w : world) :
  forallb is_digit payload = true ->
  (b64decode payload = None <-> List.length payload mod 4 <> 0)
  /\ (List.length payload mod 4 <> 0 ->
      save_base64_image E payload dir n w
      = (Ok None, w ++ [EvPrint (MsgSaveBase64Failed BinasciiError)])).
Proof.
  intros Hdigits.
  assert (Hdec : b64decode payload = None <-> List.length payload mod 4 <> 0).
  { unfold b64decode.
    rewrite (base64_chars_ascii _ (digits_base64_chars _ Hdigits)).
    rewrite (a2b_digits payload Hdigits 0 0%N 0) by lia. reflexivity. }
  split; [exact Hdec |].
  intros Hlen. apply Hdec in Hlen.
  unfold save_base64_image, try_except.
  rewrite (payload_has_no_scheme _ (digits_base64_chars _ Hdigits)).
  unfold bind at 1, ret at 1. unfold bind at 1, lift. rewrite Hlen.
  unfold bind, print, emit, ret. reflexivity.
Qed.

(** X16 on a payload of six digits. *)
Lemma X16_witness :
  b64decode (lit "QUJDRE") = None
  /\ save_base64_image Sample.host (lit "QUJDRE") (lit "out") 1 []
     = (Ok None, [EvPrint (MsgSaveBase64Failed BinasciiError)]).
Proof.
  destruct (X16_unpadded_payload Sample.host (lit "QUJDRE") (lit "out") 1 [] eq_refl)
    as [Hdec Hsave].
  split.
  - apply Hdec. cbn. discriminate.
  - apply Hsave. cbn. discriminate.
Defined.

(** ** The name of a downloaded image *)

Lemma extension_of_spec (content_type : str) :
  let png := ci_contains (lit "png") content_type in
  let jpg := ci_contains (lit "jpg") content_type
             \/ ci_contains (lit "jpeg") content_type in
  let gif := ci_contains (lit "gif") content_type in
  (png -> extension_of content_type = lit "png")
  /\ (~ png -> jpg -> extension_of content_type = lit "jpg")
  /\ (~ png -> ~ jpg -> gif -> extension_of content_type = lit "gif")
  /\ (~ png -> ~ jpg -> ~ gif -> extension_of content_type = lit "png").
Proof.
  cbv zeta. rewrite <- !contains_lower_iff by reflexivity. unfold extension_of.
  destruct (contains (lit "png") (lower content_type));
    destruct (contains (lit "jpg") (lower content_type));
    destruct (contains (lit "jpeg") (lower content_type));
    destruct (contains (lit "gif") (lower content_type));
    cbn [orb]; repeat split; intros; try reflexivity;
    repeat match goal with
           | H : ~ (true = true) |- _ => exfalso; apply H; reflexivity
           | H : ~ (_ \/ _) |- _ => exfalso; apply H; auto
           | H : false = true |- _ => discriminate H
           | H : _ \/ _ |- _ => destruct H
           end.
Qed.

(** X17. The name under which a downloaded image is saved: the file is
    [image_url_<n>.<ext>] in the output directory and holds the body of the
    answer; its extension comes from the Content-Type header alone, never
    from the URL: [png] when the header mentions png, else [jpg] when it
    mentions jpg or jpeg, else [gif] when it mentions gif, and [png] when
    it mentions none of them, all up to case. *)
Theorem X17_download_extension (E : env) (url dir : str) (n : nat) (w : world)
    (r : http_response) :
  let content_type := resp_content_type r in
  let path := url_image_path dir n (extension_of content_type) in
  let png := ci_contains (lit "png") content_type in
  let jpg := ci_contains (lit "jpg") content_type
             \/ ci_contains (lit "jpeg") content_type in
  let gif := ci_contains (lit "gif") content_type in
  env_get E w url = inr r ->
  is_error_status (resp_status r) = false ->
  resp_broken r = None ->
  env_write E (w ++ [EvGet url]) path (Binary (resp_body r)) = None ->
  download_image_from_url E url dir n w
  = (Ok (Some path),
     w ++ [EvGet url; EvWrote path (Binary (resp_body r)); EvPrint (MsgDownloaded path)])
  /\ (png -> extension_of content_type = lit "png")
  /\ (~ png -> jpg -> extension_of content_type = lit "jpg")
  /\ (~ png -> ~ jpg -> gif -> extension_of content_type = lit "gif")
  /\ (~ png -> ~ jpg -> ~ gif -> extension_of content_type = lit "png").
Proof.
  intros content_type path png jpg gif Hget Hstatus Hbroken Hwrite.
  split; [| exact (extension_of_spec content_type)].
  unfold download_image_from_url, try_except, bind at 1, http_get.
  rewrite Hget. cbn [of_sum]. unfold bind at 1, raise_for_status.
  unfold is_error_status in Hstatus. rewrite Hstatus. unfold ret at 1.
  fold content_type. fold (url_image_path dir n (extension_of content_type)). fold path.
  rewrite Hbroken. unfold bind at 1, write_file. rewrite Hwrite.
  unfold bind, print, emit, ret. rewrite <- !app_assoc. reflexivity.
Qed.

(** X17 on a URL that ends in [.gif] and is served as a JPEG. *)
Lemma X17_witness :
  download_image_from_url Sample.host (lit "http://h/x.gif") (lit "out") 1 []
  = (Ok (Some (lit "out/image_url_1.jpg")),
     [EvGet (lit "http://h/x.gif");
      EvWrote (lit "out/image_url_1.jpg") (Binary [Byte.xff; Byte.xd8]);
      EvPrint (MsgDownloaded (lit "out/image_url_1.jpg"))]).
Proof.
  exact (proj1 (X17_download_extension Sample.host (lit "http://h/x.gif") (lit "out") 1 []
                  (Sample.response 200 (lit "image/jpeg") [Byte.xff; Byte.xd8] [])
                  eq_refl eq_refl eq_refl eq_refl)).
Defined.
